(** * CIFAR-100 training scripts: early stopping, data split, checkpointing

    A shallow embedding of the original logic of [simple_cnn.py],
    [soph_cnn.py], [transfer_cnn.py] and [eval_cifar100.py].

    Python [float] is IEEE-754 binary64: it is modelled by Rocq's primitive
    [float], whose operations are specified by [SpecFloat] (round to nearest,
    ties to even).  Python [int] is unbounded: it is modelled by [Z].
    Exceptions are values of [exn], carried by the [result] monad. *)

From Stdlib Require Import ZArith Lia Bool List.
From Stdlib Require Import Floats.
From stdpp Require Import base list gmap strings.

Open Scope Z_scope.

(* ================================================================== *)
(** ** Python numbers and exceptions *)

Inductive exn : Type :=
  | ZeroDivisionError
  | OverflowError
  | ValueError
  | FileNotFoundError
  | RuntimeError.

Inductive result (A : Type) : Type :=
  | Ok (a : A)
  | Raise (e : exn).

Arguments Ok {A} a.
Arguments Raise {A} e.

#[global] Instance result_bind : MBind result :=
  fun A B (k : A -> result B) (r : result A) =>
    match r with
    | Ok a => k a
    | Raise e => Raise e
    end.

Definition is_ok {A : Type} (r : result A) : bool :=
  match r with Ok _ => true | Raise _ => false end.

(** [a >= b] on Python floats. *)
Definition geb (x y : float) : bool := (y <=? x)%float.

(** A bound above every finite binary64 value scaled by 2^1074. *)
Definition finite_bound : Z := 2 ^ 2098.

(** The value of a binary64 as an integer multiple of 2^-1074; the
    infinities are placed beyond every finite value. *)
Definition Zval (x : spec_float) : Z :=
  match x with
  | S754_finite s m e => cond_Zopp s (Zpos m * 2 ^ (e + 1074))
  | S754_infinity s => cond_Zopp s finite_bound
  | _ => 0
  end.

(** A finite positive binary64 value, scaled by 2^1074. *)
Definition representable (A : Z) : Prop :=
  exists (ma : positive) (ea : Z),
    Zpos ma < 2 ^ 53 /\ -1074 <= ea <= 971 /\ A = Zpos ma * 2 ^ (ea + 1074).

(** The invariant of the shift-right loop of the rounding of [P]: after
    dropping [k] bits the record holds the quotient, the round bit and the
    sticky bit of the bits dropped. *)
Definition shr_inv (P k : Z) (mrs : shr_record) : Prop :=
  exists rem low,
    P = shr_m mrs * 2 ^ k + rem /\ 0 <= rem < 2 ^ k /\
    2 * rem = (if shr_r mrs then 2 ^ k else 0) + low /\
    0 <= low < 2 ^ k /\ (shr_s mrs = true <-> low <> 0) /\ 0 <= shr_m mrs.

(** [float(n)] for a Python int: the nearest binary64 (ties to even);
    [OverflowError] when [n] is too large for a finite one. *)
Definition float_of_int (n : Z) : result float :=
  match binary_normalize prec emax n 0 false with
  | S754_infinity _ => Raise OverflowError
  | f => Ok (SF2Prim f)
  end.

(** The first Python int that [float] refuses: the ints below it round to
    a finite binary64, the others to 2^1024. *)
Definition float_int_bound : Z := 2 ^ 1024 - 2 ^ 970.

(** [int(x)] for a Python float: truncation toward zero. *)
Definition int_of_float (x : float) : result Z :=
  match Prim2SF x with
  | S754_nan => Raise ValueError
  | S754_infinity _ => Raise OverflowError
  | S754_zero _ => Ok 0
  | S754_finite s m e =>
      let a := match e with
               | Z0 => Zpos m
               | Zpos p => Zpos m * 2 ^ Zpos p
               | Zneg p => Zpos m / 2 ^ Zpos p
               end in
      Ok (if s then - a else a)
  end.

(** [x * n] and [x / n] with a float on the left and an int on the right. *)
Definition float_mul_int (x : float) (n : Z) : result float :=
  f ← float_of_int n; Ok (x * f)%float.

Definition float_div_int (x : float) (n : Z) : result float :=
  if n =? 0 then Raise ZeroDivisionError
  else f ← float_of_int n; Ok (x / f)%float.

(* ================================================================== *)
(** ** transfer_cnn.py: class EarlyStopping *)

Record EarlyStopping : Type := mkEarlyStopping {
  tolerance : Z;
  min_delta : float;
  counter : Z;
  min_validation_loss : float
}.

(** [EarlyStopping.__init__] *)
Definition EarlyStopping_init (tolerance : Z) (min_delta : float) : EarlyStopping :=
  {| tolerance := tolerance;
     min_delta := min_delta;
     counter := 0;
     min_validation_loss := infinity |}.

(** [EarlyStopping.early_stop_check]: the returned flag and the object after
    the call. *)
Definition early_stop_check (self : EarlyStopping) (validation_loss : float)
  : bool * EarlyStopping :=
  if (validation_loss + min_delta self <? min_validation_loss self)%float then
    (false,
     {| tolerance := tolerance self;
        min_delta := min_delta self;
        counter := 0;
        min_validation_loss := validation_loss |})
  else if geb (validation_loss + min_delta self) (min_validation_loss self) then
    let self' := {| tolerance := tolerance self;
                    min_delta := min_delta self;
                    counter := counter self + 1;
                    min_validation_loss := min_validation_loss self |} in
    if counter self' >=? tolerance self' then (true, self') else (false, self')
  else (false, self).

(** Successive calls on one object: the flags returned, in order, and the
    object after the last call. *)
Fixpoint early_stop_calls (self : EarlyStopping) (losses : list float)
  : list bool * EarlyStopping :=
  match losses with
  | [] => ([], self)
  | v :: rest =>
      let '(b, self') := early_stop_check self v in
      let '(bs, self'') := early_stop_calls self' rest in
      (b :: bs, self'')
  end.

(** Which branch of [early_stop_check] a call takes. *)
Inductive branch : Type := Improved | NotImproved | Unordered.

Definition branch_of (self : EarlyStopping) (validation_loss : float) : branch :=
  if (validation_loss + min_delta self <? min_validation_loss self)%float then Improved
  else if geb (validation_loss + min_delta self) (min_validation_loss self) then NotImproved
  else Unordered.

Fixpoint branches (self : EarlyStopping) (losses : list float) : list branch :=
  match losses with
  | [] => []
  | v :: rest => branch_of self v :: branches (snd (early_stop_check self v)) rest
  end.

(** The transition as the specification words it: an improvement, otherwise
    a counted non-improvement. *)
Definition spec_transition (self : EarlyStopping) (v : float)
  (out : bool * EarlyStopping) : Prop :=
  tolerance (snd out) = tolerance self /\
  min_delta (snd out) = min_delta self /\
  if (v + min_delta self <? min_validation_loss self)%float then
    min_validation_loss (snd out) = v /\ counter (snd out) = 0 /\ fst out = false
  else
    min_validation_loss (snd out) = min_validation_loss self /\
    counter (snd out) = counter self + 1 /\
    (fst out = true <-> counter self + 1 >= tolerance self).

#[warnings="-inexact-float"]
Definition scenario_losses : list float := [1.0; 0.9; 0.95; 0.95; 0.95]%float.


(** A sequence in which every loss is below the one before it. *)
Fixpoint strictly_decreasing (l : list float) : bool :=
  match l with
  | a :: (b :: _) as rest => (b <? a)%float && strictly_decreasing rest
  | _ => true
  end.

(** The sentences of the specification on whole sequences of calls. *)
Definition spec_constant_stop (t : Z) (md c : float) : Prop :=
  In true (fst (early_stop_calls (EarlyStopping_init t md) (repeat c (Z.to_nat t)))).

Definition spec_decreasing_never_stops (t : Z) (md : float) (l : list float) : Prop :=
  strictly_decreasing l = true ->
  ~ In true (fst (early_stop_calls (EarlyStopping_init t md) l)).

Definition spec_loss_nonincreasing (self : EarlyStopping) (v : float) : Prop :=
  geb (min_validation_loss self)
      (min_validation_loss (snd (early_stop_check self v))) = true.

(** The number of counted non-improvements since the last improvement. *)
Fixpoint not_improved_run (acc : Z) (bs : list branch) : Z :=
  match bs with
  | [] => acc
  | Improved :: rest => not_improved_run 0 rest
  | NotImproved :: rest => not_improved_run (acc + 1) rest
  | Unordered :: rest => not_improved_run acc rest
  end.

(** The number of calls since the last improvement, counted or not. *)
Fixpoint calls_since_improved (acc : Z) (bs : list branch) : Z :=
  match bs with
  | [] => acc
  | Improved :: rest => calls_since_improved 0 rest
  | _ :: rest => calls_since_improved (acc + 1) rest
  end.

Definition spec_counter_invariant (t : Z) (md : float) (l : list float) : Prop :=
  counter (snd (early_stop_calls (EarlyStopping_init t md) l))
  = calls_since_improved 0 (branches (EarlyStopping_init t md) l).

Definition head_below_infinity (l : list float) : bool :=
  match l with
  | [] => true
  | a :: _ => (a <? infinity)%float
  end.

#[warnings="-inexact-float"]
Definition lit_0_5 : float := 0.5%float.
#[warnings="-inexact-float"]
Definition lit_0_1 : float := 0.1%float.
#[warnings="-inexact-float"]
Definition lit_0_95 : float := 0.95%float.

#[warnings="-inexact-float"]
Definition lit_0_8 : float := 0.8%float.

(* ================================================================== *)
(** ** The three scripts *)

Inductive script : Type := simple_cnn | soph_cnn | transfer_cnn.

(* ================================================================== *)
(** ** torchvision.transforms, as the scripts use them *)

Inductive transform : Type :=
  | ToTensor
  | Normalize (mean std : list float)
  | RandomHorizontalFlip
  | RandomRotation (degrees : float).

Definition is_random (t : transform) : bool :=
  match t with
  | RandomHorizontalFlip | RandomRotation _ => true
  | ToTensor | Normalize _ _ => false
  end.

(** The image kernels of torchvision, which the scripts only call. *)
Class Vision : Type := {
  Sample : Type;
  to_tensor : Sample -> Sample;
  normalize : list float -> list float -> Sample -> Sample;
  hflip : Sample -> Sample;
  rotate : float -> Sample -> Sample
}.

(** The global random generator: the uniform draws of [torch.rand] in
    [0, 1), and how many were consumed. *)
Record Generator : Type := mkGenerator {
  draws : nat -> float;
  position : nat
}.

Definition rand (g : Generator) : float * Generator :=
  (draws g (position g), mkGenerator (draws g) (S (position g))).

Section Transforms.
Context `{Vision}.

(** [forward] of one transform.  [RandomHorizontalFlip] flips when the
    draw is below [p = 0.5]; [RandomRotation d] rotates by an angle drawn
    uniformly in [-d, d]. *)
Definition apply_transform (t : transform) (g : Generator) (x : Sample)
  : Sample * Generator :=
  match t with
  | ToTensor => (to_tensor x, g)
  | Normalize mean std => (normalize mean std x, g)
  | RandomHorizontalFlip =>
      let '(u, g') := rand g in
      (if (u <? lit_0_5)%float then hflip x else x, g')
  | RandomRotation degrees =>
      let '(u, g') := rand g in
      (rotate (- degrees + (degrees - - degrees) * u)%float x, g')
  end.

(** [transforms.Compose(ts)(x)] *)
Fixpoint Compose (ts : list transform) (g : Generator) (x : Sample)
  : Sample * Generator :=
  match ts with
  | [] => (x, g)
  | t :: rest => let '(y, g') := apply_transform t g x in Compose rest g' y
  end.
End Transforms.

#[warnings="-inexact-float"]
Definition transform_train (s : script) : list transform :=
  match s with
  | simple_cnn =>
      [ToTensor;
       Normalize [0.4914; 0.4822; 0.4465]%float [0.2023; 0.1994; 0.2010]%float]
  | soph_cnn | transfer_cnn =>
      [ToTensor;
       Normalize [0.5071; 0.4867; 0.4408]%float [0.2675; 0.2565; 0.2761]%float;
       RandomHorizontalFlip;
       RandomRotation 15]
  end.

#[warnings="-inexact-float"]
Definition transform_test (s : script) : list transform :=
  match s with
  | simple_cnn =>
      [ToTensor;
       Normalize [0.4914; 0.4822; 0.4465]%float [0.2023; 0.1994; 0.2010]%float]
  | soph_cnn | transfer_cnn =>
      [ToTensor;
       Normalize [0.5071; 0.4867; 0.4408]%float [0.2675; 0.2565; 0.2761]%float]
  end.

(* ================================================================== *)
(** ** Datasets and the 80/20 split *)

(** A [torchvision.datasets.CIFAR100] object: the transform it applies in
    [__getitem__] and its number of samples. *)
Record Dataset : Type := mkDataset {
  ds_root : string;
  ds_train : bool;
  ds_transform : list transform;
  ds_len : Z
}.

(** [CIFAR100(root, train, download, transform)]; [disk] gives the number of
    samples of the training and of the test partition of the data files. *)
Definition CIFAR100 (disk : bool -> Z) (root : string) (train download : bool)
  (transform : list transform) : Dataset :=
  mkDataset root train transform (disk train).

(** [torch.utils.data.Subset]: [subset[i]] is [dataset[indices[i]]], so a
    sample of a subset goes through the transform of [dataset]. *)
Record Subset : Type := mkSubset {
  dataset : Dataset;
  indices : list Z
}.

Definition Subset_transform (s : Subset) : list transform :=
  ds_transform (dataset s).

(** [l[start:stop]] *)
Definition py_slice {A : Type} (l : list A) (start stop : Z) : list A :=
  let len := Z.of_nat (length l) in
  let clamp i := if i <? 0 then Z.max (i + len) 0 else Z.min i len in
  firstn (Z.to_nat (clamp stop - clamp start)) (skipn (Z.to_nat (clamp start)) l).

Definition sumZ (l : list Z) : Z := fold_right Z.add 0 l.

Fixpoint accumulate (total : Z) (lengths : list Z) : list Z :=
  match lengths with
  | [] => []
  | x :: rest => (total + x) :: accumulate (total + x) rest
  end.

(** [torch.utils.data.random_split(dataset, lengths)] with integer lengths;
    [randperm n] is the permutation of [0 .. n-1] the generator draws. *)
Definition random_split (randperm : Z -> list Z) (ds : Dataset) (lengths : list Z)
  : result (list Subset) :=
  if sumZ lengths =? ds_len ds then
    let perm := randperm (sumZ lengths) in
    Ok (zip_with (fun offset length => mkSubset ds (py_slice perm (offset - length) offset))
          (accumulate 0 lengths) lengths)
  else Raise ValueError.

(** [train_size = int(0.8 * len(trainset))] *)
Definition train_size_of (n : Z) : result Z :=
  x ← float_mul_int lit_0_8 n; int_of_float x.

(** The data-loading part of [main], the same in the three scripts but for
    the transforms: the two subsets of the split and the test set. *)
Definition main_datasets (s : script) (disk : bool -> Z) (randperm : Z -> list Z)
  : result (Subset * Subset * Dataset) :=
  let trainset := CIFAR100 disk "./data" true true (transform_train s) in
  train_size ← train_size_of (ds_len trainset);
  let val_size := ds_len trainset - train_size in
  subsets ← random_split randperm trainset [train_size; val_size];
  let testset := CIFAR100 disk "./data" false true (transform_test s) in
  match subsets with
  | [trainset'; valset] => Ok (trainset', valset, testset)
  | _ => Raise ValueError
  end.

(* ================================================================== *)
(** ** Models, loaders and the two loops *)

(** What the scripts call in torch.

    [forward p training device x] is the call [model(x)] of a model whose
    parameters and buffers are [p], in training or in evaluation mode, on
    inputs held on [device]: it gives the outputs and the parameters and
    buffers the call leaves (a batch normalisation updates its running
    statistics in training mode), or it raises (a shape that a layer
    refuses, inputs on another device than the model).  [argmax] is
    [torch.max(outputs.data, 1)], the predicted class of each sample.
    [backward_step] is the update of one training batch ([zero_grad],
    [loss.backward()], [optimizer.step()]).  [state_dict] and
    [load_state_dict] are those of the model; a [StateDict] is anything a
    checkpoint file can hold, so loading can be refused.
    [device_available] tells which devices the machine has. *)
Class Torch : Type := {
  Params : Type;
  StateDict : Type;
  Inputs : Type;
  Outputs : Type;
  Optim : Type;
  device_available : string -> bool;
  forward : Params -> bool -> string -> Inputs -> result (Outputs * Params);
  argmax : Outputs -> result (list Z);
  backward_step : Params -> Optim -> Inputs -> list Z -> result (Params * Optim);
  scheduler_step : Optim -> Optim;
  current_lr : Optim -> float;
  state_dict : Params -> StateDict;
  load_state_dict : Params -> StateDict -> result Params
}.

(** The scalar in which a loop accumulates the loss: the Python float of
    [loss.item()] in [soph_cnn.py] and [transfer_cnn.py], the float32 tensor
    [loss] itself in [simple_cnn.py]. *)
Class LossScalar (T : Type) : Type := {
  loss_zero : T;
  loss_add : T -> T -> T;
  loss_div_int : T -> Z -> result T
}.

#[global] Instance item_loss : LossScalar float := {|
  loss_zero := 0%float;
  loss_add := PrimFloat.add;
  loss_div_int := float_div_int
|}.

(** A zero divisor is only met after an empty loop, when [running_loss] is
    still the Python float [0.0]. *)
#[global] Instance tensor_loss : LossScalar spec_float := {|
  loss_zero := S754_zero false;
  loss_add := SFadd 24 128;
  loss_div_int := fun x n =>
    if n =? 0 then Raise ZeroDivisionError
    else Ok (SFdiv 24 128 x (binary_normalize 24 128 n 0 false))
|}.

(** The number of positions at which two tensors of the same length agree. *)
Fixpoint eq_pairs (predicted labels : list Z) : Z :=
  match predicted, labels with
  | p :: ps, l :: ls => (if p =? l then 1 else 0) + eq_pairs ps ls
  | _, _ => 0
  end.

(** The number of entries of [l] equal to [x]. *)
Definition count_eq (x : Z) (l : list Z) : Z :=
  sumZ (map (fun y => if y =? x then 1 else 0) l).

(** [predicted.eq(labels).sum().item()] on one-dimensional tensors: [eq]
    compares position by position; a tensor of one element is broadcast
    over the other one; any other pair of lengths is refused. *)
Definition eq_sum (predicted labels : list Z) : result Z :=
  match predicted, labels with
  | [p], _ => Ok (count_eq p labels)
  | _, [l] => Ok (count_eq l predicted)
  | _, _ =>
      if Z.of_nat (length predicted) =? Z.of_nat (length labels)
      then Ok (eq_pairs predicted labels)
      else Raise RuntimeError
  end.

(** [labels.size(0)] *)
Definition size0 (labels : list Z) : Z := Z.of_nat (length labels).

Record Config : Type := mkConfig {
  model_name : string;
  batch_size : Z;
  learning_rate : float;
  epochs : Z;
  num_workers : Z;
  device : string;
  data_dir : string;
  ood_dir : string;
  wandb_project : string;
  seed : Z
}.

(** The [CONFIG] dictionary of each script; [device] is what the probing of
    mps and cuda selects. *)
#[warnings="-inexact-float"]
Definition CONFIG (s : script) (device : string) : Config :=
  match s with
  | simple_cnn =>
      mkConfig "MyModel" 512 0.1 5 4 device
        "./data" "./data/ood-test" "sp25-ds542-challenge" 42
  | soph_cnn =>
      mkConfig "ResNet - SophCNN" 512 0.2 5 4 device
        "./data" "./data/ood-test" "sp25-ds542-challenge" 42
  | transfer_cnn =>
      mkConfig "DenseNet - Transfer" 512 0.001 50 4 device
        "./data" "./data/ood-test" "sp25-ds542-challenge" 42
  end.

Section Loops.
Context `{Torch} {T : Type} `{LossScalar T}.

(** A model: its parameters and buffers, and the mode that [model.train()]
    and [model.eval()] set. *)
Record Model : Type := mkModel {
  parameters : Params;
  training : bool
}.

(** A batch of a loader: the inputs and the class of each sample. *)
Definition Batch : Type := Inputs * list Z.

(** [x.to(device)]: the same values, or [RuntimeError] when the machine
    does not have the device. *)
Definition tensor_to {A : Type} (x : A) (device : string) : result A :=
  if device_available device then Ok x else Raise RuntimeError.

(** [model(inputs)]: the outputs, and the model as the call leaves it. *)
Definition call (model : Model) (device : string) (inputs : Inputs)
  : result (Outputs * Model) :=
  '(outputs, params) ← forward (parameters model) (training model) device inputs;
  Ok (outputs, mkModel params (training model)).

(** The value of the progress-bar postfix is dropped, but computing it
    can raise. *)
Definition set_postfix (running_loss : T) (i correct total : Z) : result unit :=
  _ ← loss_div_int running_loss (i + 1);
  x ← float_mul_int 100 correct;
  _ ← float_div_int x total;
  Ok tt.

(** The body of [validate]'s loop, from batch number [i] on.  [criterion]
    gives the loss as the loop adds it to [running_loss] ([loss.item()], or
    the tensor [loss] in simple_cnn.py), or raises. *)
Fixpoint validate_loop (model : Model) (criterion : Outputs -> list Z -> result T)
  (device : string) (batches : list Batch) (i : Z) (running_loss : T)
  (correct total : Z) : result (Model * (T * Z * Z)) :=
  match batches with
  | [] => Ok (model, (running_loss, correct, total))
  | (inputs, labels) :: rest =>
      inputs ← tensor_to inputs device;
      labels ← tensor_to labels device;
      '(outputs, model) ← call model device inputs;
      loss ← criterion outputs labels;
      let running_loss := loss_add running_loss loss in
      predicted ← argmax outputs;
      let total := total + size0 labels in
      n ← eq_sum predicted labels;
      let correct := correct + n in
      _ ← set_postfix running_loss i correct total;
      validate_loop model criterion device rest (i + 1) running_loss correct total
  end.

(** [validate(model, valloader, criterion, device)]: the model after the
    call and the returned pair, or the exception raised. *)
Definition validate (model : Model) (valloader : list Batch)
  (criterion : Outputs -> list Z -> result T) (device : string)
  : result (Model * (T * float)) :=
  let model := mkModel (parameters model) false in
  '(model, (running_loss, correct, total)) ←
     validate_loop model criterion device valloader 0 loss_zero 0 0;
  val_loss ← loss_div_int running_loss (Z.of_nat (length valloader));
  x ← float_mul_int 100 correct;
  val_acc ← float_div_int x total;
  Ok (model, (val_loss, val_acc)).

(** The body of [train]'s loop: the parameters and the optimizer are
    updated after every batch. *)
Fixpoint train_loop (model : Model) (optimizer : Optim)
  (criterion : Outputs -> list Z -> result T) (device : string)
  (batches : list Batch) (i : Z) (running_loss : T) (correct total : Z)
  : result (Model * Optim * (T * Z * Z)) :=
  match batches with
  | [] => Ok (model, optimizer, (running_loss, correct, total))
  | (inputs, labels) :: rest =>
      inputs ← tensor_to inputs device;
      labels ← tensor_to labels device;
      '(outputs, model) ← call model device inputs;
      loss ← criterion outputs labels;
      '(params, optimizer) ← backward_step (parameters model) optimizer inputs labels;
      let model := mkModel params (training model) in
      let running_loss := loss_add running_loss loss in
      predicted ← argmax outputs;
      let total := total + size0 labels in
      n ← eq_sum predicted labels;
      let correct := correct + n in
      _ ← set_postfix running_loss i correct total;
      train_loop model optimizer criterion device rest (i + 1) running_loss correct total
  end.

(** [train(epoch, model, trainloader, optimizer, criterion, CONFIG)] *)
Definition train (epoch : Z) (model : Model) (trainloader : list Batch)
  (optimizer : Optim) (criterion : Outputs -> list Z -> result T) (config : Config)
  : result (Model * Optim * (T * float)) :=
  let device := device config in
  let model := mkModel (parameters model) true in
  '(model, optimizer, (running_loss, correct, total)) ←
     train_loop model optimizer criterion device trainloader 0 loss_zero 0 0;
  train_loss ← loss_div_int running_loss (Z.of_nat (length trainloader));
  x ← float_mul_int 100 correct;
  train_acc ← float_div_int x total;
  Ok (model, optimizer, (train_loss, train_acc)).

(** What a run does to the outside: the metrics logged and the files
    saved, in order. *)
Inductive event : Type :=
  | WandbLog (epoch : Z) (train_loss : T) (train_acc : float)
             (val_loss : T) (val_acc : float) (lr : float)
  | TorchSave (path : string)
  | WandbSave (path : string).

(** The state of [main] during the training loop; [files] maps the path of
    a file to the [state_dict] saved in it. *)
Record RunState : Type := mkRunState {
  model : Model;
  optimizer : Optim;
  best_val_acc : float;
  files : gmap string StateDict;
  events : list event
}.

(** [torch.save(model.state_dict(), path)] followed by [wandb.save(path)] *)
Definition save_checkpoint (path : string) (st : RunState) : RunState :=
  mkRunState (model st) (optimizer st) (best_val_acc st)
    (<[path := state_dict (parameters (model st))]> (files st))
    (events st ++ [TorchSave path; WandbSave path]).

(** simple_cnn.py and soph_cnn.py: "Save the best model (based on
    validation accuracy)". *)
Definition save_best_model (val_acc : float) (st : RunState) : RunState :=
  if (best_val_acc st <? val_acc)%float then
    save_checkpoint "best_model.pth"
      (mkRunState (model st) (optimizer st) val_acc (files st) (events st))
  else st.

(** The part of an epoch before the checkpoint: [train], [validate],
    [scheduler.step()], [wandb.log]; returns the validation metrics. *)
Definition run_epoch (config : Config) (criterion : Outputs -> list Z -> result T)
  (trainloader valloader : Z -> list Batch) (st : RunState) (epoch : Z)
  : result (RunState * (T * float)) :=
  '(model1, optimizer1, (train_loss, train_acc)) ←
     train epoch (model st) (trainloader epoch) (optimizer st) criterion config;
  '(model2, (val_loss, val_acc)) ←
     validate model1 (valloader epoch) criterion (device config);
  let optimizer2 := scheduler_step optimizer1 in
  Ok (mkRunState model2 optimizer2 (best_val_acc st) (files st)
        (events st ++ [WandbLog (epoch + 1) train_loss train_acc val_loss val_acc
                         (current_lr optimizer2)]),
      (val_loss, val_acc)).

(** One iteration of the training loop of simple_cnn.py and soph_cnn.py. *)
Definition epoch_step (config : Config) (criterion : Outputs -> list Z -> result T)
  (trainloader valloader : Z -> list Batch) (st : RunState) (epoch : Z)
  : result RunState :=
  '(st1, (val_loss, val_acc)) ← run_epoch config criterion trainloader valloader st epoch;
  Ok (save_best_model val_acc st1).

(** [for epoch in ...: ...] over the given epochs. *)
Fixpoint training_loop (config : Config) (criterion : Outputs -> list Z -> result T)
  (trainloader valloader : Z -> list Batch) (st : RunState) (epoch_list : list Z)
  : result RunState :=
  match epoch_list with
  | [] => Ok st
  | epoch :: rest =>
      st' ← epoch_step config criterion trainloader valloader st epoch;
      training_loop config criterion trainloader valloader st' rest
  end.

(** [range(n)] *)
Definition range (n : Z) : list Z := seqZ 0 n.

(** The state in which [main] enters the loop: [best_val_acc = 0.0];
    [files0] is what the working directory holds when the run starts. *)
Definition initial_state (model0 : Model) (optimizer0 : Optim)
  (files0 : gmap string StateDict) : RunState :=
  mkRunState model0 optimizer0 0%float files0 [].

(** [torch.load(path)] *)
Definition torch_load (fs : gmap string StateDict) (path : string) : result StateDict :=
  match fs !! path with
  | Some state_dict => Ok state_dict
  | None => Raise FileNotFoundError
  end.

(** eval_cifar100.py: the loop of [evaluate_cifar100_test]. *)
Fixpoint evaluate_loop (model : Model) (device : string) (batches : list Batch)
  (predictions : list Z) (correct total : Z) : result (Model * (list Z * Z * Z)) :=
  match batches with
  | [] => Ok (model, (predictions, correct, total))
  | (inputs, labels) :: rest =>
      inputs ← tensor_to inputs device;
      '(outputs, model) ← call model device inputs;
      predicted ← argmax outputs;
      let predictions := predictions ++ predicted in
      let total := total + size0 labels in
      labels ← tensor_to labels device;
      n ← eq_sum predicted labels;
      let correct := correct + n in
      evaluate_loop model device rest predictions correct total
  end.

(** eval_cifar100.py: [evaluate_cifar100_test(model, testloader, device)],
    reading the files [fs]. *)
Definition evaluate_cifar100_test (fs : gmap string StateDict) (model : Model)
  (testloader : list Batch) (device : string)
  : result (Model * (list Z * float)) :=
  checkpoint ← torch_load fs "best_model.pth";
  params ← load_state_dict (parameters model) checkpoint;
  let model := mkModel params false in
  '(model, (predictions, correct, total)) ←
     evaluate_loop model device testloader [] 0 0;
  x ← float_mul_int 100 correct;
  clean_accuracy ← float_div_int x total;
  Ok (model, (predictions, clean_accuracy)).

(** [main] of simple_cnn.py and soph_cnn.py, from the training loop to the
    evaluation on the clean test set. *)
Definition main_train_and_evaluate (s : script) (dev : string)
  (criterion : Outputs -> list Z -> result T)
  (trainloader valloader : Z -> list Batch) (testloader : list Batch)
  (model0 : Model) (optimizer0 : Optim) (files0 : gmap string StateDict)
  : result (RunState * (list Z * float)) :=
  let config := CONFIG s dev in
  st ← training_loop config criterion trainloader valloader
         (initial_state model0 optimizer0 files0) (range (epochs config));
  '(_, out) ← evaluate_cifar100_test (files st) (model st) testloader (device config);
  Ok (st, out).

(** transfer_cnn.py: [early_stopping = EarlyStopping(tolerance=5, min_delta=0.0)] *)
Definition main_early_stopping : EarlyStopping := EarlyStopping_init 5 0.

(** The validation accuracies a run has logged, one per epoch. *)
Definition logged_val_acc (evs : list event) : list float :=
  omap (fun ev => match ev with
                  | WandbLog _ _ _ _ val_acc _ => Some val_acc
                  | _ => None
                  end) evs.

Definition is_save (ev : event) : bool :=
  match ev with TorchSave _ => true | _ => false end.
End Loops.

(** The training loop of transfer_cnn.py: the checkpoint is saved in every
    epoch, and the loop breaks when [early_stop_check] returns [True] on the
    validation loss.  The script keeps no [best_val_acc]: that field stays
    as it is. *)
Section TransferLoop.
Context `{Torch}.

(** One iteration; the flag tells whether the loop breaks after it. *)
Definition transfer_epoch_step (config : Config)
  (criterion : Outputs -> list Z -> result float)
  (trainloader valloader : Z -> list Batch)
  (st : RunState (T:=float)) (early_stopping : EarlyStopping) (epoch : Z)
  : result (RunState (T:=float) * EarlyStopping * bool) :=
  '(st1, (val_loss, val_acc)) ← run_epoch config criterion trainloader valloader st epoch;
  let st2 := save_checkpoint "best_model.pth" st1 in
  let '(stop, early_stopping') := early_stop_check early_stopping val_loss in
  Ok (st2, early_stopping', stop).

Fixpoint transfer_training_loop (config : Config)
  (criterion : Outputs -> list Z -> result float)
  (trainloader valloader : Z -> list Batch)
  (st : RunState (T:=float)) (early_stopping : EarlyStopping) (epoch_list : list Z)
  : result (RunState (T:=float) * EarlyStopping) :=
  match epoch_list with
  | [] => Ok (st, early_stopping)
  | epoch :: rest =>
      '(st', early_stopping', stop) ←
         transfer_epoch_step config criterion trainloader valloader
           st early_stopping epoch;
      if stop : bool then Ok (st', early_stopping')
      else transfer_training_loop config criterion trainloader valloader
             st' early_stopping' rest
  end.
End TransferLoop.

(** [f] on every element of a list, in order, up to the first exception. *)
Fixpoint collect {A B : Type} (f : A -> result B) (l : list A) : result (list B) :=
  match l with
  | [] => Ok []
  | a :: rest => b ← f a; bs ← collect f rest; Ok (b :: bs)
  end.

(** Closed forms of what a loop over a loader accumulates, for a model that
    stays as it is. *)
Section Accumulated.
Context `{Torch} {T : Type} `{LossScalar T}.

(** The outputs of the model on the inputs of a batch. *)
Definition batch_outputs (model : Model) (device : string) (b : Batch) : result Outputs :=
  inputs ← tensor_to (fst b) device;
  '(outputs, _) ← call model device inputs;
  Ok outputs.

Definition batch_loss (model : Model) (criterion : Outputs -> list Z -> result T)
  (device : string) (b : Batch) : result T :=
  outputs ← batch_outputs model device b;
  criterion outputs (snd b).

Definition batch_predicted (model : Model) (device : string) (b : Batch)
  : result (list Z) :=
  outputs ← batch_outputs model device b;
  argmax outputs.

Definition batch_correct (model : Model) (device : string) (b : Batch) : result Z :=
  predicted ← batch_predicted model device b;
  eq_sum predicted (snd b).

Definition sum_losses (model : Model) (criterion : Outputs -> list Z -> result T)
  (device : string) (loader : list Batch) : result T :=
  losses ← collect (batch_loss model criterion device) loader;
  Ok (fold_left loss_add losses loss_zero).

Definition correct_count (model : Model) (device : string) (loader : list Batch)
  : result Z :=
  counts ← collect (batch_correct model device) loader;
  Ok (sumZ counts).

Definition total_count (loader : list Batch) : Z :=
  sumZ (map (fun b : Batch => size0 (snd b)) loader).

(** The predictions of a model over a loader, batch after batch. *)
Definition all_predictions (model : Model) (device : string) (loader : list Batch)
  : result (list Z) :=
  predicted ← collect (batch_predicted model device) loader;
  Ok (concat predicted).

(** "mean loss over batches" and "100 * correct / total". *)
Definition mean_loss (model : Model) (criterion : Outputs -> list Z -> result T)
  (device : string) (loader : list Batch) : result T :=
  s ← sum_losses model criterion device loader;
  loss_div_int s (Z.of_nat (length loader)).

Definition accuracy_percentage (model : Model) (device : string) (loader : list Batch)
  : result float :=
  correct ← correct_count model device loader;
  x ← float_mul_int 100 correct;
  float_div_int x (total_count loader).

(** A forward pass in evaluation mode that leaves the parameters and
    buffers of the model as they are, as the layers of torch do. *)
Definition eval_forward_pure (params : Params) (device : string) : Prop :=
  forall (inputs : Inputs) (outputs : Outputs) (params' : Params),
    forward params false device inputs = Ok (outputs, params') -> params' = params.

(** The sentence of the specification on [validate]: whatever the model,
    the loader, the criterion and the device, it returns the mean loss and
    the accuracy, and the parameters are those before the call. *)
Definition spec_validate_returns (model : Model) (valloader : list Batch)
  (criterion : Outputs -> list Z -> result T) (device : string) : Prop :=
  exists (model' : Model) (val_loss : T) (val_acc : float),
    validate model valloader criterion device = Ok (model', (val_loss, val_acc)) /\
    parameters model' = parameters model /\
    mean_loss model' criterion device valloader = Ok val_loss /\
    accuracy_percentage model' device valloader = Ok val_acc.

(** The sentence of the specification on a run whose validation accuracy
    is 0.0 in every epoch. *)
Definition spec_zero_accuracy_load_fails (config : Config)
  (criterion : Outputs -> list Z -> result T)
  (trainloader valloader : Z -> list Batch) (testloader : list Batch)
  (model0 : Model) (optimizer0 : Optim) (files0 : gmap string StateDict) : Prop :=
  forall st,
    training_loop config criterion trainloader valloader
      (initial_state model0 optimizer0 files0) (range (epochs config)) = Ok st ->
    Forall (fun v => (v =? 0)%float = true) (logged_val_acc (events st)) ->
    is_ok (evaluate_cifar100_test (files st) (model st) testloader (device config))
    = false.
End Accumulated.

(* ================================================================== *)
(** ** Small instances, for running the definitions *)

(** Images of one row of pixels: flipping reverses the row; the other
    kernels leave it as it is. *)
Definition row_vision : Vision := {|
  Sample := list Z;
  to_tensor := fun x => x;
  normalize := fun _ _ x => x;
  hflip := @rev Z;
  rotate := fun _ x => x
|}.

Definition draws_of (l : list float) : Generator :=
  mkGenerator (fun i => nth i l 0%float) 0.

(** A model with one integer weight [w] that predicts class [x + w] for the
    input [x]; every training batch adds one to [w].  The machine has the
    cpu only, and a checkpoint fits the model when it holds one weight. *)
#[warnings="-inexact-float"]
Definition counting_torch : Torch := {|
  Params := Z;
  StateDict := list Z;
  Inputs := list Z;
  Outputs := list Z;
  Optim := unit;
  device_available := fun device => String.eqb device "cpu";
  forward := fun w _ _ xs => Ok (map (Z.add w) xs, w);
  argmax := fun out => Ok out;
  backward_step := fun w o _ _ => Ok (w + 1, o);
  scheduler_step := fun o => o;
  current_lr := fun _ => 0.1%float;
  state_dict := fun w => [w];
  load_state_dict := fun _ checkpoint =>
    match checkpoint with
    | [w] => Ok w
    | _ => Raise RuntimeError
    end
|}.

Definition unit_criterion : list Z -> list Z -> result float := fun _ _ => Ok 1%float.

(** One batch with the single input 0, labelled [label]. *)
Definition one_batch (label : Z) : list (list Z * list Z) := [([0], [label])].

(** Runs of the training loop of simple_cnn.py on [counting_torch], with
    one-sample loaders labelled [label]; the state they end in. *)
Definition counting_run (label : Z) (files0 : gmap string (list Z)) (epoch_list : list Z)
  : result (RunState (H:=counting_torch) (T:=float)) :=
  training_loop (H:=counting_torch) (CONFIG simple_cnn "cpu") unit_criterion
    (fun _ => one_batch label) (fun _ => one_batch label)
    (initial_state (H:=counting_torch) (mkModel (H:=counting_torch) 0 true) tt files0)
    epoch_list.

Definition final_state (r : result (RunState (H:=counting_torch) (T:=float)))
  : RunState (H:=counting_torch) (T:=float) :=
  match r with
  | Ok st => st
  | Raise _ => initial_state (H:=counting_torch) (mkModel (H:=counting_torch) 0 true) tt ∅
  end.

(** No prediction is ever right: five epochs with accuracy 0.0. *)
Definition zero_accuracy_final : RunState (H:=counting_torch) (T:=float) :=
  Eval vm_compute in final_state (counting_run 99 ∅ (seqZ 0 5)).

(** The same run started in a directory that holds an older checkpoint. *)
Definition stale_files : gmap string (list Z) := {["best_model.pth" := [7]]}.

(** The first two epochs of the run with the label 2: after the first the
    accuracy is 0.0 and nothing was saved; the second predicts the label
    (accuracy 100.0) and saves the checkpoint. *)
Definition after_first_epoch : RunState (H:=counting_torch) (T:=float) :=
  Eval vm_compute in final_state (counting_run 2 ∅ [0]).

Definition after_second_epoch : RunState (H:=counting_torch) (T:=float) :=
  Eval vm_compute in final_state (counting_run 2 ∅ [0; 1]).

(* ================================================================== *)
(** ** The trace of a training loop *)

Section Traces.
Context `{Torch} {T : Type} `{LossScalar T}.



(** What one epoch of simple_cnn.py or soph_cnn.py adds to the trace: its
    [wandb.log], then the two saves when the checkpoint is written. *)
Definition epoch_trace (log : event (T:=T)) (saved : bool) : list (event (T:=T)) :=
  log :: (if saved then [TorchSave "best_model.pth"; WandbSave "best_model.pth"]
          else []).

Definition is_log_of (epoch : Z) (ev : event (T:=T)) : Prop :=
  match ev with
  | WandbLog e _ _ _ _ _ => e = epoch + 1
  | _ => False
  end.

End Traces.

(** [main] of transfer_cnn.py, from the training loop to the evaluation on
    the clean test set. *)
Definition transfer_main_train_and_evaluate `{Torch} (dev : string)
  (criterion : Outputs -> list Z -> result float)
  (trainloader valloader : Z -> list Batch) (testloader : list Batch)
  (model0 : Model) (optimizer0 : Optim) (files0 : gmap string StateDict)
  : result (RunState (T:=float) * EarlyStopping * (list Z * float)) :=
  let config := CONFIG transfer_cnn dev in
  '(st, early_stopping) ←
     transfer_training_loop config criterion trainloader valloader
       (initial_state model0 optimizer0 files0) main_early_stopping
       (range (epochs config));
  '(_, out) ← evaluate_cifar100_test (files st) (model st) testloader (device config);
  Ok (st, early_stopping, out).

(* ================================================================== *)
(** ** torch.utils.data.DataLoader: the batches of indices *)

(** The loop of [BatchSampler.__iter__] with [drop_last=False]: indices are
    collected until the batch is full; what is left at the end is yielded
    when it is not empty. *)
Fixpoint batch_sampler_loop (batch_size : Z) (sampler : list Z) (batch : list Z)
  : list (list Z) :=
  match sampler with
  | [] => if 0 <? Z.of_nat (length batch) then [batch] else []
  | idx :: rest =>
      let batch := batch ++ [idx] in
      if Z.of_nat (length batch) =? batch_size
      then batch :: batch_sampler_loop batch_size rest []
      else batch_sampler_loop batch_size rest batch
  end.

(** The batches of a [DataLoader(dataset, batch_size=...)] over the order
    [sampler] of its indices ([range(len(dataset))], or a permutation of it
    when [shuffle=True]); a [batch_size] that is not positive is refused. *)
Definition DataLoader_batches (batch_size : Z) (sampler : list Z)
  : result (list (list Z)) :=
  if batch_size <=? 0 then Raise ValueError
  else Ok (batch_sampler_loop batch_size sampler []).

(* ================================================================== *)
(** ** simple_cnn.py: class SimpleCNN, the shapes of its tensors *)

Record Conv2d : Type := mkConv2d {
  in_channels : Z;
  out_channels : Z;
  kernel_size : Z;
  stride : Z;
  padding : Z
}.

Record MaxPool2d : Type := mkMaxPool2d {
  pool_kernel_size : Z;
  pool_stride : Z
}.

Record Linear : Type := mkLinear {
  in_features : Z;
  out_features : Z
}.

Record SimpleCNN : Type := mkSimpleCNN {
  conv1_1 : Conv2d;
  conv1_2 : Conv2d;
  pool1 : MaxPool2d;
  conv2_1 : Conv2d;
  conv2_2 : Conv2d;
  pool2 : MaxPool2d;
  fc1 : Linear;
  bn : Z;
  dropout1 : float;
  fc2 : Linear
}.

(** [SimpleCNN.__init__] *)
#[warnings="-inexact-float"]
Definition SimpleCNN_init : SimpleCNN := {|
  conv1_1 := mkConv2d 3 128 3 1 1;
  conv1_2 := mkConv2d 128 128 3 1 1;
  pool1 := mkMaxPool2d 2 2;
  conv2_1 := mkConv2d 128 256 3 1 1;
  conv2_2 := mkConv2d 256 256 3 1 1;
  pool2 := mkMaxPool2d 2 2;
  fc1 := mkLinear (256 * 8 * 8) 512;
  bn := 512;
  dropout1 := 0.2;
  fc2 := mkLinear 512 100
|}.

(** A batch of images [(N, C, H, W)] and a batch of vectors [(N, F)]. *)
Definition shape4 : Type := Z * Z * Z * Z.
Definition shape2 : Type := Z * Z.

(** The output size of a convolution along one axis (dilation 1). *)
Definition conv_size (l : Conv2d) (size : Z) : Z :=
  (size + 2 * padding l - kernel_size l) / stride l + 1.

(** [nn.Conv2d]: the channels must be those the layer was built for, and
    the padded image at least as large as the kernel. *)
Definition Conv2d_forward (l : Conv2d) (x : shape4) : result shape4 :=
  let '(n, c, h, w) := x in
  if negb (c =? in_channels l) then Raise RuntimeError
  else if (h + 2 * padding l <? kernel_size l) || (w + 2 * padding l <? kernel_size l)
  then Raise RuntimeError
  else Ok (n, out_channels l, conv_size l h, conv_size l w).

(** The output size of a pooling along one axis (no padding, floor mode). *)
Definition pool_size (l : MaxPool2d) (size : Z) : Z :=
  (size - pool_kernel_size l) / pool_stride l + 1.

(** [nn.MaxPool2d]: an output without pixels is refused. *)
Definition MaxPool2d_forward (l : MaxPool2d) (x : shape4) : result shape4 :=
  let '(n, c, h, w) := x in
  if (pool_size l h <=? 0) || (pool_size l w <=? 0) then Raise RuntimeError
  else Ok (n, c, pool_size l h, pool_size l w).

(** [nn.Flatten()]: all axes but the first are merged. *)
Definition Flatten_forward (x : shape4) : shape2 :=
  let '(n, c, h, w) := x in (n, c * h * w).

(** [nn.Linear]: the last axis must have [in_features] entries. *)
Definition Linear_forward (l : Linear) (x : shape2) : result shape2 :=
  let '(n, f) := x in
  if f =? in_features l then Ok (n, out_features l) else Raise RuntimeError.

(** [nn.BatchNorm1d]: in training mode a batch of a single vector is refused
    ("Expected more than 1 value per channel when training"), before the
    number of features is compared. *)
Definition BatchNorm1d_forward (num_features : Z) (training : bool) (x : shape2)
  : result shape2 :=
  let '(n, f) := x in
  if training && (n =? 1) then Raise ValueError
  else if f =? num_features then Ok (n, f) else Raise RuntimeError.

(** [F.relu] and [nn.Dropout] keep the shape. *)
Definition relu {A : Type} (x : A) : A := x.
Definition Dropout_forward {A : Type} (p : float) (training : bool) (x : A) : A := x.

(** [SimpleCNN.forward], on shapes. *)
Definition SimpleCNN_forward (self : SimpleCNN) (training : bool) (x : shape4)
  : result shape2 :=
  x ← Conv2d_forward (conv1_1 self) x;
  let x := relu x in
  x ← Conv2d_forward (conv1_2 self) x;
  let x := relu x in
  x ← MaxPool2d_forward (pool1 self) x;
  x ← Conv2d_forward (conv2_1 self) x;
  let x := relu x in
  x ← Conv2d_forward (conv2_2 self) x;
  let x := relu x in
  x ← MaxPool2d_forward (pool2 self) x;
  let x := Flatten_forward x in
  x ← Linear_forward (fc1 self) x;
  let x := relu x in
  x ← BatchNorm1d_forward (bn self) training x;
  let x := Dropout_forward (dropout1 self) training x in
  Linear_forward (fc2 self) x.

(* ================================================================== *)
(** ** Loaders on which the loops divide by zero *)

(** A loader without a batch, or whose first batch has no sample. *)
Definition starts_empty {Inputs : Type} (loader : list (Inputs * list Z)) : bool :=
  match loader with
  | [] => true
  | (_, []) :: _ => true
  | (_, _ :: _) :: _ => false
  end.

(** The parameters and the optimizer that [train] leads to: for each batch,
    in the order of the loader, the forward pass in training mode and then
    the update ([zero_grad], [backward], [optimizer.step()]). *)
Fixpoint train_updates `{Torch} (params : Params) (optimizer : Optim)
  (device : string) (loader : list Batch) : result (Params * Optim) :=
  match loader with
  | [] => Ok (params, optimizer)
  | (inputs, labels) :: rest =>
      '(_, params) ← forward params true device inputs;
      '(params, optimizer) ← backward_step params optimizer inputs labels;
      train_updates params optimizer device rest
  end.

(** A loader on whose batches the model gives one prediction per label. *)
Definition predictions_match_labels `{Torch} (model : Model) (device : string)
  (loader : list Batch) : Prop :=
  Forall (fun b : Batch =>
            forall predicted : list Z,
              batch_predicted model device b = Ok predicted ->
              length predicted = length (snd b)) loader.

(** The number of random draws one sample costs. *)
Definition draws_needed (ts : list transform) : nat :=
  length (List.filter is_random ts).

(* ================================================================== *)
(** ** A run of transfer_cnn.py on the counting model *)

(** The loop of transfer_cnn.py with a patience of two epochs: the loss is
    1.0 in every epoch. *)
Definition transfer_run
  : result (RunState (H:=counting_torch) (T:=float) * EarlyStopping) :=
  transfer_training_loop (H:=counting_torch) (CONFIG transfer_cnn "cpu") unit_criterion
    (fun _ => one_batch 1) (fun _ => one_batch 1)
    (initial_state (H:=counting_torch) (mkModel (H:=counting_torch) 0 true) tt ∅)
    (EarlyStopping_init 2 0) (seqZ 0 5).

Definition transfer_final
  : RunState (H:=counting_torch) (T:=float) * EarlyStopping :=
  Eval vm_compute in
    match transfer_run with
    | Ok r => r
    | Raise _ =>
        (initial_state (H:=counting_torch) (mkModel (H:=counting_torch) 0 true) tt ∅,
         EarlyStopping_init 2 0)
    end.

(** The five epochs of simple_cnn.py with the label 2: the second epoch
    predicts it (accuracy 100.0), the others do not (accuracy 0.0). *)
Definition second_epoch_best_final : RunState (H:=counting_torch) (T:=float) :=
  Eval vm_compute in final_state (counting_run 2 ∅ (seqZ 0 5)).

(** The loop of transfer_cnn.py as [main] runs it: 50 epochs at most, and
    the early stopping of the script. *)
Definition transfer_main_run
  : result (RunState (H:=counting_torch) (T:=float) * EarlyStopping) :=
  transfer_training_loop (H:=counting_torch) (CONFIG transfer_cnn "cpu") unit_criterion
    (fun _ => one_batch 1) (fun _ => one_batch 1)
    (initial_state (H:=counting_torch) (mkModel (H:=counting_torch) 0 true) tt ∅)
    main_early_stopping (range (epochs (CONFIG transfer_cnn "cpu"))).

Definition transfer_main_final
  : RunState (H:=counting_torch) (T:=float) * EarlyStopping :=
  Eval vm_compute in
    match transfer_main_run with
    | Ok r => r
    | Raise _ =>
        (initial_state (H:=counting_torch) (mkModel (H:=counting_torch) 0 true) tt ∅,
         main_early_stopping)
    end.

(* ================================================================== *)
(** ** optim.lr_scheduler.StepLR *)

(** The scheduler and the learning rate of the parameter group it
    drives. *)
Record StepLR : Type := mkStepLR {
  step_size : Z;
  gamma : float;
  last_epoch : Z;
  lr : float
}.

(** [StepLR(optimizer, step_size, gamma)] on an optimizer built with the
    learning rate [lr]. *)
Definition StepLR_init (lr : float) (step_size : Z) (gamma : float) : StepLR :=
  mkStepLR step_size gamma 0 lr.

(** [scheduler.step()]: the epoch counter advances, and the learning rate
    is multiplied by [gamma] whenever the counter is a multiple of
    [step_size]. *)
Definition StepLR_step (self : StepLR) : StepLR :=
  let last_epoch := last_epoch self + 1 in
  if (last_epoch =? 0) || negb (last_epoch mod step_size self =? 0)
  then mkStepLR (step_size self) (gamma self) last_epoch (lr self)
  else mkStepLR (step_size self) (gamma self) last_epoch (lr self * gamma self)%float.

(** The scheduler of the three scripts, [StepLR(optimizer, step_size=30,
    gamma=0.1)], after the [scheduler.step()] of [n] epochs. *)
Definition main_scheduler (s : script) (dev : string) (n : nat) : StepLR :=
  Nat.iter n StepLR_step (StepLR_init (learning_rate (CONFIG s dev)) 30 lit_0_1).

(* ================================================================== *)
(** ** Rounding of a quotient *)

(** The invariant of the shift-right loop on a value [P] counted in units
    of weight [W]: the record holds the quotient of [P] by [W], the round
    bit and the sticky bit of the remainder. *)
Definition shr_inv_w (P W : Z) (mrs : shr_record) : Prop :=
  exists rem low,
    P = shr_m mrs * W + rem /\ 0 <= rem < W /\
    2 * rem = (if shr_r mrs then W else 0) + low /\
    0 <= low < W /\ (shr_s mrs = true <-> low <> 0) /\ 0 <= shr_m mrs.

(* ================================================================== *)
(** * Properties *)

(** ** Comparison of binary64 values *)

Lemma SFcompare_refl (x : spec_float) :
  x <> S754_nan -> SFcompare x x = Some Eq.
Proof.
  destruct x as [s|s| |s m e]; try destruct s; simpl; try congruence.
  - rewrite Z.compare_refl, Pos.compare_cont_refl. reflexivity.
  - rewrite Z.compare_refl, Pos.compare_cont_refl. reflexivity.
Qed.

Lemma SFcompare_nan_iff (x y : spec_float) :
  SFcompare x y = None <-> x = S754_nan \/ y = S754_nan.
Proof.
  destruct x as [sx|sx| |sx mx ex], y as [sy|sy| |sy my ey]; simpl;
    split; intros H; try discriminate; try (destruct H; discriminate);
    auto.
Qed.

Lemma SFcompare_antisym (x y : spec_float) :
  SFcompare y x = option_map CompOpp (SFcompare x y).
Proof.
  destruct x as [sx|sx| |sx mx ex], y as [sy|sy| |sy my ey]; simpl;
    try reflexivity;
    try (destruct sx; reflexivity);
    try (destruct sy; reflexivity);
    try (destruct sx, sy; reflexivity).
  destruct sx, sy; try reflexivity;
    rewrite (Z.compare_antisym ex ey);
    destruct (ex ?= ey); simpl; try reflexivity;
    pose proof (Pos.compare_cont_antisym mx my Eq) as H; simpl in H;
    rewrite <- H; try rewrite CompOpp_involutive; reflexivity.
Qed.

Lemma is_nan_spec (x : float) : is_nan x = true <-> Prim2SF x = S754_nan.
Proof.
  unfold is_nan. rewrite FloatAxioms.eqb_spec. unfold SFeqb. split.
  - intros H. destruct (Prim2SF x) eqn:E; try reflexivity;
      rewrite SFcompare_refl in H by congruence; discriminate.
  - intros ->. reflexivity.
Qed.

Lemma is_nan_false_spec (x : float) : is_nan x = false <-> Prim2SF x <> S754_nan.
Proof.
  rewrite <- is_nan_spec. destruct (is_nan x); split; congruence.
Qed.

(** Unless an operand is NaN, [a < b] or [a >= b]. *)
Lemma ltb_false_geb (a b : float) :
  (a <? b)%float = false ->
  geb a b = negb (is_nan a || is_nan b).
Proof.
  unfold geb. rewrite FloatAxioms.ltb_spec, FloatAxioms.leb_spec. unfold SFltb, SFleb.
  rewrite (SFcompare_antisym (Prim2SF a) (Prim2SF b)).
  destruct (SFcompare (Prim2SF a) (Prim2SF b)) as [c|] eqn:E.
  - assert (Ha : is_nan a = false).
    { apply is_nan_false_spec. intros N. rewrite N in E. discriminate. }
    assert (Hb : is_nan b = false).
    { apply is_nan_false_spec. intros N. rewrite N in E.
      destruct (Prim2SF a); discriminate. }
    rewrite Ha, Hb. destruct c; simpl; congruence.
  - intros _. apply SFcompare_nan_iff in E.
    destruct E as [E|E]; apply is_nan_spec in E; rewrite E; simpl;
      [reflexivity | rewrite orb_true_r; reflexivity].
Qed.

(** ** Zero, NaN and reflexivity *)

Lemma eqb_zero_spec (md : float) :
  (md =? 0)%float = true -> exists s, Prim2SF md = S754_zero s.
Proof.
  rewrite FloatAxioms.eqb_spec. unfold SFeqb.
  change (Prim2SF 0) with (S754_zero false).
  destruct (Prim2SF md) as [s|s| |s m e]; simpl; try discriminate.
  - eauto.
  - destruct s; discriminate.
  - destruct s; discriminate.
Qed.

Lemma ltb_irrefl (c : float) : (c <? c)%float = false.
Proof.
  rewrite FloatAxioms.ltb_spec. unfold SFltb.
  destruct (Prim2SF c) eqn:E; try reflexivity;
    rewrite SFcompare_refl by congruence; reflexivity.
Qed.

Lemma ltb_not_nan_l (a b : float) : (a <? b)%float = true -> is_nan a = false.
Proof.
  rewrite FloatAxioms.ltb_spec. unfold SFltb. intros H.
  apply is_nan_false_spec. intros N. rewrite N in H. discriminate.
Qed.

Lemma geb_refl (c : float) : is_nan c = false -> geb c c = true.
Proof.
  intros H. rewrite (ltb_false_geb c c (ltb_irrefl c)), H. reflexivity.
Qed.

(** ** Rounding of binary64 products and conversions *)

Lemma digits2_pos_size (p : positive) : digits2_pos p = Pos.size p.
Proof. induction p; simpl; congruence. Qed.

Lemma digits_bounds (p : positive) :
  2 ^ (Zpos (digits2_pos p) - 1) <= Zpos p < 2 ^ Zpos (digits2_pos p).
Proof.
  induction p as [p IH|p IH|]; cbn [digits2_pos].
  - rewrite Pos2Z.inj_succ.
    replace (Z.succ (Zpos (digits2_pos p)) - 1) with (Z.succ (Zpos (digits2_pos p) - 1)) by lia.
    rewrite !Z.pow_succ_r by lia. lia.
  - rewrite Pos2Z.inj_succ.
    replace (Z.succ (Zpos (digits2_pos p)) - 1) with (Z.succ (Zpos (digits2_pos p) - 1)) by lia.
    rewrite !Z.pow_succ_r by lia. lia.
  - simpl. lia.
Qed.

Lemma digits_unique (p : positive) (k : Z) :
  2 ^ (k - 1) <= Zpos p < 2 ^ k -> Zpos (digits2_pos p) = k.
Proof.
  intros [Hlo Hhi]. pose proof (digits_bounds p) as [Dlo Dhi].
  assert (0 < k).
  { destruct (Z.ltb_spec 0 k); [assumption|].
    assert (2 ^ k <= 2 ^ 0) by (apply Z.pow_le_mono_r; lia). simpl in *. lia. }
  destruct (Z.lt_trichotomy (Zpos (digits2_pos p)) k) as [L|[E|G]]; [|exact E|].
  - assert (2 ^ Zpos (digits2_pos p) <= 2 ^ (k - 1)) by (apply Z.pow_le_mono_r; lia). lia.
  - assert (2 ^ k <= 2 ^ (Zpos (digits2_pos p) - 1)) by (apply Z.pow_le_mono_r; lia). lia.
Qed.

Lemma shr_1_inv (P k : Z) (mrs : shr_record) :
  0 <= k -> shr_inv P k mrs -> shr_inv P (k + 1) (shr_1 mrs).
Proof.
  intros Hk (rem & low & HP & Hrem & H2 & Hlow & Hs & Hm).
  destruct mrs as [m r s]. cbn [shr_m shr_r shr_s] in *.
  unfold shr_inv. rewrite Z.pow_add_r by lia. change (2 ^ 1) with 2.
  assert (Hs' : (r || s = true) <-> 2 * rem <> 0).
  { rewrite orb_true_iff. destruct r; split; intros; try lia; auto.
    - destruct H as [H|H]; [discriminate|]. apply Hs in H. lia.
    - right. apply Hs. lia. }
  destruct m as [|[p|p|]|p]; try lia; cbn [shr_1 shr_m shr_r shr_s].
  - exists rem, (2 * rem). repeat split; try lia. all: try apply Hs'. 
  - exists (2 ^ k + rem), (2 * rem). repeat split; try lia; try apply Hs'.
  - exists rem, (2 * rem). repeat split; try lia; try apply Hs'.
  - exists (2 ^ k + rem), (2 * rem). repeat split; try lia; try apply Hs'.
Qed.

Lemma iter_pos_shr_inv (n : positive) :
  forall (P k : Z) (mrs : shr_record),
  0 <= k -> shr_inv P k mrs -> shr_inv P (k + Zpos n) (SpecFloat.iter_pos shr_1 n mrs).
Proof.
  induction n as [n IH|n IH|]; intros P k mrs Hk Hinv; cbn [SpecFloat.iter_pos].
  - replace (k + Zpos n~1) with (k + 1 + Zpos n + Zpos n) by lia.
    apply IH; [lia|]. apply IH; [lia|]. apply shr_1_inv; assumption.
  - replace (k + Zpos n~0) with (k + Zpos n + Zpos n) by lia.
    apply IH; [lia|]. apply IH; assumption.
  - apply shr_1_inv; assumption.
Qed.

Lemma shr_inv_init (P : Z) : 0 <= P -> shr_inv P 0 (shr_record_of_loc P loc_Exact).
Proof.
  intros HP. exists 0, 0. simpl. repeat split; try lia; try discriminate.
Qed.

(** Rounding to nearest after a shift by [k] is off by at most half a unit. *)
Lemma round_nearest_even_error (P k : Z) (mrs : shr_record) :
  0 <= k -> shr_inv P k mrs ->
  let m1 := round_nearest_even (shr_m mrs) (loc_of_shr_record mrs) in
  shr_m mrs <= m1 <= shr_m mrs + 1 /\
  2 * Z.abs (P - m1 * 2 ^ k) <= 2 ^ k.
Proof.
  intros Hk (rem & low & HP & Hrem & H2 & Hlow & Hs & Hm).
  destruct mrs as [m r s]. cbn [shr_m shr_r shr_s] in *.
  assert (0 < 2 ^ k) by (apply Z.pow_pos_nonneg; lia).
  destruct r, s; cbn [loc_of_shr_record round_nearest_even].
  - split; [lia|]. assert (low <> 0) by (apply Hs; reflexivity). nia.
  - assert (low = 0).
    { destruct (Z.eq_dec low 0); [assumption|]. apply Hs in n. discriminate. }
    destruct (Z.even m); split; try lia; nia.
  - split; [lia|]. nia.
  - assert (low = 0).
    { destruct (Z.eq_dec low 0); [assumption|]. apply Hs in n. discriminate. }
    split; [lia|]. nia.
Qed.

Lemma shr_spec (P : Z) (r : shr_record) (e k : Z) :
  0 <= k -> shr_inv P 0 r ->
  exists mrs, shr r e k = (mrs, e + k) /\ shr_inv P k mrs.
Proof.
  intros Hk Hinv. destruct k as [|kp|kp]; try lia.
  - exists r. rewrite Z.add_0_r. split; [reflexivity | assumption].
  - exists (SpecFloat.iter_pos shr_1 kp r). split; [reflexivity|].
    apply (iter_pos_shr_inv kp P 0 r); [lia | assumption].
Qed.

Lemma shr_inv_bounds (P k : Z) (mrs : shr_record) (d : Z) :
  0 <= k -> shr_inv P k mrs -> 2 ^ (k + d - 1) <= P < 2 ^ (k + d) -> 1 <= d ->
  2 ^ (d - 1) <= shr_m mrs < 2 ^ d.
Proof.
  intros Hk (rem & low & HP & Hrem & _) [Hlo Hhi] Hd.
  replace (k + d - 1) with (k + (d - 1)) in Hlo by lia.
  rewrite Z.pow_add_r in Hlo, Hhi by lia.
  assert (0 < 2 ^ k) by (apply Z.pow_pos_nonneg; lia).
  assert (0 < 2 ^ (d - 1)) by (apply Z.pow_pos_nonneg; lia).
  assert (0 < 2 ^ d) by (apply Z.pow_pos_nonneg; lia).
  split; nia.
Qed.

Lemma binary_round_aux_normal (P : positive) (e : Z) :
  let e1 := Zpos (digits2_pos P) + e - prec in
  e <= e1 -> -1074 <= e1 -> e1 + 1 <= 971 ->
  exists m e',
    binary_round_aux prec emax false (Zpos P) e loc_Exact = S754_finite false m e' /\
    ((e' = e1 /\
      2 * Z.abs (Zpos P - Zpos m * 2 ^ (e1 - e)) <= 2 ^ (e1 - e)) \/
     (e' = e1 + 1 /\ Zpos m = 2 ^ 52 /\
      2 * Z.abs (Zpos P - 2 ^ 53 * 2 ^ (e1 - e)) <= 2 ^ (e1 - e))).
Proof.
  intros e1 He Hmin Hmax.
  set (k := e1 - e).
  assert (Hk : 0 <= k) by (unfold k; lia).
  unfold binary_round_aux, shr_fexp.
  cbn [Zdigits2].
  assert (Hf : fexp prec emax (Zpos (digits2_pos P) + e) - e = k).
  { unfold fexp, SpecFloat.emin, prec, emax, k, e1, prec in *. lia. }
  rewrite Hf.
  destruct (shr_spec (Zpos P) (shr_record_of_loc (Zpos P) loc_Exact) e k Hk)
    as (mrs & Hshr & Hinv); [apply shr_inv_init; lia|].
  rewrite Hshr.
  replace (e + k) with e1 by (unfold k; lia).
  pose proof (round_nearest_even_error (Zpos P) k mrs Hk Hinv) as [Hm1 Herr].
  set (m1 := round_nearest_even (shr_m mrs) (loc_of_shr_record mrs)) in *.
  assert (Hm0 : 2 ^ 52 <= shr_m mrs < 2 ^ 53).
  { apply (shr_inv_bounds (Zpos P) k mrs 53 Hk Hinv); [|lia].
    pose proof (digits_bounds P) as HD.
    replace (k + 53 - 1) with (Zpos (digits2_pos P) - 1)
      by (unfold k, e1, prec; lia).
    replace (k + 53) with (Zpos (digits2_pos P)) by (unfold k, e1, prec; lia).
    exact HD. }
  destruct (Z.eq_dec m1 (2 ^ 53)) as [Hcarry|Hnc].
  - rewrite Hcarry in *.
    exists (4503599627370496)%positive, (e1 + 1). split.
    + change (2 ^ 53) with 9007199254740992.
      change (Zdigits2 9007199254740992) with 54.
      assert (Hf2 : fexp prec emax (54 + e1) - e1 = 1).
      { unfold fexp, SpecFloat.emin, prec, emax. lia. }
      rewrite Hf2. cbn [shr shr_record_of_loc SpecFloat.iter_pos shr_1 shr_m].
      replace (e1 + 1 <=? emax - prec) with true; [reflexivity|].
      symmetry. apply Z.leb_le. unfold emax, prec. lia.
    + right. repeat split; try reflexivity. exact Herr.
  - assert (Hm1b : 2 ^ 52 <= m1 < 2 ^ 53) by lia.
    destruct m1 as [|p1|p1] eqn:Em1; try lia.
    exists p1, e1. split.
    + cbn [Zdigits2].
      rewrite (digits_unique p1 53) by (change (53 - 1) with 52; lia).
      assert (Hf2 : fexp prec emax (53 + e1) - e1 = 0).
      { unfold fexp, SpecFloat.emin, prec, emax. lia. }
      rewrite Hf2. cbn [shr shr_record_of_loc shr_m].
      replace (e1 <=? emax - prec) with true; [reflexivity|].
      symmetry. apply Z.leb_le. unfold emax, prec. lia.
    + left. split; [reflexivity | exact Herr].
Qed.

Lemma iter_xO_value (p d : positive) :
  Zpos (Pos.iter xO p d) = Zpos p * 2 ^ Zpos d.
Proof.
  induction d as [|d IH] using Pos.peano_ind.
  - simpl. lia.
  - rewrite Pos.iter_succ, Pos2Z.inj_succ, Z.pow_succ_r by lia.
    rewrite Pos2Z.inj_xO, IH. lia.
Qed.

(** A positive integer below 2^53 converts exactly: the mantissa is the
    integer shifted to 53 digits. *)
Lemma binary_normalize_exact (p : positive) :
  Zpos p < 2 ^ 53 ->
  exists mz : positive,
    binary_normalize prec emax (Zpos p) 0 false
      = S754_finite false mz (Zpos (digits2_pos p) - 53) /\
    Zpos mz = Zpos p * 2 ^ (53 - Zpos (digits2_pos p)) /\
    Zpos (digits2_pos mz) = 53.
Proof.
  intros Hp. pose proof (digits_bounds p) as [Dlo Dhi].
  set (d := Zpos (digits2_pos p)) in *.
  assert (Hd : 1 <= d <= 53).
  { split; [unfold d; lia|].
    destruct (Z.leb_spec d 53); [assumption|].
    assert (2 ^ 53 <= 2 ^ (d - 1)) by (apply Z.pow_le_mono_r; lia). lia. }
  cbn [binary_normalize]. unfold binary_round.
  rewrite Z.add_0_r. fold d.
  assert (Hf : fexp prec emax d = d - 53).
  { unfold fexp, SpecFloat.emin, prec, emax. lia. }
  rewrite Hf.
  assert (Hal : exists mz, shl_align p 0 (d - 53) = (mz, d - 53) /\
                           Zpos mz = Zpos p * 2 ^ (53 - d)).
  { unfold shl_align. rewrite Z.sub_0_r.
    destruct (d - 53) as [|q|q] eqn:Eq; try lia.
    - exists p. split; [reflexivity|].
      replace (53 - d) with 0 by lia. simpl. lia.
    - exists (Pos.iter xO p q). split; [reflexivity|].
      rewrite iter_xO_value. f_equal. f_equal. lia. }
  destruct Hal as (mz & Hal & Hmz). rewrite Hal.
  assert (Hmzb : 2 ^ 52 <= Zpos mz < 2 ^ 53).
  { rewrite Hmz.
    assert (E52 : 2 ^ 52 = 2 ^ (d - 1) * 2 ^ (53 - d))
      by (rewrite <- Z.pow_add_r by lia; f_equal; lia).
    assert (E53 : 2 ^ 53 = 2 ^ d * 2 ^ (53 - d))
      by (rewrite <- Z.pow_add_r by lia; f_equal; lia).
    rewrite E52, E53.
    assert (0 < 2 ^ (53 - d)) by (apply Z.pow_pos_nonneg; lia).
    split.
    - apply Z.mul_le_mono_nonneg_r; lia.
    - apply Z.mul_lt_mono_pos_r; lia. }
  assert (Hdm : Zpos (digits2_pos mz) = 53)
    by (apply digits_unique; change (53 - 1) with 52; exact Hmzb).
  destruct (binary_round_aux_normal mz (d - 53)) as (m & e' & Hr & Hcase).
  { rewrite Hdm. unfold prec. lia. }
  { rewrite Hdm. unfold prec. lia. }
  { rewrite Hdm. unfold prec. lia. }
  rewrite Hdm in Hcase.
  replace (53 + (d - 53) - prec) with (d - 53) in Hcase by (unfold prec; lia).
  replace (d - 53 - (d - 53)) with 0 in Hcase by lia.
  change (2 ^ 0) with 1 in Hcase.
  exists mz. split; [|split; assumption].
  rewrite Hr. destruct Hcase as [[-> Herr]|(_ & _ & Herr)].
  - f_equal. lia.
  - lia.
Qed.

(** The arithmetic behind [int(0.8 * n)]: [M] is the mantissa of the
    binary64 nearest to 0.8, so that [5 * M = 2^55 + 2]. *)
Lemma split_arith (n mm A J G : Z) :
  0 < n < 2 ^ 50 -> 0 < A -> 0 < J -> 8 <= G ->
  J * G = 2 ^ 53 * A ->
  2 * Z.abs (7205759403792794 * (n * A) - mm * J) <= J ->
  mm / G = 4 * n / 5.
Proof.
  intros Hn HA HJ HG HT Herr.
  set (q := 4 * n / 5).
  assert (Hq : 5 * q <= 4 * n < 5 * q + 5).
  { unfold q. pose proof (Z.div_mod (4 * n) 5 ltac:(lia)).
    pose proof (Z.mod_pos_bound (4 * n) 5 ltac:(lia)). lia. }
  clearbody q.
  set (W := n * A) in *.
  assert (HW : 0 < W) by (unfold W; nia).
  set (T := 2 ^ 53 * A) in *.
  assert (HnT : n * T = 2 ^ 53 * W) by (unfold T, W; ring).
  change (2 ^ 53) with 9007199254740992 in *.
  change (2 ^ 50) with 1125899906842624 in *.
  assert (HTpos : 0 < T) by (unfold T; lia).
  assert (HqT1 : 5 * (q * T) <= 4 * (n * T)) by nia.
  assert (HqT2 : 4 * (n * T) <= 5 * (q * T) + 4 * T) by nia.
  assert (HnA : 4 * W < 4503599627370496 * A) by (unfold W; nia).
  assert (HJA : 8 * J <= T) by nia.
  symmetry. apply Z.div_unique with (r := mm - q * G).
  2: ring.
  left. split.
  - (* q * G <= mm *)
    destruct (Z.le_gt_cases (q * G) mm) as [L|L]; [lia|exfalso].
    assert (mm * J <= (q * G - 1) * J) by (apply Z.mul_le_mono_nonneg_r; lia).
    assert ((q * G - 1) * J = q * T - J) by (rewrite <- HT; ring).
    lia.
  - (* mm < (q + 1) * G *)
    destruct (Z.lt_ge_cases mm ((q + 1) * G)) as [L|L]; [lia|exfalso].
    assert ((q + 1) * G * J <= mm * J) by (apply Z.mul_le_mono_nonneg_r; lia).
    assert ((q + 1) * G * J = q * T + T) by (rewrite <- HT; ring).
    unfold T in *. lia.
Qed.

Lemma float_of_int_exact (p : positive) :
  Zpos p < 2 ^ 53 ->
  exists (f : float) (mz : positive),
    float_of_int (Zpos p) = Ok f /\
    Prim2SF f = S754_finite false mz (Zpos (digits2_pos p) - 53) /\
    Zpos mz = Zpos p * 2 ^ (53 - Zpos (digits2_pos p)) /\
    Zpos (digits2_pos mz) = 53.
Proof.
  intros Hp. destruct (binary_normalize_exact p Hp) as (mz & Hn & Hmz & Hd).
  pose proof (digits_bounds p) as [Dlo Dhi].
  assert (Hdp : Zpos (digits2_pos p) <= 53).
  { destruct (Z.leb_spec (Zpos (digits2_pos p)) 53); [assumption|].
    assert (2 ^ 53 <= 2 ^ (Zpos (digits2_pos p) - 1))
      by (apply Z.pow_le_mono_r; lia). lia. }
  exists (SF2Prim (S754_finite false mz (Zpos (digits2_pos p) - 53))), mz.
  unfold float_of_int. rewrite Hn. repeat split; try assumption.
  apply Prim2SF_SF2Prim.
  unfold valid_binary, bounded, canonical_mantissa. rewrite Hd.
  apply andb_true_intro. split.
  - apply Z.eqb_eq. unfold fexp, SpecFloat.emin, prec, emax. lia.
  - apply Z.leb_le. unfold prec, emax. lia.
Qed.

(** Python ints up to 2^53 convert to a float without an exception. *)
Lemma float_of_int_is_ok (n : Z) :
  0 <= n < 2 ^ 53 -> is_ok (float_of_int n) = true.
Proof.
  intros Hn. destruct n as [|p|p]; try lia.
  - reflexivity.
  - destruct (float_of_int_exact p ltac:(lia)) as (f & mz & -> & _). reflexivity.
Qed.

(** [int(0.8 * n)] is the floor of [4n/5] for every size below 2^50. *)
Lemma train_size_of_exact (n : Z) :
  0 <= n < 2 ^ 50 -> train_size_of n = Ok (4 * n / 5).
Proof.
  intros Hn. destruct n as [|p|p]; try lia.
  - vm_compute. reflexivity.
  - assert (Hp53 : Zpos p < 2 ^ 53).
    { change (2 ^ 53) with (2 ^ 50 * 8). change (2 ^ 50) with 1125899906842624 in *. lia. }
    destruct (float_of_int_exact p Hp53) as (f & mz & Hf & HSf & Hmz & Hdmz).
    pose proof (digits_bounds p) as [Dlo Dhi].
    pose proof (digits_bounds mz) as [Mlo Mhi]. rewrite Hdmz in Mlo, Mhi.
    set (d := Zpos (digits2_pos p)) in *.
    assert (Hd : 1 <= d <= 50).
    { split; [unfold d; lia|].
      destruct (Z.leb_spec d 50); [assumption|].
      assert (2 ^ 50 <= 2 ^ (d - 1)) by (apply Z.pow_le_mono_r; lia). lia. }
    unfold train_size_of, float_mul_int. rewrite Hf. cbn [mbind result_bind].
    unfold int_of_float. rewrite mul_spec, HSf.
    change (Prim2SF lit_0_8) with (S754_finite false 7205759403792794 (-53)).
    unfold SF64mul. cbn [SFmul xorb].
    set (P := (7205759403792794 * mz)%positive).
    assert (HP : Zpos P = 7205759403792794 * Zpos mz) by reflexivity.
    assert (HPb : 2 ^ 104 <= Zpos P < 2 ^ 106).
    { rewrite HP. change (53 - 1) with 52 in Mlo.
      change (2 ^ 52) with 4503599627370496 in Mlo.
      change (2 ^ 53) with 9007199254740992 in Mhi.
      change (2 ^ 104) with (4503599627370496 * 4503599627370496).
      change (2 ^ 106) with (9007199254740992 * 9007199254740992).
      split; nia. }
    pose proof (digits_bounds P) as [PDlo PDhi].
    set (DP := Zpos (digits2_pos P)) in *.
    assert (HDP : 105 <= DP <= 106).
    { split.
      - destruct (Z.leb_spec 105 DP); [assumption|].
        assert (2 ^ DP <= 2 ^ 104) by (apply Z.pow_le_mono_r; unfold DP; lia). lia.
      - destruct (Z.leb_spec DP 106); [assumption|].
        assert (2 ^ 106 <= 2 ^ (DP - 1)) by (apply Z.pow_le_mono_r; lia). lia. }
    destruct (binary_round_aux_normal P (-53 + (d - 53))) as (m & e' & Hr & Hcase).
    { fold DP. unfold prec. lia. }
    { fold DP. unfold prec. lia. }
    { fold DP. unfold prec. lia. }
    fold DP in Hcase. rewrite Hr.
    set (e1 := DP + (-53 + (d - 53)) - prec) in *.
    assert (He1 : e1 = DP + d - 159) by (unfold e1, prec; lia).
    replace (e1 - (-53 + (d - 53))) with (DP - 53) in Hcase by lia.
    assert (HJG : 2 ^ (DP - 53) * 2 ^ (- e1) = 2 ^ 53 * 2 ^ (53 - d)).
    { rewrite <- !Z.pow_add_r by lia. f_equal. lia. }
    assert (HG : 8 <= 2 ^ (- e1)).
    { change 8 with (2 ^ 3). apply Z.pow_le_mono_r; lia. }
    assert (HA : 0 < 2 ^ (53 - d)) by (apply Z.pow_pos_nonneg; lia).
    assert (HJ : 0 < 2 ^ (DP - 53)) by (apply Z.pow_pos_nonneg; lia).
    rewrite HP, Hmz in Hcase.
    f_equal.
    destruct Hcase as [[-> Herr]|(-> & Hm & Herr)].
    + destruct e1 as [|g|g] eqn:Eg; try lia.
      change (- Z.neg g) with (Zpos g) in *.
      apply (split_arith (Zpos p) (Zpos m) (2 ^ (53 - d)) (2 ^ (DP - 53)) (2 ^ Zpos g));
        try assumption; lia.
    + rewrite <- (split_arith (Zpos p) (2 ^ 53) (2 ^ (53 - d)) (2 ^ (DP - 53)) (2 ^ (- e1)));
        try assumption; try lia.
      destruct (e1 + 1) as [|g|g] eqn:Eg; try lia.
      rewrite Hm.
      replace (- e1) with (Zpos g + 1) by lia.
      rewrite Z.pow_add_r by lia. change (2 ^ 53) with (2 ^ 52 * 2 ^ 1).
      rewrite Z.div_mul_cancel_r; [reflexivity | | lia].
      apply Z.pow_nonzero; lia.
Qed.

(** ** Adding a number of known sign to a binary64 value *)

Lemma valid_finite_facts (s : bool) (m : positive) (e : Z) :
  valid_binary (S754_finite s m e) = true ->
  Zpos (digits2_pos m) <= 53 /\ -1074 <= e <= 971 /\
  e = Z.max (Zpos (digits2_pos m) + e - 53) (-1074).
Proof.
  unfold valid_binary, bounded, canonical_mantissa, fexp, SpecFloat.emin, prec, emax.
  intros H. apply andb_prop in H as [H1 H2].
  apply Z.eqb_eq in H1. apply Z.leb_le in H2. lia.
Qed.

Lemma valid_representable (s : bool) (m : positive) (e : Z) :
  valid_binary (S754_finite s m e) = true ->
  representable (Zpos m * 2 ^ (e + 1074)).
Proof.
  intros (Hd & He & _)%valid_finite_facts. exists m, e.
  split; [|split; [exact He | reflexivity]].
  pose proof (digits_bounds m) as [_ Hhi].
  assert (2 ^ Zpos (digits2_pos m) <= 2 ^ 53) by (apply Z.pow_le_mono_r; lia). lia.
Qed.

Lemma finite_bound_le_pow (x : Z) : 2098 <= x -> finite_bound <= 2 ^ x.
Proof. intros Hx. unfold finite_bound. apply Z.pow_le_mono_r; lia. Qed.

Lemma representable_bounds (A : Z) : representable A -> 0 < A < finite_bound.
Proof.
  intros (ma & ea & Hm & He & ->).
  assert (0 < 2 ^ (ea + 1074)) by (apply Z.pow_pos_nonneg; lia).
  assert (Hp : 2 ^ (ea + 1074) <= 2 ^ 2045) by (apply Z.pow_le_mono_r; lia).
  split; [apply Z.mul_pos_pos; lia|].
  assert (Hb : finite_bound = 2 ^ 53 * 2 ^ 2045).
  { unfold finite_bound. rewrite <- Z.pow_add_r by lia. reflexivity. }
  rewrite Hb. set (Q := 2 ^ 2045) in *.
  assert (0 < Q) by (apply Z.pow_pos_nonneg; lia).
  apply Z.le_lt_trans with (Zpos ma * Q).
  - apply Z.mul_le_mono_nonneg_l; lia.
  - apply Z.mul_lt_mono_pos_r; lia.
Qed.

(** A result of [binary_round_aux] that needs no shift is the input. *)
Lemma binary_round_aux_exact (s : bool) (P : positive) (e : Z) :
  fexp prec emax (Zpos (digits2_pos P) + e) = e ->
  binary_round_aux prec emax s (Zpos P) e loc_Exact
  = if e <=? 971 then S754_finite s P e else S754_infinity s.
Proof.
  intros Hf. unfold binary_round_aux, shr_fexp. cbn [Zdigits2].
  rewrite Hf, Z.sub_diag. cbn [shr shr_record_of_loc shr_m loc_of_shr_record
                                 round_nearest_even Zdigits2].
  rewrite Hf, Z.sub_diag. cbn [shr shr_record_of_loc shr_m].
  reflexivity.
Qed.

(** A result of [binary_round_aux] in the normal range: the mantissa is
    the input shifted and rounded to nearest, within half a unit. *)
Lemma binary_round_aux_shift (s : bool) (P : positive) (e : Z) :
  let e1 := Zpos (digits2_pos P) + e - 53 in
  e <= e1 -> -1074 <= e1 ->
  exists mm : positive,
    2 ^ 52 <= Zpos mm <= 2 ^ 53 /\
    2 * Z.abs (Zpos P - Zpos mm * 2 ^ (e1 - e)) <= 2 ^ (e1 - e) /\
    binary_round_aux prec emax s (Zpos P) e loc_Exact
    = if Zpos mm <? 2 ^ 53
      then (if e1 <=? 971 then S754_finite s mm e1 else S754_infinity s)
      else (if e1 + 1 <=? 971 then S754_finite s 4503599627370496 (e1 + 1)
            else S754_infinity s).
Proof.
  intros e1 He Hmin.
  set (k := e1 - e).
  assert (Hk : 0 <= k) by (unfold k; lia).
  unfold binary_round_aux, shr_fexp.
  cbn [Zdigits2].
  assert (Hf : fexp prec emax (Zpos (digits2_pos P) + e) - e = k).
  { unfold fexp, SpecFloat.emin, prec, emax, k, e1 in *. lia. }
  rewrite Hf.
  destruct (shr_spec (Zpos P) (shr_record_of_loc (Zpos P) loc_Exact) e k Hk)
    as (mrs & Hshr & Hinv); [apply shr_inv_init; lia|].
  rewrite Hshr.
  replace (e + k) with e1 by (unfold k; lia).
  pose proof (round_nearest_even_error (Zpos P) k mrs Hk Hinv) as [Hm1 Herr].
  set (m1 := round_nearest_even (shr_m mrs) (loc_of_shr_record mrs)) in *.
  assert (Hm0 : 2 ^ 52 <= shr_m mrs < 2 ^ 53).
  { apply (shr_inv_bounds (Zpos P) k mrs 53 Hk Hinv); [|lia].
    pose proof (digits_bounds P) as HD.
    replace (k + 53 - 1) with (Zpos (digits2_pos P) - 1) by (unfold k, e1; lia).
    replace (k + 53) with (Zpos (digits2_pos P)) by (unfold k, e1; lia).
    exact HD. }
  destruct m1 as [|p1|p1] eqn:Em1; try lia.
  exists p1. split; [lia|]. split; [exact Herr|].
  destruct (Z.ltb_spec (Zpos p1) (2 ^ 53)) as [Hlt|Hge].
  - cbn [Zdigits2].
    rewrite (digits_unique p1 53) by (change (53 - 1) with 52; lia).
    assert (Hf2 : fexp prec emax (53 + e1) - e1 = 0).
    { unfold fexp, SpecFloat.emin, prec, emax. lia. }
    rewrite Hf2. cbn [shr shr_record_of_loc shr_m]. reflexivity.
  - assert (Hp1 : p1 = 9007199254740992%positive).
    { change (2 ^ 53) with 9007199254740992 in *. lia. }
    subst p1.
    change (Zdigits2 9007199254740992) with 54.
    assert (Hf2 : fexp prec emax (54 + e1) - e1 = 1).
    { unfold fexp, SpecFloat.emin, prec, emax. lia. }
    rewrite Hf2. cbn [shr shr_record_of_loc SpecFloat.iter_pos shr_1 shr_m].
    reflexivity.
Qed.

Lemma digits_iter_xO (p d : positive) :
  Zpos (digits2_pos (Pos.iter xO p d)) = Zpos (digits2_pos p) + Zpos d.
Proof.
  induction d as [|d IH] using Pos.peano_ind.
  - cbn [Pos.iter digits2_pos]. lia.
  - rewrite Pos.iter_succ. cbn [digits2_pos]. lia.
Qed.

(** A representable value is a multiple of the unit [2^(e1+1074)] or lies
    below the binade that starts at [2^52] units. *)
Lemma representable_grid (A e1 : Z) :
  representable A -> -1074 <= e1 ->
  (exists c, A = c * 2 ^ (e1 + 1074)) \/ A < 2 ^ 52 * 2 ^ (e1 + 1074).
Proof.
  intros (ma & ea & Hm & He & ->) He1.
  destruct (Z.le_gt_cases e1 ea) as [Hle|Hgt].
  - left. exists (Zpos ma * 2 ^ (ea - e1)).
    rewrite <- Z.mul_assoc, <- Z.pow_add_r by lia. f_equal. f_equal. lia.
  - right.
    assert (H2 : 2 * 2 ^ (ea + 1074) <= 2 ^ (e1 + 1074)).
    { replace (2 * 2 ^ (ea + 1074)) with (2 ^ (ea + 1 + 1074))
        by (rewrite <- Z.pow_succ_r by lia; f_equal; lia).
      apply Z.pow_le_mono_r; lia. }
    assert (0 < 2 ^ (ea + 1074)) by (apply Z.pow_pos_nonneg; lia).
    change (2 ^ 53) with (2 * 2 ^ 52) in Hm. change (2 ^ 52) with 4503599627370496 in *.
    nia.
Qed.

Lemma round_monotone_arith (X Rv U mm A : Z) :
  0 < U -> Rv = mm * U -> 2 * Z.abs (X - Rv) <= U -> 2 ^ 52 <= mm ->
  2 ^ 52 * U <= X ->
  (exists c, A = c * U) \/ A < 2 ^ 52 * U ->
  (A <= X -> A <= Rv) /\ (X <= A -> Rv <= A).
Proof.
  intros HU -> Herr Hmm HX [[c ->]|Hsmall].
  - split; intros H.
    + destruct (Z.le_gt_cases c mm) as [Hc|Hc].
      * apply Z.mul_le_mono_nonneg_r; lia.
      * assert ((mm + 1) * U <= c * U) by (apply Z.mul_le_mono_nonneg_r; lia). lia.
    + destruct (Z.le_gt_cases mm c) as [Hc|Hc].
      * apply Z.mul_le_mono_nonneg_r; lia.
      * assert (c * U <= (mm - 1) * U) by (apply Z.mul_le_mono_nonneg_r; lia). lia.
  - assert (2 ^ 52 * U <= mm * U) by (apply Z.mul_le_mono_nonneg_r; lia).
    split; intros HA; lia.
Qed.

(** Rounding to nearest is monotone with respect to the representable
    values: one that is below (above) the exact value stays below (above)
    the rounded one; and the result overflows only above all of them. *)
Lemma binary_round_monotone (s : bool) (P : positive) (e : Z) :
  -1074 <= e ->
  (binary_round prec emax s P e = S754_infinity s /\
   forall A, representable A -> A < Zpos P * 2 ^ (e + 1074)) \/
  (exists (m : positive) (e' : Z),
     binary_round prec emax s P e = S754_finite s m e' /\
     -1074 <= e' /\
     forall A, representable A ->
       (A <= Zpos P * 2 ^ (e + 1074) -> A <= Zpos m * 2 ^ (e' + 1074)) /\
       (Zpos P * 2 ^ (e + 1074) <= A -> Zpos m * 2 ^ (e' + 1074) <= A)).
Proof.
  intros He.
  pose proof (digits_bounds P) as [Dlo Dhi].
  set (DP := Zpos (digits2_pos P)) in *.
  assert (HDP : 1 <= DP) by (unfold DP; lia).
  set (W := 2 ^ (e + 1074)).
  assert (HW : 0 < W) by (apply Z.pow_pos_nonneg; lia).
  unfold binary_round. fold DP.
  set (fe := fexp prec emax (DP + e)).
  assert (Hfe : fe = Z.max (DP + e - 53) (-1074)) by reflexivity.
  destruct (Z.le_gt_cases fe e) as [Hle|Hgt].
  - (* the mantissa is only shifted left: exact *)
    assert (Hal : exists mz, shl_align P e fe = (mz, fe) /\
                             Zpos mz = Zpos P * 2 ^ (e - fe) /\
                             Zpos (digits2_pos mz) = DP + (e - fe)).
    { unfold shl_align. destruct (fe - e) as [|q|q] eqn:Eq; try lia.
      - exists P. replace fe with e by lia. rewrite Z.sub_diag, Z.mul_1_r, Z.add_0_r.
        auto.
      - exists (Pos.iter xO P q). rewrite iter_xO_value, digits_iter_xO.
        replace (e - fe) with (Zpos q) by lia. auto. }
    destruct Hal as (mz & -> & Hmz & Hdz).
    rewrite binary_round_aux_exact
      by (rewrite Hdz; replace (DP + (e - fe) + fe) with (DP + e) by lia; reflexivity).
    assert (HX : Zpos mz * 2 ^ (fe + 1074) = Zpos P * W).
    { rewrite Hmz, <- Z.mul_assoc, <- Z.pow_add_r by lia. unfold W. f_equal. f_equal. lia. }
    destruct (Z.leb_spec fe 971) as [Hr|Hr].
    + right. exists mz, fe. split; [reflexivity|]. split; [lia|].
      intros A _. rewrite HX. tauto.
    + left. split; [reflexivity|].
      intros A HA%representable_bounds.
      assert (finite_bound <= Zpos P * W); [|lia].
      assert (finite_bound <= 2 ^ (DP - 1) * W).
      { unfold W. rewrite <- Z.pow_add_r by lia. apply finite_bound_le_pow. lia. }
      assert (2 ^ (DP - 1) * W <= Zpos P * W)
        by (apply Z.mul_le_mono_nonneg_r; lia).
      lia.
  - (* the mantissa is shifted right and rounded *)
    assert (Hfe' : fe = DP + e - 53) by lia.
    assert (Hal : shl_align P e fe = (P, e)).
    { unfold shl_align. destruct (fe - e) as [|q|q] eqn:Eq; try lia; reflexivity. }
    rewrite Hal.
    destruct (binary_round_aux_shift s P e) as (mm & Hmm & Herr & ->);
      fold DP; rewrite <- ?Hfe'; try lia.
    fold DP in Herr. rewrite <- Hfe' in Herr.
    set (U := 2 ^ (fe + 1074)).
    assert (HU : 0 < U) by (apply Z.pow_pos_nonneg; lia).
    assert (HUW : U = 2 ^ (fe - e) * W).
    { unfold U, W. rewrite <- Z.pow_add_r by lia. f_equal. lia. }
    assert (HK : 0 < 2 ^ (fe - e)) by (apply Z.pow_pos_nonneg; lia).
    assert (HerrU : 2 * Z.abs (Zpos P * W - Zpos mm * U) <= U).
    { rewrite HUW.
      replace (Zpos P * W - Zpos mm * (2 ^ (fe - e) * W))
        with ((Zpos P - Zpos mm * 2 ^ (fe - e)) * W) by ring.
      rewrite Z.abs_mul, (Z.abs_eq W) by lia.
      rewrite Z.mul_assoc. apply Z.mul_le_mono_nonneg_r; lia. }
    assert (HXlo : 2 ^ 52 * U <= Zpos P * W).
    { rewrite HUW, Z.mul_assoc, <- Z.pow_add_r by lia.
      replace (52 + (fe - e)) with (DP - 1) by lia.
      apply Z.mul_le_mono_nonneg_r; lia. }
    assert (Hmono : forall A, representable A ->
              (A <= Zpos P * W -> A <= Zpos mm * U) /\
              (Zpos P * W <= A -> Zpos mm * U <= A)).
    { intros A HA.
      apply (round_monotone_arith (Zpos P * W) (Zpos mm * U) U (Zpos mm) A);
        try lia.
      apply representable_grid; [exact HA | lia]. }
    assert (Hbig : 971 < fe -> forall A, representable A -> A < Zpos P * W).
    { intros Hr A HA%representable_bounds.
      assert (finite_bound <= 2 ^ 52 * U); [|lia].
      unfold U. rewrite <- Z.pow_add_r by lia. apply finite_bound_le_pow. lia. }
    destruct (Z.ltb_spec (Zpos mm) (2 ^ 53)) as [Hlt|Hge].
    + destruct (Z.leb_spec fe 971) as [Hr|Hr].
      * right. exists mm, fe. split; [reflexivity|]. split; [lia|]. exact Hmono.
      * left. split; [reflexivity|]. apply Hbig. lia.
    + assert (Hmm53 : Zpos mm = 2 ^ 53) by lia.
      destruct (Z.leb_spec (fe + 1) 971) as [Hr|Hr].
      * right. exists 4503599627370496%positive, (fe + 1).
        split; [reflexivity|]. split; [lia|].
        replace (4503599627370496 * 2 ^ (fe + 1 + 1074)) with (Zpos mm * U).
        -- exact Hmono.
        -- rewrite Hmm53. unfold U.
           replace (fe + 1 + 1074) with (1 + (fe + 1074)) by lia.
           rewrite (Z.pow_add_r 2 1 (fe + 1074)) by lia.
           change (2 ^ 53) with (4503599627370496 * 2 ^ 1).
           ring.
      * left. split; [reflexivity|].
        destruct (Z.le_gt_cases fe 971) as [Hfe971|Hfe971]; [|apply Hbig; lia].
        assert (fe = 971) by lia. subst fe.
        intros A (ma & ea & Hma & Hea & ->).
        assert (HA : Zpos ma * 2 ^ (ea + 1074) <= (2 ^ 53 - 1) * U).
        { apply Z.mul_le_mono_nonneg; try lia.
          unfold U. rewrite H. apply Z.pow_le_mono_r; lia. }
        rewrite Hmm53 in HerrU. lia.
Qed.

(** Among valid values a smaller exponent means a smaller magnitude. *)
Lemma canonical_lt (s1 s2 : bool) (m1 m2 : positive) (e1 e2 : Z) :
  valid_binary (S754_finite s1 m1 e1) = true ->
  valid_binary (S754_finite s2 m2 e2) = true ->
  e1 < e2 ->
  Zpos m1 * 2 ^ (e1 + 1074) < Zpos m2 * 2 ^ (e2 + 1074).
Proof.
  intros (Hd1 & He1 & Hc1)%valid_finite_facts (Hd2 & He2 & Hc2)%valid_finite_facts Hlt.
  pose proof (digits_bounds m1) as [_ Hhi1].
  pose proof (digits_bounds m2) as [Hlo2 _].
  assert (Hd : Zpos (digits2_pos m2) = 53) by lia.
  rewrite Hd in Hlo2. change (53 - 1) with 52 in Hlo2.
  assert (Hm1 : Zpos m1 < 2 ^ 53).
  { assert (2 ^ Zpos (digits2_pos m1) <= 2 ^ 53) by (apply Z.pow_le_mono_r; lia). lia. }
  assert (HW1 : 0 < 2 ^ (e1 + 1074)) by (apply Z.pow_pos_nonneg; lia).
  assert (HW : 2 * 2 ^ (e1 + 1074) <= 2 ^ (e2 + 1074)).
  { replace (2 * 2 ^ (e1 + 1074)) with (2 ^ (e1 + 1 + 1074))
      by (rewrite <- Z.pow_succ_r by lia; f_equal; lia).
    apply Z.pow_le_mono_r; lia. }
  change (2 ^ 53) with (2 * 2 ^ 52) in Hm1. change (2 ^ 52) with 4503599627370496 in *.
  nia.
Qed.

Lemma finite_magnitude (s : bool) (m : positive) (e : Z) :
  valid_binary (S754_finite s m e) = true ->
  0 < Zpos m * 2 ^ (e + 1074) < finite_bound.
Proof. intros Hv. apply representable_bounds, (valid_representable s), Hv. Qed.

(** On valid values other than NaN, [SFcompare] is the order of [Zval]. *)
Lemma SFcompare_Zval (x y : spec_float) :
  valid_binary x = true -> valid_binary y = true ->
  x <> S754_nan -> y <> S754_nan ->
  SFcompare x y = Some (Zval x ?= Zval y).
Proof.
  intros Vx Vy Nx Ny.
  assert (Hhuge : 0 < finite_bound) by (apply Z.pow_pos_nonneg; lia).
  assert (Hlt : forall a b : Z, a < b -> (a ?= b) = Lt) by (intros; apply Z.compare_lt_iff; lia).
  assert (Hgt : forall a b : Z, b < a -> (a ?= b) = Gt) by (intros; apply Z.compare_gt_iff; lia).
  destruct x as [sx|sx| |sx mx ex], y as [sy|sy| |sy my ey]; try congruence;
    cbn [SFcompare Zval cond_Zopp];
    try pose proof (finite_magnitude _ _ _ Vx) as Mx;
    try pose proof (finite_magnitude _ _ _ Vy) as My.
  1-8: try destruct sx; try destruct sy; cbn [cond_Zopp]; f_equal; symmetry;
    first [ apply Z.compare_refl | apply Hlt; lia | apply Hgt; lia ].
  - assert (HW : 0 < 2 ^ (ex + 1074)).
    { apply valid_finite_facts in Vx as (_ & ? & _). apply Z.pow_pos_nonneg; lia. }
    destruct sx, sy; cbn [cond_Zopp]; f_equal; symmetry;
      try (apply Hlt; lia); try (apply Hgt; lia).
    + destruct (Z.compare_spec ex ey) as [E|L|G].
      * subst ey. change (Pos.compare_cont Eq mx my) with (Zpos mx ?= Zpos my).
        destruct (Z.compare_spec (Zpos mx) (Zpos my)) as [E'|L'|G']; cbn [CompOpp].
        -- rewrite E'. apply Z.compare_refl.
        -- apply Hgt.
           assert (Zpos mx * 2 ^ (ex + 1074) < Zpos my * 2 ^ (ex + 1074))
             by (apply Z.mul_lt_mono_pos_r; lia). lia.
        -- apply Hlt.
           assert (Zpos my * 2 ^ (ex + 1074) < Zpos mx * 2 ^ (ex + 1074))
             by (apply Z.mul_lt_mono_pos_r; lia). lia.
      * apply Hgt. pose proof (canonical_lt _ _ _ _ _ _ Vx Vy L). lia.
      * apply Hlt. pose proof (canonical_lt _ _ _ _ _ _ Vy Vx ltac:(lia)). lia.
    + destruct (Z.compare_spec ex ey) as [E|L|G].
      * subst ey. change (Pos.compare_cont Eq mx my) with (Zpos mx ?= Zpos my).
        destruct (Z.compare_spec (Zpos mx) (Zpos my)) as [E'|L'|G'].
        -- rewrite E'. apply Z.compare_refl.
        -- apply Hlt. apply Z.mul_lt_mono_pos_r; lia.
        -- apply Hgt. apply Z.mul_lt_mono_pos_r; lia.
      * apply Hlt. exact (canonical_lt _ _ _ _ _ _ Vx Vy L).
      * apply Hgt. exact (canonical_lt _ _ _ _ _ _ Vy Vx ltac:(lia)).
Qed.

Lemma shl_align_value (m : positive) (e ez : Z) :
  ez <= e -> Zpos (fst (shl_align m e ez)) = Zpos m * 2 ^ (e - ez).
Proof.
  intros H. unfold shl_align. destruct (ez - e) as [|q|q] eqn:Eq; try lia; cbn [fst].
  - replace (e - ez) with 0 by lia. lia.
  - rewrite iter_xO_value. f_equal. f_equal. lia.
Qed.

(** Adding a non-negative number does not lower a binary64 value. *)
Lemma SFadd_nonneg_Zval (V D : spec_float) :
  valid_binary V = true -> valid_binary D = true ->
  SFleb (S754_zero false) D = true ->
  SFadd prec emax V D <> S754_nan ->
  Zval V <= Zval (SFadd prec emax V D).
Proof.
  intros VV VD HD HR.
  assert (Hhuge : 0 < finite_bound) by (apply Z.pow_pos_nonneg; lia).
  destruct D as [sd|sd| |sd md ed]; try discriminate.
  - (* D is a zero *)
    destruct V as [sv|sv| |sv mv ev]; cbn [SFadd Zval]; try lia.
    destruct sv, sd; cbn [Zval]; lia.
  - (* D is +infinity *)
    destruct sd; [discriminate|].
    destruct V as [sv|sv| |sv mv ev]; cbn [SFadd Zval cond_Zopp] in *; try lia.
    + destruct sv; [congruence | cbn [Zval cond_Zopp]; lia].
    + pose proof (finite_magnitude _ _ _ VV). destruct sv; cbn [cond_Zopp]; lia.
  - (* D is finite and positive *)
    destruct sd; [discriminate|].
    pose proof (finite_magnitude _ _ _ VD) as MD.
    destruct V as [sv|sv| |sv mv ev]; cbn [SFadd Zval cond_Zopp] in *; try lia.
    pose proof (finite_magnitude _ _ _ VV) as MV.
    pose proof (valid_finite_facts _ _ _ VV) as (_ & HeV & _).
    pose proof (valid_finite_facts _ _ _ VD) as (_ & HeD & _).
    set (ez := Z.min ev ed) in *.
    assert (Hez : -1074 <= ez) by (unfold ez; lia).
    rewrite (shl_align_value mv ev ez), (shl_align_value md ed ez) in *
      by (unfold ez; lia).
    set (W := 2 ^ (ez + 1074)).
    assert (HW : 0 < W) by (apply Z.pow_pos_nonneg; lia).
    assert (HvW : Zpos mv * 2 ^ (ev - ez) * W = Zpos mv * 2 ^ (ev + 1074)).
    { unfold W. rewrite <- Z.mul_assoc, <- Z.pow_add_r by (unfold ez; lia).
      f_equal. f_equal. lia. }
    assert (HdW : Zpos md * 2 ^ (ed - ez) * W = Zpos md * 2 ^ (ed + 1074)).
    { unfold W. rewrite <- Z.mul_assoc, <- Z.pow_add_r by (unfold ez; lia).
      f_equal. f_equal. lia. }
    set (av := Zpos mv * 2 ^ (ev - ez)) in *.
    set (ad := Zpos md * 2 ^ (ed - ez)) in *.
    set (AV := Zpos mv * 2 ^ (ev + 1074)) in *.
    set (AD := Zpos md * 2 ^ (ed + 1074)) in *.
    assert (HrepV : representable AV) by (apply (valid_representable sv), VV).
    destruct (cond_Zopp sv av + ad) as [|p|p] eqn:EN; cbn [binary_normalize Zval].
    * destruct sv; cbn [cond_Zopp] in *; lia.
    * destruct (binary_round_monotone false p ez Hez)
        as [[-> _]|(m & e' & -> & He' & Hmono)]; cbn [Zval cond_Zopp].
      -- destruct sv; cbn [cond_Zopp]; lia.
      -- assert (0 < Zpos m * 2 ^ (e' + 1074))
           by (apply Z.mul_pos_pos; [lia | apply Z.pow_pos_nonneg; lia]).
         destruct sv; cbn [cond_Zopp] in *; [lia|].
         apply (Hmono AV HrepV). fold W.
         replace (Zpos p * W) with (AV + AD) by (rewrite <- EN; lia). lia.
    * assert (Hsv : sv = true).
      { destruct sv; [reflexivity|]. cbn [cond_Zopp] in EN.
        assert (0 < av) by (unfold av; apply Z.mul_pos_pos;
                            [lia | apply Z.pow_pos_nonneg; unfold ez; lia]).
        assert (0 < ad) by (unfold ad; apply Z.mul_pos_pos;
                            [lia | apply Z.pow_pos_nonneg; unfold ez; lia]).
        lia. }
      subst sv. cbn [cond_Zopp] in EN |- *.
      assert (HX : Zpos p * W = AV - AD).
      { replace (Zpos p) with (av - ad) by lia. lia. }
      destruct (binary_round_monotone true p ez Hez)
        as [[-> Hall]|(m & e' & -> & He' & Hmono)]; cbn [Zval cond_Zopp].
      -- specialize (Hall AV HrepV). fold W in Hall. lia.
      -- assert (Zpos m * 2 ^ (e' + 1074) <= AV); [|lia].
         apply (Hmono AV HrepV). fold W. lia.
Qed.

(** With [min_delta >= 0], [v + min_delta < b] implies [v < b]. *)
Lemma add_nonneg_ltb (v md b : float) :
  (0 <=? md)%float = true -> (v + md <? b)%float = true -> (v <? b)%float = true.
Proof.
  rewrite FloatAxioms.leb_spec, !FloatAxioms.ltb_spec.
  change (Prim2SF 0) with (S754_zero false).
  pose proof (Prim2SF_valid v) as VV.
  pose proof (Prim2SF_valid md) as VD.
  pose proof (Prim2SF_valid b) as VB.
  pose proof (Prim2SF_valid (v + md)) as VR.
  rewrite add_spec in *. unfold SF64add in *.
  set (V := Prim2SF v) in *. set (D := Prim2SF md) in *. set (B := Prim2SF b) in *.
  intros HD Hlt. unfold SFltb in *.
  assert (HR : SFadd prec emax V D <> S754_nan).
  { intros N. rewrite N in Hlt. discriminate. }
  assert (HB : B <> S754_nan).
  { intros N. rewrite N in Hlt. destruct (SFadd prec emax V D); discriminate. }
  assert (HV : V <> S754_nan).
  { intros N. apply HR. rewrite N. reflexivity. }
  rewrite (SFcompare_Zval _ _ VR VB HR HB) in Hlt.
  rewrite (SFcompare_Zval _ _ VV VB HV HB).
  pose proof (SFadd_nonneg_Zval V D VV VD HD HR) as Hle.
  destruct (Z.compare_spec (Zval (SFadd prec emax V D)) (Zval B)); try discriminate.
  replace (Zval V ?= Zval B) with Lt; [reflexivity|].
  symmetry. apply Z.compare_lt_iff. lia.
Qed.

(** Adding a non-positive number does not raise a binary64 value. *)
Lemma SFadd_nonpos_Zval (V D : spec_float) :
  valid_binary V = true -> valid_binary D = true ->
  SFleb D (S754_zero false) = true ->
  SFadd prec emax V D <> S754_nan ->
  Zval (SFadd prec emax V D) <= Zval V.
Proof.
  intros VV VD HD HR.
  assert (Hhuge : 0 < finite_bound) by (apply Z.pow_pos_nonneg; lia).
  destruct D as [sd|sd| |sd md ed]; try discriminate.
  - (* D is a zero *)
    destruct V as [sv|sv| |sv mv ev]; cbn [SFadd Zval]; try lia.
    destruct sv, sd; cbn [Zval]; lia.
  - (* D is -infinity *)
    destruct sd; [|discriminate].
    destruct V as [sv|sv| |sv mv ev]; cbn [SFadd Zval cond_Zopp] in *; try lia.
    + destruct sv; [cbn [Zval cond_Zopp]; lia | congruence].
    + pose proof (finite_magnitude _ _ _ VV). destruct sv; cbn [cond_Zopp]; lia.
  - (* D is finite and negative *)
    destruct sd; [|discriminate].
    pose proof (finite_magnitude _ _ _ VD) as MD.
    destruct V as [sv|sv| |sv mv ev]; cbn [SFadd Zval cond_Zopp] in *; try lia.
    pose proof (finite_magnitude _ _ _ VV) as MV.
    pose proof (valid_finite_facts _ _ _ VV) as (_ & HeV & _).
    pose proof (valid_finite_facts _ _ _ VD) as (_ & HeD & _).
    set (ez := Z.min ev ed) in *.
    assert (Hez : -1074 <= ez) by (unfold ez; lia).
    rewrite (shl_align_value mv ev ez), (shl_align_value md ed ez) in *
      by (unfold ez; lia).
    set (W := 2 ^ (ez + 1074)).
    assert (HW : 0 < W) by (apply Z.pow_pos_nonneg; lia).
    assert (HvW : Zpos mv * 2 ^ (ev - ez) * W = Zpos mv * 2 ^ (ev + 1074)).
    { unfold W. rewrite <- Z.mul_assoc, <- Z.pow_add_r by (unfold ez; lia).
      f_equal. f_equal. lia. }
    assert (HdW : Zpos md * 2 ^ (ed - ez) * W = Zpos md * 2 ^ (ed + 1074)).
    { unfold W. rewrite <- Z.mul_assoc, <- Z.pow_add_r by (unfold ez; lia).
      f_equal. f_equal. lia. }
    set (av := Zpos mv * 2 ^ (ev - ez)) in *.
    set (ad := Zpos md * 2 ^ (ed - ez)) in *.
    set (AV := Zpos mv * 2 ^ (ev + 1074)) in *.
    set (AD := Zpos md * 2 ^ (ed + 1074)) in *.
    assert (HrepV : representable AV) by (apply (valid_representable sv), VV).
    destruct (cond_Zopp sv av + - ad) as [|p|p] eqn:EN; cbn [binary_normalize Zval].
    + destruct sv; cbn [cond_Zopp] in *; lia.
    + assert (Hsv : sv = false).
      { destruct sv; [|reflexivity]. cbn [cond_Zopp] in EN.
        assert (0 < av) by (unfold av; apply Z.mul_pos_pos;
                            [lia | apply Z.pow_pos_nonneg; unfold ez; lia]).
        assert (0 < ad) by (unfold ad; apply Z.mul_pos_pos;
                            [lia | apply Z.pow_pos_nonneg; unfold ez; lia]).
        lia. }
      subst sv. cbn [cond_Zopp] in EN |- *.
      assert (HX : Zpos p * W = AV - AD).
      { replace (Zpos p) with (av - ad) by lia. lia. }
      destruct (binary_round_monotone false p ez Hez)
        as [[-> Hall]|(m & e' & -> & He' & Hmono)]; cbn [Zval cond_Zopp].
      * specialize (Hall AV HrepV). fold W in Hall. lia.
      * apply (Hmono AV HrepV). fold W. lia.
    + destruct (binary_round_monotone true p ez Hez)
        as [[-> _]|(m & e' & -> & He' & Hmono)]; cbn [Zval cond_Zopp].
      * destruct sv; cbn [cond_Zopp]; lia.
      * assert (0 < Zpos m * 2 ^ (e' + 1074))
          by (apply Z.mul_pos_pos; [lia | apply Z.pow_pos_nonneg; lia]).
        destruct sv; cbn [cond_Zopp] in *; [|lia].
        assert (AV <= Zpos m * 2 ^ (e' + 1074)); [|lia].
        apply (Hmono AV HrepV). fold W.
        replace (Zpos p * W) with (AV + AD) by (rewrite <- HvW, <- HdW; lia). lia.
Qed.

(** The sum of two values is NaN only for a NaN operand or for infinities of
    opposite signs. *)
Lemma SFadd_not_nan (V D : spec_float) :
  valid_binary V = true -> valid_binary D = true ->
  V <> S754_nan -> D <> S754_nan ->
  (forall s, V = S754_infinity s -> D <> S754_infinity (negb s)) ->
  SFadd prec emax V D <> S754_nan.
Proof.
  intros VV VD HV HD Hinf.
  destruct V as [sv|sv| |sv mv ev], D as [sd|sd| |sd md ed]; try congruence;
    cbn [SFadd]; try discriminate.
  - destruct sv, sd; discriminate.
  - specialize (Hinf sv eq_refl). destruct sv, sd; cbn [negb] in *; congruence.
  - pose proof (valid_finite_facts _ _ _ VV) as (_ & HeV & _).
    pose proof (valid_finite_facts _ _ _ VD) as (_ & HeD & _).
    set (ez := Z.min ev ed).
    assert (Hez : -1074 <= ez) by (unfold ez; lia).
    destruct (_ + _) as [|p|p]; cbn [binary_normalize]; [discriminate| |].
    + destruct (binary_round_monotone false p ez Hez)
        as [[-> _]|(m & e' & -> & _)]; discriminate.
    + destruct (binary_round_monotone true p ez Hez)
        as [[-> _]|(m & e' & -> & _)]; discriminate.
Qed.

(** With [min_delta <= 0], [v < b] implies [v + min_delta < b]. *)
Lemma add_nonpos_ltb (v md b : float) :
  (md <=? 0)%float = true -> (v <? b)%float = true -> (v + md <? b)%float = true.
Proof.
  rewrite FloatAxioms.leb_spec, !FloatAxioms.ltb_spec.
  change (Prim2SF 0) with (S754_zero false).
  pose proof (Prim2SF_valid v) as VV.
  pose proof (Prim2SF_valid md) as VD.
  pose proof (Prim2SF_valid b) as VB.
  pose proof (Prim2SF_valid (v + md)) as VR.
  rewrite add_spec in *. unfold SF64add in *.
  set (V := Prim2SF v) in *. set (D := Prim2SF md) in *. set (B := Prim2SF b) in *.
  intros HD Hlt. unfold SFltb in *.
  assert (HV : V <> S754_nan).
  { intros N. rewrite N in Hlt. discriminate. }
  assert (HB : B <> S754_nan).
  { intros N. rewrite N in Hlt. destruct V; discriminate. }
  assert (HDn : D <> S754_nan).
  { intros N. rewrite N in HD. discriminate. }
  assert (HR : SFadd prec emax V D <> S754_nan).
  { apply SFadd_not_nan; try assumption.
    intros s -> ->. destruct s; cbn [negb] in *.
    - discriminate HD.
    - destruct B as [sb|sb| |sb mb eb]; try destruct sb; discriminate. }
  rewrite (SFcompare_Zval _ _ VV VB HV HB) in Hlt.
  rewrite (SFcompare_Zval _ _ VR VB HR HB).
  pose proof (SFadd_nonpos_Zval V D VV VD HD HR) as Hle.
  destruct (Z.compare_spec (Zval V) (Zval B)); try discriminate.
  replace (Zval (SFadd prec emax V D) ?= Zval B) with Lt; [reflexivity|].
  symmetry. apply Z.compare_lt_iff. lia.
Qed.

(** ** The order of binary64 values is transitive *)

Lemma ltb_not_nan_r (a b : float) : (a <? b)%float = true -> is_nan b = false.
Proof.
  rewrite FloatAxioms.ltb_spec. unfold SFltb. intros H.
  apply is_nan_false_spec. intros N. rewrite N in H.
  destruct (Prim2SF a); discriminate.
Qed.

Lemma geb_ltb_trans (w b v : float) :
  geb b w = true -> (b <? v)%float = true -> geb v w = true.
Proof.
  unfold geb. rewrite !FloatAxioms.leb_spec, FloatAxioms.ltb_spec.
  unfold SFleb, SFltb. intros Hwb Hbv.
  pose proof (Prim2SF_valid w) as Vw.
  pose proof (Prim2SF_valid b) as Vb.
  pose proof (Prim2SF_valid v) as Vv.
  assert (Hw : Prim2SF w <> S754_nan) by (intros N; rewrite N in Hwb; discriminate).
  assert (Hb : Prim2SF b <> S754_nan) by (intros N; rewrite N in Hbv; discriminate).
  assert (Hv : Prim2SF v <> S754_nan).
  { intros N. rewrite N in Hbv. destruct (Prim2SF b); discriminate. }
  rewrite (SFcompare_Zval _ _ Vw Vb Hw Hb) in Hwb.
  rewrite (SFcompare_Zval _ _ Vb Vv Hb Hv) in Hbv.
  rewrite (SFcompare_Zval _ _ Vw Vv Hw Hv).
  destruct (Z.compare_spec (Zval (Prim2SF w)) (Zval (Prim2SF b))); try discriminate;
    destruct (Z.compare_spec (Zval (Prim2SF b)) (Zval (Prim2SF v))); try discriminate;
    destruct (Z.compare_spec (Zval (Prim2SF w)) (Zval (Prim2SF v))); try reflexivity; lia.
Qed.

(** ** The early-stopping transition *)

(** A call never changes [tolerance] nor [min_delta]. *)
Lemma early_stop_check_settings (self : EarlyStopping) (v : float) :
  tolerance (snd (early_stop_check self v)) = tolerance self /\
  min_delta (snd (early_stop_check self v)) = min_delta self.
Proof.
  unfold early_stop_check.
  destruct (v + min_delta self <? min_validation_loss self)%float; [split; reflexivity|].
  destruct (geb (v + min_delta self) (min_validation_loss self)); [|split; reflexivity].
  cbn [counter tolerance].
  destruct (counter self + 1 >=? tolerance self); split; reflexivity.
Qed.

(** C1 (as amended): [early_stop_check] has three cases.  When
    [v + min_delta < best], [best := v], the counter is reset and [False] is
    returned.  Otherwise, when neither [v + min_delta] nor [best] is NaN, the
    counter is incremented and [True] is returned exactly when it has reached
    [tolerance].  When one of them is NaN nothing changes and [False] is
    returned.  [tolerance] and [min_delta] are never modified. *)
Theorem early_stop_check_transition (self : EarlyStopping) (v : float) :
  let out := early_stop_check self v in
  tolerance (snd out) = tolerance self /\
  min_delta (snd out) = min_delta self /\
  if (v + min_delta self <? min_validation_loss self)%float then
    min_validation_loss (snd out) = v /\ counter (snd out) = 0 /\ fst out = false
  else if is_nan (v + min_delta self) || is_nan (min_validation_loss self) then
    out = (false, self)
  else
    min_validation_loss (snd out) = min_validation_loss self /\
    counter (snd out) = counter self + 1 /\
    (fst out = true <-> counter self + 1 >= tolerance self).
Proof.
  unfold early_stop_check.
  destruct (v + min_delta self <? min_validation_loss self)%float eqn:Hlt.
  - simpl. auto.
  - rewrite (ltb_false_geb _ _ Hlt).
    destruct (is_nan (v + min_delta self) || is_nan (min_validation_loss self));
      simpl.
    + auto.
    + destruct (counter self + 1 >=? tolerance self) eqn:Hc; simpl;
        repeat split; auto; try lia; try discriminate.
Qed.

(** C1 (as stated) fails on a NaN loss: the [elif] guard is false as well,
    so the counter is not incremented. *)
Lemma spec_transition_fails_on_nan :
  ~ spec_transition (EarlyStopping_init 3 0) nan
      (early_stop_check (EarlyStopping_init 3 0) nan).
Proof.
  unfold spec_transition. vm_compute. intros (_ & _ & _ & H & _). discriminate.
Qed.

(** C4: the end-to-end scenario of the specification. *)
Theorem scenario_flags :
  fst (early_stop_calls (EarlyStopping_init 3 0) scenario_losses)
  = [false; false; false; false; true].
Proof. vm_compute. reflexivity. Qed.

(** ** Sequences of calls *)

Lemma early_stop_calls_app (self : EarlyStopping) (l1 l2 : list float) :
  early_stop_calls self (l1 ++ l2) =
  (fst (early_stop_calls self l1)
     ++ fst (early_stop_calls (snd (early_stop_calls self l1)) l2),
   snd (early_stop_calls (snd (early_stop_calls self l1)) l2)).
Proof.
  revert self. induction l1 as [|v l1 IH]; intros self; simpl.
  - destruct (early_stop_calls self l2); reflexivity.
  - destruct (early_stop_check self v) as [b self'].
    rewrite IH.
    destruct (early_stop_calls self' l1) as [bs1 s1]; simpl.
    destruct (early_stop_calls s1 l2); reflexivity.
Qed.

Lemma is_nan_add_l (v md : float) : is_nan (v + md) = false -> is_nan v = false.
Proof.
  rewrite !is_nan_false_spec, add_spec. intros H N. apply H. rewrite N. reflexivity.
Qed.

(** If [v + min_delta] is below +infinity, so is [v]. *)
Lemma ltb_add_infinity (v md : float) :
  (v + md <? infinity)%float = true -> (v <? infinity)%float = true.
Proof.
  rewrite !FloatAxioms.ltb_spec, add_spec. unfold SFltb, SF64add.
  change (Prim2SF infinity) with (S754_infinity false).
  destruct (Prim2SF v) as [sv|sv| |sv mv ev]; try reflexivity.
  - destruct sv; [reflexivity|].
    destruct (Prim2SF md) as [sd|sd| |sd m e]; try destruct sd; discriminate.
  - destruct (Prim2SF md); discriminate.
Qed.

Lemma check_improved (self : EarlyStopping) (v : float) :
  (min_delta self <=? 0)%float = true ->
  (v <? min_validation_loss self)%float = true ->
  early_stop_check self v =
  (false, mkEarlyStopping (tolerance self) (min_delta self) 0 v).
Proof.
  intros Hmd Hlt. unfold early_stop_check.
  rewrite (add_nonpos_ltb _ _ _ Hmd Hlt). reflexivity.
Qed.

Lemma check_first (t : Z) (md c : float) :
  (c + md <? infinity)%float = true ->
  early_stop_check (EarlyStopping_init t md) c = (false, mkEarlyStopping t md 0 c).
Proof.
  intros Hc. unfold early_stop_check, EarlyStopping_init.
  cbn [min_delta min_validation_loss tolerance]. rewrite Hc. reflexivity.
Qed.

Lemma check_repeated (t : Z) (md c : float) (j : Z) :
  (0 <=? md)%float = true -> is_nan (c + md) = false ->
  early_stop_check (mkEarlyStopping t md j c) c =
  (j + 1 >=? t, mkEarlyStopping t md (j + 1) c).
Proof.
  intros Hmd Hc. unfold early_stop_check. simpl.
  assert (Hlt : (c + md <? c)%float = false).
  { destruct (c + md <? c)%float eqn:E; [|reflexivity].
    rewrite <- (add_nonneg_ltb _ _ _ Hmd E). apply ltb_irrefl. }
  rewrite Hlt, (ltb_false_geb _ _ Hlt), Hc, (is_nan_add_l _ _ Hc).
  destruct (j + 1 >=? t); reflexivity.
Qed.

Lemma calls_repeated (t : Z) (md c : float) (k : nat) :
  (0 <=? md)%float = true -> is_nan (c + md) = false ->
  forall j : Z, j + Z.of_nat k < t ->
  early_stop_calls (mkEarlyStopping t md j c) (repeat c k) =
  (repeat false k, mkEarlyStopping t md (j + Z.of_nat k) c).
Proof.
  intros Hmd Hc. induction k as [|k IH]; intros j Hj.
  - simpl. rewrite Z.add_0_r. reflexivity.
  - simpl repeat. simpl early_stop_calls.
    rewrite (check_repeated _ _ _ _ Hmd Hc).
    rewrite IH by lia.
    replace (j + 1 >=? t) with false by (symmetry; rewrite Z.geb_leb; apply Z.leb_gt; lia).
    f_equal. f_equal. lia.
Qed.

(** C5 (as amended): with [min_delta >= 0], [tolerance >= 1] and a loss [c]
    such that [c + min_delta] is below +infinity, the first call on a
    constant sequence records [c], and the stop signal is raised on the
    [tolerance]-th repeat of [c], which is call number [tolerance + 1];
    every earlier call returns [False], so a constant sequence of length
    [tolerance] raises no stop signal. *)
Theorem constant_losses_stop (t : Z) (md c : float) :
  1 <= t ->
  (0 <=? md)%float = true ->
  (c + md <? infinity)%float = true ->
  fst (early_stop_calls (EarlyStopping_init t md) (repeat c (S (Z.to_nat t))))
  = repeat false (Z.to_nat t) ++ [true] /\
  fst (early_stop_calls (EarlyStopping_init t md) (repeat c (Z.to_nat t)))
  = repeat false (Z.to_nat t).
Proof.
  intros Ht Hmd Hc.
  pose proof (ltb_not_nan_l _ _ Hc) as Hn.
  destruct (Z.to_nat t) as [|k] eqn:Ek; [lia|].
  split.
  - change (repeat c (S (S k))) with (c :: (c :: repeat c k)).
    rewrite (repeat_cons k c).
    cbn [early_stop_calls].
    rewrite (check_first t md c Hc).
    rewrite early_stop_calls_app.
    rewrite (calls_repeated t md c k Hmd Hn 0) by lia.
    cbn [fst snd early_stop_calls].
    rewrite (check_repeated _ _ _ _ Hmd Hn).
    replace (0 + Z.of_nat k + 1 >=? t) with true
      by (symmetry; rewrite Z.geb_leb; apply Z.leb_le; lia).
    reflexivity.
  - cbn [repeat early_stop_calls].
    rewrite (check_first t md c Hc).
    rewrite (calls_repeated t md c k Hmd Hn 0) by lia.
    reflexivity.
Qed.

Lemma constant_losses_stop_witness :
  fst (early_stop_calls (EarlyStopping_init 3 lit_0_1) (repeat lit_0_5 (S (Z.to_nat 3))))
  = repeat false (Z.to_nat 3) ++ [true] /\
  fst (early_stop_calls (EarlyStopping_init 3 lit_0_1) (repeat lit_0_5 (Z.to_nat 3)))
  = repeat false (Z.to_nat 3).
Proof.
  apply (constant_losses_stop 3 lit_0_1 lit_0_5); [lia | reflexivity | reflexivity].
Defined.

(** C5 (as stated) fails: three equal losses with [tolerance = 3] raise no
    stop signal, the first of them being the improvement over +infinity. *)
Lemma constant_losses_of_length_tolerance_no_stop :
  ~ spec_constant_stop 3 0 lit_0_5.
Proof.
  unfold spec_constant_stop. vm_compute. intuition discriminate.
Qed.

(** A loss below some other loss is below +infinity. *)
Lemma ltb_below_infinity (a b : float) :
  (a <? b)%float = true -> (a <? infinity)%float = true.
Proof.
  rewrite !FloatAxioms.ltb_spec. unfold SFltb.
  change (Prim2SF infinity) with (S754_infinity false).
  destruct (Prim2SF a) as [sa|sa| |sa ma ea], (Prim2SF b) as [sb|sb| |sb mb eb];
    simpl; try discriminate; try reflexivity;
    destruct sa; try reflexivity; try discriminate;
    destruct sb; discriminate.
Qed.

Lemma calls_decreasing (t : Z) (md : float) (l : list float) :
  (md <=? 0)%float = true ->
  forall (j : Z) (b : float),
  strictly_decreasing (b :: l) = true ->
  fst (early_stop_calls (mkEarlyStopping t md j b) l) = repeat false (length l).
Proof.
  intros Hmd. induction l as [|v l IH]; intros j b Hdec.
  - reflexivity.
  - cbn [strictly_decreasing] in Hdec. apply andb_prop in Hdec as [Hv Hrest].
    cbn [early_stop_calls].
    rewrite check_improved by assumption. cbn [tolerance min_delta].
    specialize (IH 0 v Hrest).
    destruct (early_stop_calls (mkEarlyStopping t md 0 v) l) as [bs s'].
    cbn [fst] in *. rewrite IH. reflexivity.
Qed.

Lemma not_In_repeat_false (n : nat) : ~ In true (repeat false n).
Proof.
  intros H. apply repeat_spec in H. discriminate.
Qed.

(** C6 (as amended): with [min_delta <= 0], a strictly decreasing sequence
    of losses never raises the stop signal, provided its first loss is below
    +infinity or [tolerance >= 2]. *)
Theorem decreasing_losses_never_stop (t : Z) (md : float) (l : list float) :
  (md <=? 0)%float = true ->
  strictly_decreasing l = true ->
  head_below_infinity l = true \/ 2 <= t ->
  ~ In true (fst (early_stop_calls (EarlyStopping_init t md) l)).
Proof.
  intros Hmd Hdec Hhead.
  destruct l as [|v l]; [simpl; tauto|].
  destruct (v <? infinity)%float eqn:Hv.
  - unfold EarlyStopping_init.
    rewrite (calls_decreasing t md (v :: l) Hmd 0 infinity).
    + apply not_In_repeat_false.
    + cbn [strictly_decreasing]. rewrite Hv. exact Hdec.
  - destruct Hhead as [Hhead|Ht]; [simpl in Hhead; congruence|].
    assert (Hrest : strictly_decreasing (infinity :: l) = true).
    { destruct l as [|w l]; [reflexivity|].
      cbn [strictly_decreasing] in Hdec |- *.
      apply andb_prop in Hdec as [Hw Hrest].
      rewrite (ltb_below_infinity _ _ Hw). exact Hrest. }
    cbn [early_stop_calls]. unfold early_stop_check, EarlyStopping_init.
    cbn [min_delta min_validation_loss tolerance counter].
    assert (Hv' : (v + md <? infinity)%float = false).
    { destruct (v + md <? infinity)%float eqn:E; [|reflexivity].
      rewrite <- Hv. symmetry. exact (ltb_add_infinity _ _ E). }
    rewrite Hv'.
    replace (0 + 1 >=? t) with false
      by (symmetry; rewrite Z.geb_leb; apply Z.leb_gt; lia).
    destruct (geb (v + md) infinity).
    + pose proof (calls_decreasing t md l Hmd (0 + 1) infinity Hrest) as H.
      destruct (early_stop_calls (mkEarlyStopping t md (0 + 1) infinity) l) as [bs s'].
      cbn [fst] in *. rewrite H. intros [F|F]; [discriminate|].
      exact (not_In_repeat_false _ F).
    + pose proof (calls_decreasing t md l Hmd 0 infinity Hrest) as H.
      destruct (early_stop_calls (mkEarlyStopping t md 0 infinity) l) as [bs s'].
      cbn [fst] in *. rewrite H. intros [F|F]; [discriminate|].
      exact (not_In_repeat_false _ F).
Qed.

Lemma decreasing_losses_never_stop_witness :
  ~ In true (fst (early_stop_calls (EarlyStopping_init 1 0) [1.0; 0.5; 0.25]%float)).
Proof.
  apply (decreasing_losses_never_stop 1 0 [1.0; 0.5; 0.25]%float);
    [reflexivity | reflexivity | left; reflexivity].
Defined.

(** C6 (as stated) fails when [min_delta > 0]: 0.95 is below 1.0 but not by
    more than 0.1, so it counts as a non-improvement. *)
Lemma decreasing_losses_stop_with_min_delta :
  ~ spec_decreasing_never_stops 1 lit_0_1 [1.0%float; lit_0_95].
Proof.
  unfold spec_decreasing_never_stops. intros H. apply H.
  - vm_compute. reflexivity.
  - vm_compute. auto.
Qed.

(** ** Invariants of the early-stopping state *)

Lemma counter_branches (self : EarlyStopping) (l : list float) :
  counter (snd (early_stop_calls self l))
  = not_improved_run (counter self) (branches self l).
Proof.
  revert self. induction l as [|v l IH]; intros self; [reflexivity|].
  cbn [early_stop_calls branches].
  specialize (IH (snd (early_stop_check self v))).
  destruct (early_stop_check self v) as [b self'] eqn:E.
  cbn [snd] in IH.
  destruct (early_stop_calls self' l) as [bs s'']. cbn [snd] in *.
  rewrite IH. clear IH.
  unfold early_stop_check in E. unfold branch_of.
  destruct (v + min_delta self <? min_validation_loss self)%float.
  - inversion E; subst. reflexivity.
  - destruct (geb (v + min_delta self) (min_validation_loss self)).
    + cbn [counter tolerance] in E.
      destruct (counter self + 1 >=? tolerance self); inversion E; subst; reflexivity.
    + inversion E; subst. reflexivity.
Qed.

(** C9 (as amended): a call sets [min_validation_loss] to the new loss [v]
    exactly when [v + min_delta < min_validation_loss], and leaves it
    unchanged otherwise; with [min_delta >= 0] the new value is then below
    the old one, so the stored loss never rises.  After any sequence of calls
    the counter is the number of calls that took the non-improving branch
    since the last improvement (or since construction); calls whose
    comparison involves a NaN are not counted. *)
Theorem early_stopping_invariant (t : Z) (md : float) (l : list float) (v : float) :
  let self := snd (early_stop_calls (EarlyStopping_init t md) l) in
  let self' := snd (early_stop_check self v) in
  ((v + md <? min_validation_loss self)%float = true ->
   min_validation_loss self' = v /\
   ((0 <=? md)%float = true -> (v <? min_validation_loss self)%float = true)) /\
  ((v + md <? min_validation_loss self)%float = false ->
   min_validation_loss self' = min_validation_loss self) /\
  ((0 <=? md)%float = true ->
   min_validation_loss self' = min_validation_loss self \/
   (min_validation_loss self' <? min_validation_loss self)%float = true) /\
  min_delta self = md /\
  counter self = not_improved_run 0 (branches (EarlyStopping_init t md) l).
Proof.
  intros self self'.
  assert (Hmd : min_delta self = md).
  { subst self.
    assert (G : forall s0, min_delta (snd (early_stop_calls s0 l)) = min_delta s0).
    { induction l as [|w l IH]; intros s0; [reflexivity|].
      cbn [early_stop_calls].
      pose proof (early_stop_check_settings s0 w) as (_ & Hm).
      specialize (IH (snd (early_stop_check s0 w))).
      destruct (early_stop_check s0 w) as [b s1]. cbn [snd] in *.
      destruct (early_stop_calls s1 l) as [bs s2]. cbn [snd] in *. congruence. }
    rewrite G. reflexivity. }
  assert (Hup : (v + md <? min_validation_loss self)%float = true ->
                min_validation_loss self' = v).
  { intros Hlt. subst self'. unfold early_stop_check. rewrite Hmd, Hlt. reflexivity. }
  assert (Hkeep : (v + md <? min_validation_loss self)%float = false ->
                  min_validation_loss self' = min_validation_loss self).
  { intros Hlt. subst self'. unfold early_stop_check. rewrite Hmd, Hlt.
    destruct (geb (v + md) (min_validation_loss self)); [|reflexivity].
    match goal with |- context [if ?c then _ else _] => destruct c end; reflexivity. }
  split; [|split; [exact Hkeep|split; [|split; [exact Hmd|]]]].
  - intros Hlt. split; [exact (Hup Hlt)|].
    intros Hz. exact (add_nonneg_ltb _ _ _ Hz Hlt).
  - intros Hz.
    destruct (v + md <? min_validation_loss self)%float eqn:Hlt.
    + right. rewrite (Hup eq_refl). exact (add_nonneg_ltb _ _ _ Hz Hlt).
    + left. exact (Hkeep eq_refl).
  - subst self. rewrite counter_branches. reflexivity.
Qed.

(** C9 (as stated) fails twice: a negative [min_delta] lets
    [min_validation_loss] rise from 0.5 to 1.0, and a call with a NaN loss is
    a non-improving call that the counter does not count. *)
Lemma early_stopping_invariant_fails :
  ~ spec_loss_nonincreasing
      (snd (early_stop_calls (EarlyStopping_init 3 (-1)) [lit_0_5])) 1 /\
  ~ spec_counter_invariant 3 0 [lit_0_5; nan].
Proof.
  split.
  - unfold spec_loss_nonincreasing. vm_compute. discriminate.
  - unfold spec_counter_invariant. vm_compute. discriminate.
Qed.

(** ** The 80/20 split *)

Lemma py_slice_in_range {A : Type} (l : list A) (a b : Z) :
  0 <= a <= b -> b <= Z.of_nat (length l) ->
  py_slice l a b = firstn (Z.to_nat (b - a)) (skipn (Z.to_nat a) l).
Proof.
  intros Hab Hb. unfold py_slice.
  replace (a <? 0) with false by (symmetry; apply Z.ltb_ge; lia).
  replace (b <? 0) with false by (symmetry; apply Z.ltb_ge; lia).
  rewrite !Z.min_l by lia. reflexivity.
Qed.

(** C7: for every training partition of [n < 2^50] samples, in
    each of the three scripts, the split succeeds and yields two subsets of
    the same dataset whose index lists are disjoint, have
    [floor(0.8 n)] and [n - floor(0.8 n)] elements, and together are a
    permutation of [0 .. n-1]. *)
Theorem split_80_20 (s : script) (disk : bool -> Z) (randperm : Z -> list Z) :
  0 <= disk true < 2 ^ 50 ->
  randperm (disk true) ≡ₚ seqZ 0 (disk true) ->
  exists trainset valset testset,
    main_datasets s disk randperm = Ok (trainset, valset, testset) /\
    Z.of_nat (length (indices trainset)) = 4 * disk true / 5 /\
    Z.of_nat (length (indices valset)) = disk true - 4 * disk true / 5 /\
    Z.of_nat (length (indices trainset)) + Z.of_nat (length (indices valset))
      = disk true /\
    (forall i, i ∈ indices trainset -> i ∉ indices valset) /\
    indices trainset ++ indices valset ≡ₚ seqZ 0 (disk true).
Proof.
  intros Hn Hperm. set (n := disk true) in *.
  set (q := 4 * n / 5).
  assert (Hq : 0 <= q <= n).
  { unfold q. split; [apply Z.div_pos; lia|].
    apply Z.div_le_upper_bound; lia. }
  assert (Hlen : Z.of_nat (length (randperm n)) = n).
  { rewrite (Permutation_length Hperm), length_seqZ. lia. }
  unfold main_datasets. cbn [CIFAR100 ds_len]. fold n.
  rewrite (train_size_of_exact n Hn). cbn [mbind result_bind]. fold q.
  unfold random_split. cbn [sumZ fold_right ds_len CIFAR100]. fold n.
  replace (q + (n - q + 0)) with n by lia.
  rewrite Z.eqb_refl.
  cbn [accumulate zip_with mbind result_bind].
  replace (0 + q - q) with 0 by lia.
  replace (0 + q + (n - q) - (n - q)) with q by lia.
  replace (0 + q + (n - q)) with n by lia.
  replace (0 + q) with q by lia.
  rewrite !py_slice_in_range by lia.
  change (Z.to_nat 0) with 0%nat. rewrite drop_0, Z.sub_0_r.
  set (perm := randperm n) in *.
  assert (Hdrop : firstn (Z.to_nat (n - q)) (skipn (Z.to_nat q) perm)
                  = skipn (Z.to_nat q) perm).
  { apply take_ge. rewrite length_drop. lia. }
  rewrite Hdrop.
  eexists _, _, _. split; [reflexivity|]. cbn [indices].
  assert (Hl1 : Z.of_nat (length (firstn (Z.to_nat q) perm)) = q).
  { rewrite length_take. lia. }
  assert (Hl2 : Z.of_nat (length (skipn (Z.to_nat q) perm)) = n - q).
  { rewrite length_drop. lia. }
  assert (Hall : firstn (Z.to_nat q) perm ++ skipn (Z.to_nat q) perm ≡ₚ seqZ 0 n).
  { rewrite take_drop. exact Hperm. }
  repeat split; try assumption; try lia.
  assert (Hnd : NoDup (firstn (Z.to_nat q) perm ++ skipn (Z.to_nat q) perm)).
  { rewrite Hall. apply NoDup_seqZ. }
  apply NoDup_app in Hnd as (_ & Hdisj & _). exact Hdisj.
Qed.

Lemma split_80_20_witness :
  exists trainset valset testset,
    main_datasets soph_cnn (fun _ => 50000) (seqZ 0)
      = Ok (trainset, valset, testset) /\
    Z.of_nat (length (indices trainset)) = 4 * 50000 / 5 /\
    Z.of_nat (length (indices valset)) = 50000 - 4 * 50000 / 5 /\
    Z.of_nat (length (indices trainset)) + Z.of_nat (length (indices valset))
      = 50000 /\
    (forall i, i ∈ indices trainset -> i ∉ indices valset) /\
    indices trainset ++ indices valset ≡ₚ seqZ 0 50000.
Proof.
  apply (split_80_20 soph_cnn (fun _ => 50000) (seqZ 0)).
  - lia.
  - reflexivity.
Defined.

(** ** Transforms of the validation and test partitions *)

Section TransformFacts.
Context `{Vision}.

(** A pipeline without a random transform ignores the generator. *)
Lemma Compose_deterministic (ts : list transform) :
  forallb (fun t => negb (is_random t)) ts = true ->
  forall (g1 g2 : Generator) (x : Sample),
    fst (Compose ts g1 x) = fst (Compose ts g2 x).
Proof.
  induction ts as [|t ts IH]; intros Hts g1 g2 x; [reflexivity|].
  cbn [forallb] in Hts. apply andb_prop in Hts as [Ht Hts].
  destruct t; try discriminate; cbn [Compose apply_transform]; apply IH; exact Hts.
Qed.

Lemma transform_test_deterministic (s : script) (g1 g2 : Generator) (x : Sample) :
  fst (Compose (transform_test s) g1 x) = fst (Compose (transform_test s) g2 x).
Proof. apply Compose_deterministic. destruct s; reflexivity. Qed.
End TransformFacts.

(** The validation subset is a [Subset] of the dataset built with
    [transform_train]; only the test set is built with [transform_test]. *)
Lemma main_datasets_transforms (s : script) (disk : bool -> Z)
  (randperm : Z -> list Z) (trainset valset : Subset) (testset : Dataset) :
  main_datasets s disk randperm = Ok (trainset, valset, testset) ->
  Subset_transform trainset = transform_train s /\
  Subset_transform valset = transform_train s /\
  ds_transform testset = transform_test s.
Proof.
  unfold main_datasets, random_split.
  destruct (train_size_of _) as [ts|e]; cbn [mbind result_bind]; [|discriminate].
  destruct (_ =? _); cbn [mbind result_bind]; [|discriminate].
  cbn [accumulate zip_with]. intros E. inversion E; subst. auto.
Qed.

(** C2, the part that holds: samples of the test partition, in the three
    scripts, and samples of the validation partition in simple_cnn.py, are
    preprocessed without any random draw. *)
Lemma evaluation_transforms_deterministic `{Vision} (s : script) (disk : bool -> Z)
  (randperm : Z -> list Z) (trainset valset : Subset) (testset : Dataset)
  (g1 g2 : Generator) (x : Sample) :
  main_datasets s disk randperm = Ok (trainset, valset, testset) ->
  fst (Compose (ds_transform testset) g1 x) = fst (Compose (ds_transform testset) g2 x) /\
  (s = simple_cnn ->
   fst (Compose (Subset_transform valset) g1 x)
   = fst (Compose (Subset_transform valset) g2 x)).
Proof.
  intros (_ & Hv & Ht)%main_datasets_transforms. rewrite Hv, Ht. split.
  - apply transform_test_deterministic.
  - intros ->. apply Compose_deterministic. reflexivity.
Qed.

(** C2, where the code departs from it: in soph_cnn.py and transfer_cnn.py a
    validation sample goes through [RandomHorizontalFlip] and
    [RandomRotation(15)].  With the draws 0.25, 0.5 it is flipped and rotated
    by 0 degrees, with the draws 0.75, 0.5 it is only rotated by 0 degrees. *)
Theorem validation_samples_are_augmented `{Vision} (s : script) (disk : bool -> Z)
  (randperm : Z -> list Z) (trainset valset : Subset) (testset : Dataset)
  (x : Sample) :
  s <> simple_cnn ->
  main_datasets s disk randperm = Ok (trainset, valset, testset) ->
  existsb is_random (Subset_transform valset) = true /\
  exists y : Sample,
    fst (Compose (Subset_transform valset) (draws_of [0.25; 0.5]%float) x)
    = rotate 0 (hflip y) /\
    fst (Compose (Subset_transform valset) (draws_of [0.75; 0.5]%float) x)
    = rotate 0 y.
Proof.
  intros Hs (_ & Hv & _)%main_datasets_transforms. rewrite Hv.
  destruct s; [congruence| |]; (split; [reflexivity|]);
    eexists; split; reflexivity.
Qed.

Lemma validation_samples_are_augmented_witness :
  existsb is_random
    (Subset_transform (mkSubset (CIFAR100 (fun _ => 10) "./data" true true
                                   (transform_train transfer_cnn)) [8; 9])) = true /\
  exists y : list Z,
    fst (Compose (H := row_vision)
           (Subset_transform (mkSubset (CIFAR100 (fun _ => 10) "./data" true true
                                          (transform_train transfer_cnn)) [8; 9]))
           (draws_of [0.25; 0.5]%float) [1; 2; 3])
    = rev y /\
    fst (Compose (H := row_vision)
           (Subset_transform (mkSubset (CIFAR100 (fun _ => 10) "./data" true true
                                          (transform_train transfer_cnn)) [8; 9]))
           (draws_of [0.75; 0.5]%float) [1; 2; 3])
    = y.
Proof.
  apply (validation_samples_are_augmented (H := row_vision) transfer_cnn
           (fun _ => 10) (seqZ 0)
           (mkSubset (CIFAR100 (fun _ => 10) "./data" true true
                        (transform_train transfer_cnn)) [0; 1; 2; 3; 4; 5; 6; 7])
           (mkSubset (CIFAR100 (fun _ => 10) "./data" true true
                        (transform_train transfer_cnn)) [8; 9])
           (CIFAR100 (fun _ => 10) "./data" false true (transform_test transfer_cnn))
           [1; 2; 3]).
  - discriminate.
  - vm_compute. reflexivity.
Defined.


(** ** An accuracy is never NaN *)

(** The shifts and the rounding of a mantissa that is not negative keep it
    so: rounding never produces a NaN. *)
Lemma shr_1_nonneg (mrs : shr_record) : 0 <= shr_m mrs -> 0 <= shr_m (shr_1 mrs).
Proof. destruct mrs as [m r s]. destruct m as [|[p|p|]|p]; cbn; lia. Qed.

Lemma iter_pos_shr_1_nonneg (n : positive) :
  forall mrs : shr_record, 0 <= shr_m mrs -> 0 <= shr_m (SpecFloat.iter_pos shr_1 n mrs).
Proof.
  induction n as [n IH|n IH|]; intros mrs Hm; cbn [SpecFloat.iter_pos].
  - apply IH, IH, shr_1_nonneg, Hm.
  - apply IH, IH, Hm.
  - apply shr_1_nonneg, Hm.
Qed.

Lemma shr_fexp_nonneg (m e : Z) (l : location) :
  0 <= m -> 0 <= shr_m (fst (shr_fexp prec emax m e l)).
Proof.
  intros Hm. unfold shr_fexp, shr.
  assert (H0 : 0 <= shr_m (shr_record_of_loc m l))
    by (destruct l as [|[| |]]; exact Hm).
  destruct (fexp prec emax (Zdigits2 m + e) - e) as [|p|p]; cbn [fst];
    [exact H0 | apply iter_pos_shr_1_nonneg; exact H0 | exact H0].
Qed.

Lemma round_nearest_even_nonneg (m : Z) (l : location) :
  0 <= m -> 0 <= round_nearest_even m l.
Proof.
  intros Hm. destruct l as [|[| |]]; cbn [round_nearest_even]; try lia.
  destruct (Z.even m); lia.
Qed.

Lemma binary_round_aux_not_nan (s : bool) (m e : Z) (l : location) :
  0 <= m -> binary_round_aux prec emax s m e l <> S754_nan.
Proof.
  intros Hm. unfold binary_round_aux.
  pose proof (shr_fexp_nonneg m e l Hm) as H1.
  destruct (shr_fexp prec emax m e l) as [mrs' e']. cbn [fst] in H1.
  pose proof (shr_fexp_nonneg _ e' loc_Exact
                (round_nearest_even_nonneg _ (loc_of_shr_record mrs') H1)) as H2.
  destruct (shr_fexp prec emax _ e' loc_Exact) as [mrs'' e'']. cbn [fst] in H2.
  destruct (shr_m mrs'') as [|q|q]; try lia; [discriminate|].
  destruct (e'' <=? emax - prec); discriminate.
Qed.

(** The float of a positive Python int is a positive finite number. *)
Lemma float_of_int_pos_finite (p : positive) (f : float) :
  float_of_int (Zpos p) = Ok f ->
  exists (m : positive) (e : Z), Prim2SF f = S754_finite false m e.
Proof.
  intros Hf.
  destruct (Z.lt_ge_cases (Zpos p) (2 ^ 53)) as [Hp|Hp].
  - destruct (float_of_int_exact p Hp) as (f' & mz & Hf' & HS & _).
    rewrite Hf' in Hf. inversion Hf; subst. eauto.
  - pose proof (digits_bounds p) as [Dlo Dhi].
    set (d := Zpos (digits2_pos p)) in *.
    assert (Hd : 54 <= d).
    { destruct (Z.lt_ge_cases d 54) as [L|L]; [|exact L].
      assert (2 ^ d <= 2 ^ 53) by (apply Z.pow_le_mono_r; lia). lia. }
    unfold float_of_int in Hf. cbn [binary_normalize] in Hf. unfold binary_round in Hf.
    rewrite Z.add_0_r in Hf. fold d in Hf.
    assert (HF : fexp prec emax d = d - 53)
      by (unfold fexp, SpecFloat.emin, prec, emax; lia).
    rewrite HF in Hf.
    assert (Hal : shl_align p 0 (d - 53) = (p, 0)).
    { unfold shl_align. rewrite Z.sub_0_r. destruct (d - 53) eqn:E; try lia; reflexivity. }
    rewrite Hal in Hf.
    destruct (binary_round_aux_shift false p 0) as (mm & Hmm & _ & Hr).
    { fold d. lia. }
    { fold d. lia. }
    fold d in Hr. rewrite Z.add_0_r in Hr. rewrite Hr in Hf.
    assert (Hvalid : forall (m : positive) (e : Z),
               Zpos (digits2_pos m) = 53 -> 0 <= e <= 971 ->
               Prim2SF (SF2Prim (S754_finite false m e)) = S754_finite false m e).
    { intros m e Hdm He. apply Prim2SF_SF2Prim.
      unfold valid_binary, bounded, canonical_mantissa. rewrite Hdm.
      apply andb_true_intro. split.
      - apply Z.eqb_eq. unfold fexp, SpecFloat.emin, prec, emax. lia.
      - apply Z.leb_le. unfold prec, emax. lia. }
    destruct (Z.ltb_spec (Zpos mm) (2 ^ 53)) as [Hlt|Hge].
    + destruct (Z.leb_spec (d - 53) 971) as [He|He]; [|discriminate Hf].
      cbv iota in Hf.
      assert (Ef : f = SF2Prim (S754_finite false mm (d - 53))) by congruence.
      rewrite Ef. exists mm, (d - 53). apply Hvalid; [|lia].
      apply digits_unique. change (53 - 1) with 52. lia.
    + destruct (Z.leb_spec (d - 53 + 1) 971) as [He|He]; [|discriminate Hf].
      cbv iota in Hf.
      assert (Ef : f = SF2Prim (S754_finite false 4503599627370496 (d - 53 + 1)))
        by congruence.
      rewrite Ef. exists 4503599627370496%positive, (d - 53 + 1).
      apply Hvalid; [reflexivity | lia].
Qed.

(** [100.0 * correct / total] for counts that are not negative. *)
Lemma percentage_not_nan (c t : Z) (x acc : float) :
  0 <= c -> 0 <= t ->
  float_mul_int 100 c = Ok x -> float_div_int x t = Ok acc ->
  is_nan acc = false.
Proof.
  intros Hc Ht Hmul Hdiv. apply is_nan_false_spec.
  unfold float_div_int in Hdiv.
  destruct (Z.eqb_spec t 0) as [->|Hne]; [discriminate Hdiv|].
  destruct t as [|t|t]; try lia.
  destruct (float_of_int (Zpos t)) as [g|e] eqn:Hg;
    cbn [mbind result_bind] in Hdiv; [|discriminate].
  inversion Hdiv; subst acc. clear Hdiv.
  destruct (float_of_int_pos_finite t g Hg) as (mt & et & HSg).
  unfold float_mul_int in Hmul.
  destruct (float_of_int c) as [f|e] eqn:Hf;
    cbn [mbind result_bind] in Hmul; [|discriminate].
  inversion Hmul; subst x. clear Hmul.
  rewrite div_spec, mul_spec, HSg.
  assert (H100 : exists m e, Prim2SF 100 = S754_finite false m e)
    by (eexists _, _; vm_compute; reflexivity).
  destruct H100 as (m100 & e100 & ->).
  assert (Hprod : SF64mul (S754_finite false m100 e100) (Prim2SF f) <> S754_nan).
  { destruct c as [|c|c]; try lia.
    - unfold float_of_int in Hf. cbn [binary_normalize] in Hf. cbv iota in Hf.
      assert (Ef : f = SF2Prim (S754_zero false)) by congruence.
      rewrite Ef, Prim2SF_SF2Prim by reflexivity. discriminate.
    - destruct (float_of_int_pos_finite c f Hf) as (mc & ec & ->).
      unfold SF64mul, SFmul. apply binary_round_aux_not_nan. lia. }
  unfold SF64div.
  destruct (SF64mul (S754_finite false m100 e100) (Prim2SF f)) as [s|s| |s m e];
    try congruence; cbn [SFdiv]; try discriminate.
  unfold SFdiv_core_binary.
  set (e' := Z.min _ _). set (m' := match _ with Zpos _ => _ | Z0 => _ | Zneg _ => 0 end).
  assert (Hm' : 0 <= m').
  { subst m'. destruct (e - et - e') as [|q|q]; try lia.
    rewrite Z.shiftl_mul_pow2 by lia.
    apply Z.mul_nonneg_nonneg; [lia | apply Z.pow_nonneg; lia]. }
  pose proof (Z_div_mod m' (Zpos mt) ltac:(lia)) as Hdm.
  destruct (Z.div_eucl m' (Zpos mt)) as [q r].
  apply binary_round_aux_not_nan. nia.
Qed.

(** ** The Python ints that convert to a float *)

(** An integer of more than 53 bits is rounded to 53 bits. *)
Lemma binary_normalize_large (P : positive) :
  2 ^ 53 <= Zpos P ->
  let e1 := Zpos (digits2_pos P) - 53 in
  exists mm : positive,
    2 ^ 52 <= Zpos mm <= 2 ^ 53 /\
    2 * Z.abs (Zpos P - Zpos mm * 2 ^ e1) <= 2 ^ e1 /\
    binary_normalize prec emax (Zpos P) 0 false
    = if Zpos mm <? 2 ^ 53
      then (if e1 <=? 971 then S754_finite false mm e1 else S754_infinity false)
      else (if e1 + 1 <=? 971 then S754_finite false 4503599627370496 (e1 + 1)
            else S754_infinity false).
Proof.
  intros HP e1. pose proof (digits_bounds P) as [Dlo Dhi].
  set (DP := Zpos (digits2_pos P)) in *.
  assert (HDP : 54 <= DP).
  { destruct (Z.le_gt_cases 54 DP) as [|Hlt]; [assumption|].
    assert (2 ^ DP <= 2 ^ 53) by (apply Z.pow_le_mono_r; lia). lia. }
  cbn [binary_normalize]. unfold binary_round. rewrite Z.add_0_r. fold DP.
  assert (Hfe : fexp prec emax DP = DP - 53)
    by (unfold fexp, SpecFloat.emin, prec, emax; lia).
  rewrite Hfe.
  assert (Hal : shl_align P 0 (DP - 53) = (P, 0)).
  { unfold shl_align. destruct (DP - 53 - 0) as [|q|q] eqn:Eq; try lia; reflexivity. }
  rewrite Hal.
  destruct (binary_round_aux_shift false P 0) as (mm & Hmm & Herr & Heq);
    fold DP; rewrite ?Z.add_0_r; try lia.
  fold DP in Herr, Heq. rewrite Z.add_0_r, Z.sub_0_r in Herr.
  rewrite Z.add_0_r in Heq.
  exists mm. split; [exact Hmm|]. split; [exact Herr|]. exact Heq.
Qed.

(** [float(n)] raises [OverflowError] exactly from [float_int_bound] on. *)
Lemma float_of_int_is_ok_iff (n : Z) :
  0 <= n -> (is_ok (float_of_int n) = true <-> n < float_int_bound).
Proof.
  intros Hn.
  destruct (Z.eq_dec n float_int_bound) as [->|Hne].
  { split; [vm_compute; discriminate | lia]. }
  destruct (Z.lt_ge_cases n (2 ^ 53)) as [Hsmall|Hbig].
  { split; [intros _; unfold float_int_bound; lia|].
    intros _. apply float_of_int_is_ok. lia. }
  destruct n as [|P|P]; try lia.
  destruct (binary_normalize_large P Hbig) as (mm & Hmm & Herr & Heq).
  pose proof (digits_bounds P) as [Dlo Dhi].
  set (DP := Zpos (digits2_pos P)) in *.
  unfold float_of_int. rewrite Heq. clear Heq.
  destruct (Z.lt_ge_cases (Zpos P) float_int_bound) as [Hlt|Hge].
  - (* below the bound: at most 1024 bits, and never rounded up to 2^1024 *)
    split; [intros _; exact Hlt|]. intros _.
    assert (HDP : DP <= 1024).
    { destruct (Z.le_gt_cases DP 1024) as [|Hgt]; [assumption|].
      assert (2 ^ 1024 <= 2 ^ (DP - 1)) by (apply Z.pow_le_mono_r; lia).
      unfold float_int_bound in Hlt. lia. }
    destruct (Zpos mm <? 2 ^ 53) eqn:Em.
    + replace (DP - 53 <=? 971) with true by (symmetry; apply Z.leb_le; lia).
      reflexivity.
    + apply Z.ltb_ge in Em.
      destruct (Z.leb_spec (DP - 53 + 1) 971) as [|Hover]; [reflexivity|].
      exfalso. assert (DP = 1024) by lia.
      replace (DP - 53) with 971 in Herr by lia.
      unfold float_int_bound in Hlt. lia.
  - (* above the bound: the rounding reaches 2^1024 *)
    split; [|intros Hlt; lia]. intros Hok. exfalso.
    assert (HDP : 1024 <= DP).
    { destruct (Z.le_gt_cases 1024 DP) as [|Hgt]; [assumption|].
      assert (2 ^ DP <= 2 ^ 1023) by (apply Z.pow_le_mono_r; lia).
      unfold float_int_bound in Hge. lia. }
    destruct (Zpos mm <? 2 ^ 53) eqn:Em.
    + apply Z.ltb_lt in Em.
      destruct (Z.leb_spec (DP - 53) 971) as [Hfit|Hover]; [|discriminate Hok].
      replace (DP - 53) with 971 in Herr by lia.
      unfold float_int_bound in Hge, Hne. lia.
    + destruct (Z.leb_spec (DP - 53 + 1) 971) as [Hfit|Hover]; [lia | discriminate Hok].
Qed.

Lemma float_of_int_in_range (n : Z) :
  0 <= n < float_int_bound -> is_ok (float_of_int n) = true.
Proof. intros [Hn Hlt]. apply float_of_int_is_ok_iff; assumption. Qed.

(** ** The accuracy-gated checkpoint *)

Section CheckpointFacts.
Context `{Torch} {T : Type} `{LossScalar T}.

Implicit Types (st : RunState (T:=T)) (config : Config)
  (criterion : Outputs -> list Z -> result T) (trainloader valloader : Z -> list Batch).

(** An epoch that runs to its end: [train] and [validate] have returned,
    and the state after the epoch is made of what they returned. *)
Lemma epoch_step_inv config criterion trainloader valloader st epoch st' :
  epoch_step config criterion trainloader valloader st epoch = Ok st' ->
  exists model1 optimizer1 train_loss train_acc val_loss val_acc,
    train epoch (model st) (trainloader epoch) (optimizer st) criterion config
    = Ok (model1, optimizer1, (train_loss, train_acc)) /\
    validate model1 (valloader epoch) criterion (device config)
    = Ok (model st', (val_loss, val_acc)) /\
    optimizer st' = scheduler_step optimizer1 /\
    let log := WandbLog (epoch + 1) train_loss train_acc val_loss val_acc
                 (current_lr (optimizer st')) in
    if (best_val_acc st <? val_acc)%float then
      events st' = events st ++ [log; TorchSave "best_model.pth";
                                 WandbSave "best_model.pth"] /\
      files st' = <["best_model.pth" := state_dict (parameters (model st'))]> (files st) /\
      best_val_acc st' = val_acc
    else
      events st' = events st ++ [log] /\
      files st' = files st /\
      best_val_acc st' = best_val_acc st.
Proof.
  unfold epoch_step, run_epoch.
  destruct (train epoch (model st) (trainloader epoch) (optimizer st) criterion config)
    as [[[model1 optimizer1] [train_loss train_acc]]|e] eqn:Htrain;
    cbn [mbind result_bind]; [|discriminate].
  destruct (validate model1 (valloader epoch) criterion (device config))
    as [[model2 [val_loss val_acc]]|e] eqn:Hval;
    cbn [mbind result_bind]; [|discriminate].
  intros E. inversion E; subst; clear E.
  exists model1, optimizer1, train_loss, train_acc, val_loss, val_acc.
  unfold save_best_model, save_checkpoint. cbn [best_val_acc].
  destruct (best_val_acc st <? val_acc)%float;
    cbn [events files best_val_acc model optimizer]; repeat split;
    try assumption.
  rewrite <- app_assoc. reflexivity.
Qed.

(** What one completed epoch does to the state of the run. *)
Lemma epoch_step_shape config criterion trainloader valloader st epoch st' :
  epoch_step config criterion trainloader valloader st epoch = Ok st' ->
  exists train_loss train_acc val_loss val_acc lr,
    let log := WandbLog (epoch + 1) train_loss train_acc val_loss val_acc lr in
    if (best_val_acc st <? val_acc)%float then
      events st' = events st ++ [log; TorchSave "best_model.pth";
                                 WandbSave "best_model.pth"] /\
      files st' = <["best_model.pth" := state_dict (parameters (model st'))]> (files st) /\
      best_val_acc st' = val_acc
    else
      events st' = events st ++ [log] /\
      files st' = files st /\
      best_val_acc st' = best_val_acc st.
Proof.
  intros (model1 & optimizer1 & train_loss & train_acc & val_loss & val_acc
          & _ & _ & _ & Hshape)%epoch_step_inv.
  exists train_loss, train_acc, val_loss, val_acc, (current_lr (optimizer st')).
  exact Hshape.
Qed.

End CheckpointFacts.

(** ** A run whose validation accuracy never exceeds 0.0 *)

Lemma eqb_zero_not_positive (v : float) :
  (v =? 0)%float = true -> (0 <? v)%float = false.
Proof.
  intros [s Hs]%eqb_zero_spec.
  rewrite FloatAxioms.ltb_spec, Hs. reflexivity.
Qed.

Section RunFacts.
Context `{Torch} {T : Type} `{LossScalar T}.

Implicit Types (st : RunState (T:=T)) (config : Config)
  (criterion : Outputs -> list Z -> result T) (trainloader valloader : Z -> list Batch).

Lemma logged_val_acc_app (l1 l2 : list (event (T:=T))) :
  logged_val_acc (l1 ++ l2) = logged_val_acc l1 ++ logged_val_acc l2.
Proof. apply omap_app. Qed.

(** Either nothing was saved yet, [best_val_acc] is still 0.0 and no
    logged accuracy was above 0; or a save and an accuracy above 0 are both
    in the trace. *)
Lemma training_loop_invariant config criterion trainloader valloader files0 :
  forall (epoch_list : list Z) st st',
  training_loop config criterion trainloader valloader st epoch_list = Ok st' ->
  (best_val_acc st = 0%float /\
   Forall (fun ev => is_save ev = false) (events st) /\
   Forall (fun v => (0 <? v)%float = false) (logged_val_acc (events st)) /\
   files st = files0) \/
  (Exists (fun ev => is_save ev = true) (events st) /\
   Exists (fun v => (0 <? v)%float = true) (logged_val_acc (events st))) ->
  length (logged_val_acc (events st'))
    = (length (logged_val_acc (events st)) + length epoch_list)%nat /\
  ((best_val_acc st' = 0%float /\
    Forall (fun ev => is_save ev = false) (events st') /\
    Forall (fun v => (0 <? v)%float = false) (logged_val_acc (events st')) /\
    files st' = files0) \/
   (Exists (fun ev => is_save ev = true) (events st') /\
    Exists (fun v => (0 <? v)%float = true) (logged_val_acc (events st')))).
Proof.
  induction epoch_list as [|epoch rest IH]; intros st st' Hloop Hinv.
  - cbn [training_loop] in Hloop. inversion Hloop; subst.
    split; [cbn [length]; lia | exact Hinv].
  - cbn [training_loop] in Hloop.
    destruct (epoch_step config criterion trainloader valloader st epoch)
      as [st1|e] eqn:Hstep; cbn [mbind result_bind] in Hloop; [|discriminate].
    apply epoch_step_shape in Hstep
      as (train_loss & train_acc & val_loss & val_acc & lr & Hshape).
    cbv zeta in Hshape.
    destruct (IH st1 st' Hloop) as [Hlen Hinv'].
    + destruct Hinv as [(Hb & Hns & Hnp & Hf)|[Hs Hp]].
      * rewrite Hb in Hshape.
        destruct (0 <? val_acc)%float eqn:Hpos;
          destruct Hshape as (He & Hfs & Hbs); rewrite He.
        -- right. split.
           ++ apply Exists_app. right. right. left. reflexivity.
           ++ rewrite logged_val_acc_app. apply Exists_app. right.
              left. exact Hpos.
        -- left. repeat split.
           ++ congruence.
           ++ apply Forall_app. split; [exact Hns|]. repeat constructor.
           ++ rewrite logged_val_acc_app. apply Forall_app.
              split; [exact Hnp|]. repeat constructor. exact Hpos.
           ++ congruence.
      * right.
        assert (He : exists new, events st1 = events st ++ new).
        { destruct (best_val_acc st <? val_acc)%float;
            destruct Hshape as (He & _); eauto. }
        destruct He as [new He]. rewrite He. split.
        -- apply Exists_app. left. exact Hs.
        -- rewrite logged_val_acc_app. apply Exists_app. left. exact Hp.
    + split; [|exact Hinv'].
      rewrite Hlen. cbn [length].
      assert (Hl1 : length (logged_val_acc (events st1))
                    = S (length (logged_val_acc (events st)))).
      { destruct (best_val_acc st <? val_acc)%float;
          destruct Hshape as (He & _); rewrite He, logged_val_acc_app, length_app;
          cbn; lia. }
      lia.
Qed.

(** C10 (as amended): [best_val_acc] starts at 0.0.  In a training loop
    that runs to its end, one validation accuracy is logged per epoch, and
    "best_model.pth" is written at least once if and only if some epoch's
    validation accuracy is above 0.  If every epoch's accuracy equals 0.0
    the file is never written, the files are those the run started with,
    and, when "best_model.pth" was not among them, the load of the
    evaluation stage raises [FileNotFoundError]. *)
Theorem checkpoint_written_iff_positive_accuracy
  config criterion trainloader valloader
  (model0 : Model) (optimizer0 : Optim) (files0 : gmap string StateDict)
  (epoch_list : list Z) st :
  training_loop config criterion trainloader valloader
    (initial_state model0 optimizer0 files0) epoch_list = Ok st ->
  best_val_acc (initial_state (T:=T) model0 optimizer0 files0) = 0%float /\
  length (logged_val_acc (events st)) = length epoch_list /\
  (Exists (fun ev => is_save ev = true) (events st)
   <-> Exists (fun v => (0 <? v)%float = true) (logged_val_acc (events st))) /\
  (Forall (fun v => (v =? 0)%float = true) (logged_val_acc (events st)) ->
   Forall (fun ev => is_save ev = false) (events st) /\
   files st = files0 /\
   (files0 !! "best_model.pth" = None ->
    forall (testloader : list Batch) (dev : string),
      evaluate_cifar100_test (files st) (model st) testloader dev
      = Raise FileNotFoundError)).
Proof.
  intros Hloop.
  destruct (training_loop_invariant config criterion trainloader valloader files0
              epoch_list _ st Hloop) as [Hlen Hinv].
  { left. cbn. repeat split; constructor. }
  cbn [initial_state events logged_val_acc omap list_omap length] in Hlen.
  split; [reflexivity|]. split; [exact Hlen|].
  assert (Hexcl : forall (A : Type) (P Q : A -> bool) (l : list A),
             Forall (fun a => P a = false) l -> Exists (fun a => P a = true) l -> False).
  { intros A P Q l HF HE. apply Exists_exists in HE as (a & Ha & HP).
    rewrite Forall_forall in HF. specialize (HF a Ha). congruence. }
  split.
  - destruct Hinv as [(Hb & Hns & Hnp & Hf)|[Hs Hp]].
    + split; intros HE; exfalso.
      * exact (Hexcl _ _ (fun _ => true) _ Hns HE).
      * exact (Hexcl _ _ (fun _ => true) _ Hnp HE).
    + tauto.
  - intros Hzero.
    assert (Hnp : Forall (fun v => (0 <? v)%float = false) (logged_val_acc (events st))).
    { eapply Forall_impl; [exact Hzero|]. intros v. apply eqb_zero_not_positive. }
    destruct Hinv as [(Hb & Hns & _ & Hf)|[Hs Hp]].
    + split; [exact Hns|]. split; [exact Hf|].
      intros Hnone testloader dev.
      unfold evaluate_cifar100_test, torch_load. rewrite Hf, Hnone. reflexivity.
    + exfalso. exact (Hexcl _ _ (fun _ => true) _ Hnp Hp).
Qed.
End RunFacts.


(** ** [validate] *)

Lemma is_ok_exists {A : Type} (r : result A) : is_ok r = true -> exists a, r = Ok a.
Proof. destruct r; [eauto | discriminate]. Qed.

Lemma float_mul_int_is_ok (x : float) (n : Z) :
  0 <= n < float_int_bound -> is_ok (float_mul_int x n) = true.
Proof.
  intros Hn. unfold float_mul_int.
  destruct (is_ok_exists _ (float_of_int_in_range n Hn)) as [f ->]. reflexivity.
Qed.

Lemma float_div_int_is_ok (x : float) (n : Z) :
  0 < n < float_int_bound -> is_ok (float_div_int x n) = true.
Proof.
  intros Hn. unfold float_div_int.
  replace (n =? 0) with false by (symmetry; apply Z.eqb_neq; lia).
  destruct (is_ok_exists _ (float_of_int_in_range n ltac:(lia))) as [f ->]. reflexivity.
Qed.

(** Both accumulators divide by a positive count without an exception, and
    raise on a zero count. *)
Lemma item_loss_div_is_ok (x : float) (n : Z) :
  0 < n < float_int_bound -> is_ok (loss_div_int (LossScalar:=item_loss) x n) = true.
Proof. apply float_div_int_is_ok. Qed.

Lemma tensor_loss_div_is_ok (x : spec_float) (n : Z) :
  0 < n < float_int_bound -> is_ok (loss_div_int (LossScalar:=tensor_loss) x n) = true.
Proof.
  intros Hn. cbn [loss_div_int tensor_loss].
  replace (n =? 0) with false by (symmetry; apply Z.eqb_neq; lia). reflexivity.
Qed.

Lemma item_loss_div_zero (x : float) :
  loss_div_int (LossScalar:=item_loss) x 0 = Raise ZeroDivisionError.
Proof. reflexivity. Qed.

Lemma tensor_loss_div_zero (x : spec_float) :
  loss_div_int (LossScalar:=tensor_loss) x 0 = Raise ZeroDivisionError.
Proof. reflexivity. Qed.

Lemma size0_pos (labels : list Z) : labels <> [] -> 1 <= size0 labels.
Proof. unfold size0. destruct labels; [congruence | cbn [length]; lia]. Qed.

Lemma size0_nonneg (labels : list Z) : 0 <= size0 labels.
Proof. unfold size0. lia. Qed.

Lemma sumZ_app (l1 l2 : list Z) : sumZ (l1 ++ l2) = sumZ l1 + sumZ l2.
Proof.
  unfold sumZ. induction l1 as [|x l1 IH]; cbn [app fold_right]; [reflexivity | lia].
Qed.

Lemma sumZ_nonneg (l : list Z) : Forall (fun n => 0 <= n) l -> 0 <= sumZ l.
Proof. unfold sumZ. induction 1; cbn [fold_right]; lia. Qed.

Lemma eq_pairs_bounds (predicted labels : list Z) :
  0 <= eq_pairs predicted labels <= size0 labels.
Proof.
  unfold size0. revert labels.
  induction predicted as [|p ps IH]; intros [|l ls]; cbn [eq_pairs length]; try lia.
  specialize (IH ls). destruct (p =? l); lia.
Qed.

Lemma count_eq_bounds (x : Z) (l : list Z) : 0 <= count_eq x l <= size0 l.
Proof.
  unfold count_eq, size0, sumZ.
  induction l as [|y l IH]; cbn [map fold_right length]; [lia|].
  destruct (y =? x); lia.
Qed.

(** The count of [eq] is never negative; with as many predictions as
    labels it is at most the number of labels. *)
Lemma eq_sum_nonneg (predicted labels : list Z) (n : Z) :
  eq_sum predicted labels = Ok n -> 0 <= n.
Proof.
  unfold eq_sum. intros E.
  pose proof (eq_pairs_bounds predicted labels) as Hp.
  assert (Hc1 : forall x, 0 <= count_eq x labels) by (intros x; apply count_eq_bounds).
  assert (Hc2 : forall x, 0 <= count_eq x predicted) by (intros x; apply count_eq_bounds).
  destruct predicted as [|p [|p' ps]], labels as [|l [|l' ls]];
    try (injection E as <-; auto; fail);
    (destruct (Z.of_nat _ =? Z.of_nat _); [injection E as <-; apply Hp | discriminate]).
Qed.

Lemma eq_sum_same_length (predicted labels : list Z) (n : Z) :
  length predicted = length labels ->
  eq_sum predicted labels = Ok n -> 0 <= n <= size0 labels.
Proof.
  unfold eq_sum. intros Hlen E.
  pose proof (eq_pairs_bounds predicted labels) as Hp.
  destruct predicted as [|p [|p' ps]], labels as [|l [|l' ls]];
    try discriminate Hlen.
  - cbn in E. injection E as <-. exact Hp.
  - injection E as <-. apply count_eq_bounds.
  - rewrite Hlen, Z.eqb_refl in E. injection E as <-. exact Hp.
Qed.

Lemma collect_app {A B : Type} (f : A -> result B) (l1 l2 : list A) :
  collect f (l1 ++ l2) = (bs1 ← collect f l1; bs2 ← collect f l2; Ok (bs1 ++ bs2)).
Proof.
  induction l1 as [|a l1 IH]; cbn [app collect mbind result_bind].
  - destruct (collect f l2); reflexivity.
  - destruct (f a) as [b|e]; cbn [mbind result_bind]; [|reflexivity].
    rewrite IH. destruct (collect f l1) as [bs1|e]; cbn [mbind result_bind]; [|reflexivity].
    destruct (collect f l2); reflexivity.
Qed.

Lemma collect_length {A B : Type} (f : A -> result B) (l : list A) (bs : list B) :
  collect f l = Ok bs -> length bs = length l.
Proof.
  revert bs. induction l as [|a l IH]; intros bs E; cbn [collect] in E.
  - inversion E; reflexivity.
  - destruct (f a) as [b|e]; cbn [mbind result_bind] in E; [|discriminate].
    destruct (collect f l) as [bs'|e]; cbn [mbind result_bind] in E; [|discriminate].
    inversion E; subst. cbn [length]. rewrite (IH bs' eq_refl). reflexivity.
Qed.

Section ValidateFacts.
Context `{Torch} {T : Type} `{LossScalar T}.

Implicit Types (model : Model) (criterion : Outputs -> list Z -> result T)
  (device : string) (b : Batch) (batches rest : list Batch).

Lemma total_count_cons b rest :
  total_count (b :: rest) = size0 (snd b) + total_count rest.
Proof. reflexivity. Qed.

Lemma total_count_nonneg batches : 0 <= total_count batches.
Proof.
  induction batches as [|b rest IH]; [unfold total_count; cbn; lia|].
  rewrite total_count_cons. pose proof (size0_nonneg (snd b)). lia.
Qed.

Lemma total_count_app batches rest :
  total_count (batches ++ rest) = total_count batches + total_count rest.
Proof. unfold total_count. rewrite map_app. apply sumZ_app. Qed.

(** A forward pass in evaluation mode that leaves the parameters alone
    leaves the model alone. *)
Lemma call_eval_pure model device (inputs : Inputs) (outputs : Outputs) model' :
  training model = false -> eval_forward_pure (parameters model) device ->
  call model device inputs = Ok (outputs, model') -> model' = model.
Proof.
  intros Hmode Hpure. unfold call. rewrite Hmode.
  destruct (forward (parameters model) false device inputs) as [[out params]|e] eqn:Hf;
    cbn [mbind result_bind]; [|discriminate].
  intros E. inversion E; subst.
  rewrite (Hpure _ _ _ Hf). destruct model as [p m]. cbn in *. congruence.
Qed.

(** One iteration of the loop of [validate], in terms of what the batch
    contributes. *)
Lemma validate_loop_step model criterion device b rest
  (i : Z) (running_loss : T) (correct total : Z) :
  training model = false -> eval_forward_pure (parameters model) device ->
  validate_loop model criterion device (b :: rest) i running_loss correct total
  = (loss ← batch_loss model criterion device b;
     n ← batch_correct model device b;
     _ ← set_postfix (loss_add running_loss loss) i (correct + n) (total + size0 (snd b));
     validate_loop model criterion device rest (i + 1) (loss_add running_loss loss)
       (correct + n) (total + size0 (snd b))).
Proof.
  intros Hmode Hpure. destruct b as [inputs labels].
  cbn [validate_loop]. unfold batch_loss, batch_correct, batch_predicted, batch_outputs.
  cbn [fst snd]. unfold tensor_to.
  destruct (device_available device); cbn [mbind result_bind]; [|reflexivity].
  destruct (call model device inputs) as [[outputs model']|e] eqn:Hcall;
    cbn [mbind result_bind]; [|reflexivity].
  rewrite (call_eval_pure _ _ _ _ _ Hmode Hpure Hcall).
  destruct (criterion outputs labels) as [loss|e]; cbn [mbind result_bind]; [|reflexivity].
  destruct (argmax outputs) as [predicted|e]; cbn [mbind result_bind]; [|reflexivity].
  reflexivity.
Qed.

(** What the loop of [validate] has computed when it ends: the model is as
    it was, and the sums are those of the closed forms. *)
Lemma validate_loop_inv model criterion device :
  training model = false -> eval_forward_pure (parameters model) device ->
  forall batches (i : Z) (running_loss : T) (correct total : Z)
         model' (running_loss' : T) (correct' total' : Z),
  validate_loop model criterion device batches i running_loss correct total
  = Ok (model', (running_loss', correct', total')) ->
  model' = model /\
  exists losses counts,
    collect (batch_loss model criterion device) batches = Ok losses /\
    collect (batch_correct model device) batches = Ok counts /\
    running_loss' = fold_left loss_add losses running_loss /\
    correct' = correct + sumZ counts /\
    total' = total + total_count batches.
Proof.
  intros Hmode Hpure.
  induction batches as [|b rest IH];
    intros i running_loss correct total model' running_loss' correct' total' Hloop.
  - cbn [validate_loop] in Hloop. inversion Hloop; subst.
    split; [reflexivity|]. exists [], [].
    unfold total_count. cbn. repeat split; lia.
  - rewrite (validate_loop_step _ _ _ _ _ _ _ _ _ Hmode Hpure) in Hloop.
    destruct (batch_loss model criterion device b) as [loss|e] eqn:Hl;
      cbn [mbind result_bind] in Hloop; [|discriminate].
    destruct (batch_correct model device b) as [n|e] eqn:Hn;
      cbn [mbind result_bind] in Hloop; [|discriminate].
    destruct (set_postfix _ _ _ _) as [[]|e];
      cbn [mbind result_bind] in Hloop; [|discriminate].
    apply IH in Hloop as (Hm & losses & counts & Hls & Hcs & Hrl & Hc & Ht).
    split; [exact Hm|]. exists (loss :: losses), (n :: counts).
    cbn [collect]. rewrite Hl, Hn, Hls, Hcs. cbn [mbind result_bind fold_left].
    rewrite total_count_cons. unfold sumZ in *. cbn [fold_right].
    repeat split; try assumption; lia.
Qed.

(** The counts of a loader are not negative. *)
Lemma collect_correct_nonneg model device batches (counts : list Z) :
  collect (batch_correct model device) batches = Ok counts ->
  Forall (fun n => 0 <= n) counts.
Proof.
  revert counts. induction batches as [|b rest IH]; intros counts E; cbn [collect] in E.
  - inversion E. constructor.
  - destruct (batch_correct model device b) as [n|e] eqn:Hn;
      cbn [mbind result_bind] in E; [|discriminate].
    destruct (collect _ rest) as [cs|e]; cbn [mbind result_bind] in E; [|discriminate].
    inversion E; subst. constructor; [|apply IH; reflexivity].
    unfold batch_correct in Hn.
    destruct (batch_predicted model device b) as [p|e];
      cbn [mbind result_bind] in Hn; [|discriminate].
    exact (eq_sum_nonneg _ _ _ Hn).
Qed.

Section Division.
Hypothesis loss_div_is_ok :
  forall (x : T) (n : Z), 0 < n < float_int_bound -> is_ok (loss_div_int x n) = true.

Lemma set_postfix_ok (running_loss : T) (i correct total : Z) :
  0 <= i -> i + 1 < float_int_bound -> 0 <= correct < float_int_bound -> 0 < total < float_int_bound ->
  set_postfix running_loss i correct total = Ok tt.
Proof.
  intros Hi Hi' Hc Ht. unfold set_postfix.
  destruct (is_ok_exists _ (loss_div_is_ok running_loss (i + 1) ltac:(lia))) as [a ->].
  cbn [mbind result_bind].
  destruct (is_ok_exists _ (float_mul_int_is_ok 100 correct Hc)) as [x ->].
  cbn [mbind result_bind].
  destruct (is_ok_exists _ (float_div_int_is_ok x total Ht)) as [y ->].
  reflexivity.
Qed.

(** The postfix of a batch raises [ZeroDivisionError] when no sample has
    been counted yet. *)
Lemma set_postfix_no_sample (running_loss : T) (i correct : Z) :
  0 <= i -> i + 1 < float_int_bound -> 0 <= correct < float_int_bound ->
  set_postfix running_loss i correct 0 = Raise ZeroDivisionError.
Proof.
  intros Hi Hi' Hc. unfold set_postfix.
  destruct (is_ok_exists _ (loss_div_is_ok running_loss (i + 1) ltac:(lia))) as [a ->].
  cbn [mbind result_bind].
  destruct (is_ok_exists _ (float_mul_int_is_ok 100 correct Hc)) as [x ->].
  reflexivity.
Qed.

(** When every batch gives a loss and a count, the loop of [validate] runs
    to its end from a positive number of samples on. *)
Lemma validate_loop_returns model criterion device :
  training model = false -> eval_forward_pure (parameters model) device ->
  forall batches (losses : list T) (counts : list Z)
         (i : Z) (running_loss : T) (correct total : Z),
  collect (batch_loss model criterion device) batches = Ok losses ->
  collect (batch_correct model device) batches = Ok counts ->
  0 <= i -> i + Z.of_nat (length batches) < float_int_bound ->
  0 <= correct -> correct + sumZ counts < float_int_bound ->
  0 <= total -> total + total_count batches < float_int_bound ->
  0 < total \/ starts_empty batches = false ->
  validate_loop model criterion device batches i running_loss correct total
  = Ok (model, (fold_left loss_add losses running_loss,
                correct + sumZ counts, total + total_count batches)).
Proof.
  intros Hmode Hpure.
  induction batches as [|b rest IH];
    intros losses counts i running_loss correct total Hls Hcs Hi Hlen Hc Hcb Ht0 Htb Hpos.
  - cbn [collect] in Hls, Hcs. inversion Hls; inversion Hcs; subst.
    cbn [validate_loop fold_left]. unfold total_count. cbn.
    rewrite !Z.add_0_r. reflexivity.
  - rewrite (validate_loop_step _ _ _ _ _ _ _ _ _ Hmode Hpure).
    pose proof (collect_correct_nonneg _ _ _ _ Hcs) as Hnn.
    cbn [collect] in Hls, Hcs.
    destruct (batch_loss model criterion device b) as [loss|e];
      cbn [mbind result_bind] in Hls |- *; [|discriminate].
    destruct (batch_correct model device b) as [n|e];
      cbn [mbind result_bind] in Hcs |- *; [|discriminate].
    destruct (collect (batch_loss model criterion device) rest) as [ls|e] eqn:Hls';
      cbn [mbind result_bind] in Hls; [|discriminate].
    destruct (collect (batch_correct model device) rest) as [cs|e] eqn:Hcs';
      cbn [mbind result_bind] in Hcs; [|discriminate].
    inversion Hls; inversion Hcs; subst. clear Hls Hcs.
    inversion Hnn as [|? ? Hn Hrest]; subst.
    pose proof (sumZ_nonneg _ Hrest) as Hsum.
    rewrite total_count_cons in Htb |- *.
    pose proof (total_count_nonneg rest) as Htr.
    pose proof (size0_nonneg (snd b)) as Hsz.
    unfold sumZ in Hcb |- *. cbn [fold_right] in Hcb |- *. fold (sumZ cs) in Hcb |- *.
    cbn [length] in Hlen.
    assert (Hpos' : 0 < total + size0 (snd b)).
    { destruct Hpos as [Hpos|Hpos]; [lia|].
      destruct b as [inputs [|l labels]]; cbn [starts_empty] in Hpos; [discriminate|].
      cbn [snd]. unfold size0. cbn [length]. lia. }
    rewrite set_postfix_ok by lia. cbn [mbind result_bind].
    rewrite (IH ls cs); try reflexivity; try lia.
    cbn [fold_left]. rewrite !Z.add_assoc. reflexivity.
Qed.

(** When every batch gives a loss and a count and the first batch holds a
    sample, [validate] returns the mean of the batch losses and
    [100 * correct / total]. *)
Lemma validate_returns model (valloader : list Batch) criterion device :
  eval_forward_pure (parameters model) device ->
  starts_empty valloader = false ->
  is_ok (sum_losses (mkModel (parameters model) false) criterion device valloader) = true ->
  is_ok (correct_count (mkModel (parameters model) false) device valloader) = true ->
  Z.of_nat (length valloader) < float_int_bound ->
  total_count valloader < float_int_bound ->
  (forall c, correct_count (mkModel (parameters model) false) device valloader = Ok c ->
             c < float_int_bound) ->
  exists (val_loss : T) (val_acc : float),
    validate model valloader criterion device
    = Ok (mkModel (parameters model) false, (val_loss, val_acc)) /\
    mean_loss (mkModel (parameters model) false) criterion device valloader = Ok val_loss /\
    accuracy_percentage (mkModel (parameters model) false) device valloader = Ok val_acc.
Proof.
  intros Hpure Hne Hls Hcs Hlen Htot Hcor.
  set (model_eval := mkModel (parameters model) false) in *.
  assert (Hmode : training model_eval = false) by reflexivity.
  apply is_ok_exists in Hls as [s Hls]. apply is_ok_exists in Hcs as [c Hcs].
  specialize (Hcor c Hcs).
  unfold mean_loss, accuracy_percentage. rewrite Hls, Hcs. cbn [mbind result_bind].
  unfold sum_losses in Hls. unfold correct_count in Hcs.
  destruct (collect (batch_loss _ _ _) _) as [losses|e] eqn:Hls';
    cbn [mbind result_bind] in Hls; [|discriminate].
  destruct (collect (batch_correct _ _) _) as [counts|e] eqn:Hcs';
    cbn [mbind result_bind] in Hcs; [|discriminate].
  inversion Hls; inversion Hcs; subst. clear Hls Hcs.
  pose proof (sumZ_nonneg _ (collect_correct_nonneg _ _ _ _ Hcs')) as Hc0.
  assert (Hpos : 0 < total_count valloader /\ 0 < Z.of_nat (length valloader)).
  { destruct valloader as [|[inputs [|l labels]] rest];
      cbn [starts_empty] in Hne; try discriminate.
    rewrite total_count_cons. cbn [snd length].
    pose proof (total_count_nonneg rest). unfold size0. cbn [length]. lia. }
  unfold validate. fold model_eval.
  rewrite (validate_loop_returns _ _ _ Hmode Hpure _ losses counts);
    try assumption; try lia; [|right; exact Hne].
  cbn [mbind result_bind]. rewrite !Z.add_0_l.
  destruct (is_ok_exists _ (loss_div_is_ok (fold_left loss_add losses loss_zero)
              (Z.of_nat (length valloader)) ltac:(lia))) as [vl ->].
  cbn [mbind result_bind].
  destruct (is_ok_exists _ (float_mul_int_is_ok 100 (sumZ counts) ltac:(lia)))
    as [x ->].
  cbn [mbind result_bind].
  destruct (is_ok_exists _ (float_div_int_is_ok x (total_count valloader) ltac:(lia)))
    as [va ->].
  cbn [mbind result_bind]. exists vl, va. repeat split.
Qed.
End Division.
End ValidateFacts.

(** A postfix computed before any sample was counted never succeeds. *)
Lemma set_postfix_zero_total `{LossScalar T} (running_loss : T) (i correct : Z) :
  is_ok (set_postfix running_loss i correct 0) = false.
Proof.
  unfold set_postfix.
  destruct (loss_div_int running_loss (i + 1)); cbn [mbind result_bind]; [|reflexivity].
  destruct (float_mul_int 100 correct); cbn [mbind result_bind]; reflexivity.
Qed.

(** C8 (as amended).  For a model whose forward pass in evaluation mode
    leaves its parameters and buffers as they are: whenever [validate]
    returns, the model holds the parameters it had before the call (and is
    in evaluation mode), and the pair returned is the mean of the batch
    losses and [100 * correct / total].  [validate] does not return on
    every loader: the numbers of batches, of samples and of right
    predictions being ints that [float] accepts (below [float_int_bound]),
    it returns exactly when the loader has a first batch with at least one
    sample and the move to the device, the forward pass, the criterion,
    [torch.max] and [eq] succeed on every batch. *)
Theorem validate_frame_and_result `{Torch} {T : Type} `{LossScalar T}
  (model : Model) (valloader : list Batch)
  (criterion : Outputs -> list Z -> result T) (device : string) :
  eval_forward_pure (parameters model) device ->
  let model_eval := mkModel (parameters model) false in
  (forall (model' : Model) (val_loss : T) (val_acc : float),
     validate model valloader criterion device = Ok (model', (val_loss, val_acc)) ->
     parameters model' = parameters model /\ training model' = false /\
     mean_loss model_eval criterion device valloader = Ok val_loss /\
     accuracy_percentage model_eval device valloader = Ok val_acc) /\
  ((forall x : T, loss_div_int x 0 = Raise ZeroDivisionError) ->
   (forall (x : T) (n : Z), 0 < n < float_int_bound -> is_ok (loss_div_int x n) = true) ->
   Z.of_nat (length valloader) < float_int_bound ->
   total_count valloader < float_int_bound ->
   (forall c, correct_count model_eval device valloader = Ok c -> c < float_int_bound) ->
   (is_ok (validate model valloader criterion device) = true
    <-> starts_empty valloader = false /\
        is_ok (sum_losses model_eval criterion device valloader) = true /\
        is_ok (correct_count model_eval device valloader) = true)).
Proof.
  intros Hpure model_eval.
  assert (Hmode : training model_eval = false) by reflexivity.
  assert (Hpure' : eval_forward_pure (parameters model_eval) device) by exact Hpure.
  assert (Hinv : forall model' val_loss val_acc,
             validate model valloader criterion device = Ok (model', (val_loss, val_acc)) ->
             model' = model_eval /\
             mean_loss model_eval criterion device valloader = Ok val_loss /\
             accuracy_percentage model_eval device valloader = Ok val_acc /\
             starts_empty valloader = false \/
             model' = model_eval /\ valloader = [] /\
             is_ok (loss_div_int loss_zero 0) = true).
  { intros model' val_loss val_acc. unfold validate. fold model_eval.
    destruct (validate_loop model_eval criterion device valloader 0 loss_zero 0 0)
      as [[m [[rl c] t]]|e] eqn:Hloop; cbn [mbind result_bind]; [|discriminate].
    pose proof Hloop as Hloop'.
    apply (validate_loop_inv _ _ _ Hmode Hpure') in Hloop'
      as (-> & losses & counts & Hls & Hcs & -> & -> & ->).
    rewrite !Z.add_0_l.
    destruct (loss_div_int _ _) as [vl|e] eqn:Hdiv; cbn [mbind result_bind]; [|discriminate].
    destruct (float_mul_int 100 (sumZ counts)) as [x|e] eqn:Hmul;
      cbn [mbind result_bind]; [|discriminate].
    destruct (float_div_int x (total_count valloader)) as [va|e] eqn:Hacc;
      cbn [mbind result_bind]; [|discriminate].
    intros E. inversion E; subst; clear E.
    assert (Hres : mean_loss model_eval criterion device valloader = Ok val_loss /\
                   accuracy_percentage model_eval device valloader = Ok val_acc).
    { unfold mean_loss, accuracy_percentage, sum_losses, correct_count.
      rewrite Hls, Hcs. cbn [mbind result_bind]. rewrite Hdiv, Hmul. cbn [mbind result_bind].
      split; [reflexivity | exact Hacc]. }
    destruct valloader as [|[inputs labels] rest].
    - right. cbn [length] in Hdiv. change (Z.of_nat 0) with 0 in Hdiv.
      cbn [collect] in Hls. inversion Hls; subst. cbn [fold_left] in Hdiv.
      rewrite Hdiv. repeat split.
    - left. split; [reflexivity|]. split; [exact (proj1 Hres)|].
      split; [exact (proj2 Hres)|].
      destruct labels as [|l labels]; [|reflexivity]. exfalso.
      rewrite (validate_loop_step _ _ _ _ _ _ _ _ _ Hmode Hpure') in Hloop.
      destruct (batch_loss _ _ _ _); cbn [mbind result_bind] in Hloop; [|discriminate].
      destruct (batch_correct _ _ _); cbn [mbind result_bind] in Hloop; [|discriminate].
      cbn [snd] in Hloop. change (size0 []) with 0 in Hloop. rewrite Z.add_0_l in Hloop.
      pose proof (set_postfix_zero_total (loss_add loss_zero a) 0 (0 + a0)) as Hz.
      destruct (set_postfix _ _ _ _); [discriminate Hz | discriminate Hloop]. }
  split.
  - intros model' val_loss val_acc Hv.
    destruct (Hinv _ _ _ Hv) as [(-> & Hl & Ha & _)|(-> & -> & _)].
    + repeat split; assumption.
    + unfold validate in Hv. cbn [validate_loop mbind result_bind length] in Hv.
      change (Z.of_nat 0) with 0 in Hv.
      destruct (loss_div_int loss_zero 0) as [vl|e] eqn:Hdiv;
        cbn [mbind result_bind] in Hv; [|discriminate].
      cbn in Hv. discriminate Hv.
  - intros Hzero Hdivok Hlen Htot Hcor. split.
    + intros Hok. apply is_ok_exists in Hok as [[model' [val_loss val_acc]] Hv].
      destruct (Hinv _ _ _ Hv) as [(_ & Hl & Ha & Hne)|(_ & _ & Hbad)].
      * split; [exact Hne|].
        unfold mean_loss in Hl. unfold accuracy_percentage in Ha.
        destruct (sum_losses _ _ _ _); [|discriminate].
        destruct (correct_count _ _ _); [|discriminate]. split; reflexivity.
      * rewrite Hzero in Hbad. discriminate.
    + intros (Hne & Hls & Hcs).
      destruct (validate_returns Hdivok model valloader criterion device
                  Hpure Hne Hls Hcs Hlen Htot Hcor) as (vl & va & -> & _).
      reflexivity.
Qed.

Lemma validate_frame_and_result_witness :
  parameters (H:=counting_torch) (mkModel (H:=counting_torch) 5 false) = 5 /\
  training (H:=counting_torch) (mkModel (H:=counting_torch) 5 false) = false /\
  mean_loss (H:=counting_torch) (mkModel (H:=counting_torch) 5 false)
    unit_criterion "cpu" [([0; 1; 2], [5; 6; 8])] = Ok 1%float /\
  accuracy_percentage (H:=counting_torch) (mkModel (H:=counting_torch) 5 false)
    "cpu" [([0; 1; 2], [5; 6; 8])] = Ok (200 / 3)%float.
Proof.
  assert (Hpure : eval_forward_pure (H:=counting_torch) 5 "cpu").
  { intros inputs outputs params' E. inversion E. reflexivity. }
  destruct (validate_frame_and_result (H:=counting_torch)
              (mkModel (H:=counting_torch) 5 true)
              [([0; 1; 2], [5; 6; 8])] unit_criterion "cpu" Hpure) as [Hr _].
  apply (Hr (mkModel (H:=counting_torch) 5 false) 1%float (200 / 3)%float).
  vm_compute. reflexivity.
Defined.

(** C8 (as stated) fails on an empty loader: [validate] divides by
    [len(valloader)] and raises [ZeroDivisionError] instead of returning. *)
Lemma validate_empty_loader_raises :
  validate (H:=counting_torch) (mkModel (H:=counting_torch) 5 true) []
    unit_criterion "cpu" = Raise ZeroDivisionError /\
  ~ spec_validate_returns (H:=counting_torch) (mkModel (H:=counting_torch) 5 true) []
      unit_criterion "cpu".
Proof.
  split; [reflexivity|].
  intros (model' & val_loss & val_acc & Hr & _). discriminate.
Qed.

(** ** The claims on the counting model *)

Lemma checkpoint_written_iff_positive_accuracy_witness :
  best_val_acc (initial_state (H:=counting_torch) (T:=float)
                  (mkModel (H:=counting_torch) 0 true) tt ∅) = 0%float /\
  length (logged_val_acc (events zero_accuracy_final)) = length (seqZ 0 5) /\
  (Exists (fun ev => is_save ev = true) (events zero_accuracy_final)
   <-> Exists (fun v => (0 <? v)%float = true)
         (logged_val_acc (events zero_accuracy_final))) /\
  (Forall (fun v => (v =? 0)%float = true)
     (logged_val_acc (events zero_accuracy_final)) ->
   Forall (fun ev => is_save ev = false) (events zero_accuracy_final) /\
   files zero_accuracy_final = ∅ /\
   ((∅ : gmap string (list Z)) !! "best_model.pth" = None ->
    forall (testloader : list (Batch (H:=counting_torch))) (dev : string),
      evaluate_cifar100_test (files zero_accuracy_final) (model zero_accuracy_final)
        testloader dev
      = Raise FileNotFoundError)).
Proof.
  apply (checkpoint_written_iff_positive_accuracy (H:=counting_torch)
           (CONFIG simple_cnn "cpu") unit_criterion
           (fun _ => one_batch 99) (fun _ => one_batch 99)
           (mkModel (H:=counting_torch) 0 true) tt ∅ (seqZ 0 5) zero_accuracy_final).
  vm_compute. reflexivity.
Defined.

(** C10 (as stated) fails when the working directory already holds a
    "best_model.pth": every epoch has accuracy 0.0, nothing is saved, and the
    evaluation stage loads the older file. *)
Lemma zero_accuracy_run_loads_stale_checkpoint :
  ~ spec_zero_accuracy_load_fails (H:=counting_torch)
      (CONFIG simple_cnn "cpu") unit_criterion
      (fun _ => one_batch 99) (fun _ => one_batch 99) (one_batch 99)
      (mkModel (H:=counting_torch) 0 true) tt stale_files.
Proof.
  unfold spec_zero_accuracy_load_fails. intros Hspec.
  specialize (Hspec (final_state (counting_run 99 stale_files (seqZ 0 5)))).
  assert (Hrun : training_loop (H:=counting_torch) (CONFIG simple_cnn "cpu")
                   unit_criterion (fun _ => one_batch 99) (fun _ => one_batch 99)
                   (initial_state (H:=counting_torch)
                      (mkModel (H:=counting_torch) 0 true) tt stale_files)
                   (range (epochs (CONFIG simple_cnn "cpu")))
                 = Ok (final_state (counting_run 99 stale_files (seqZ 0 5))))
    by (vm_compute; reflexivity).
  specialize (Hspec Hrun).
  assert (Hzero : Forall (fun v => (v =? 0)%float = true)
                    (logged_val_acc
                       (events (final_state (counting_run 99 stale_files (seqZ 0 5))))))
    by (vm_compute; repeat constructor).
  specialize (Hspec Hzero).
  assert (Hload : is_ok (evaluate_cifar100_test (H:=counting_torch)
                           (files (final_state (counting_run 99 stale_files (seqZ 0 5))))
                           (model (final_state (counting_run 99 stale_files (seqZ 0 5))))
                           (one_batch 99) (device (CONFIG simple_cnn "cpu"))) = true)
    by (vm_compute; reflexivity).
  rewrite Hload in Hspec. discriminate Hspec.
Qed.

(** ** The loop of transfer_cnn.py *)

(** Every epoch of transfer_cnn.py that runs to its end saves the checkpoint,
    whatever the validation accuracy, and hands the validation loss to
    [early_stop_check]. *)
Lemma transfer_epoch_always_saves `{Torch} (config : Config)
  (criterion : Outputs -> list Z -> result float)
  (trainloader valloader : Z -> list Batch)
  (st st' : RunState (T:=float)) (es es' : EarlyStopping) (epoch : Z) (stop : bool) :
  transfer_epoch_step config criterion trainloader valloader st es epoch
  = Ok (st', es', stop) ->
  exists train_loss train_acc val_loss val_acc lr,
    events st' = events st
                 ++ [WandbLog (epoch + 1) train_loss train_acc val_loss val_acc lr;
                     TorchSave "best_model.pth"; WandbSave "best_model.pth"] /\
    files st' = <["best_model.pth" := state_dict (parameters (model st'))]> (files st) /\
    (stop, es') = early_stop_check es val_loss.
Proof.
  unfold transfer_epoch_step, run_epoch.
  destruct (train epoch (model st) (trainloader epoch) (optimizer st) criterion config)
    as [[[model1 optimizer1] [train_loss train_acc]]|e];
    cbn [mbind result_bind]; [|discriminate].
  destruct (validate model1 (valloader epoch) criterion (device config))
    as [[model2 [val_loss val_acc]]|e];
    cbn [mbind result_bind]; [|discriminate].
  destruct (early_stop_check es val_loss) as [b es1] eqn:Ees.
  intros E. inversion E; subst; clear E.
  exists train_loss, train_acc, val_loss, val_acc,
    (current_lr (scheduler_step optimizer1)).
  unfold save_checkpoint. cbn [events files model].
  rewrite <- app_assoc. repeat split.
  symmetry. exact Ees.
Qed.

(** The early-stopping object of the script has [min_delta = 0.0]. *)
Lemma main_early_stopping_min_delta :
  (min_delta main_early_stopping =? 0)%float = true /\
  tolerance main_early_stopping = 5.
Proof. split; reflexivity. Qed.

(** Unlike [validate], [train] changes the parameters: one batch on the
    counting model moves its weight from 0 to 1. *)
Lemma train_changes_parameters :
  train (H:=counting_torch) 0 (mkModel (H:=counting_torch) 0 false) (one_batch 1) tt
    unit_criterion (CONFIG simple_cnn "cpu")
  = Ok (mkModel (H:=counting_torch) 1 true, tt, (1%float, 0%float)).
Proof. vm_compute. reflexivity. Qed.

(** ** [best_val_acc] is the maximum recorded so far *)

Section MaximumFacts.
Context `{Torch} {T : Type} `{LossScalar T}.

Implicit Types (st : RunState (T:=T)) (config : Config)
  (criterion : Outputs -> list Z -> result T) (trainloader valloader : Z -> list Batch).

(** A loop only appends to the trace. *)
Lemma training_loop_events_prefix config criterion trainloader valloader :
  forall (epoch_list : list Z) st st',
  training_loop config criterion trainloader valloader st epoch_list = Ok st' ->
  exists new, events st' = events st ++ new.
Proof.
  induction epoch_list as [|epoch rest IH]; intros st st' Hloop.
  - cbn [training_loop] in Hloop. inversion Hloop; subst.
    exists []. rewrite app_nil_r. reflexivity.
  - cbn [training_loop] in Hloop.
    destruct (epoch_step config criterion trainloader valloader st epoch)
      as [st1|e] eqn:Hstep; cbn [mbind result_bind] in Hloop; [|discriminate].
    apply epoch_step_shape in Hstep
      as (train_loss & train_acc & val_loss & val_acc & lr & Hshape).
    cbv zeta in Hshape.
    destruct (IH st1 st' Hloop) as [new' Hnew'].
    destruct (best_val_acc st <? val_acc)%float;
      destruct Hshape as (He & _); rewrite Hnew', He, <- app_assoc; eauto.
Qed.

Lemma training_loop_maximum config criterion trainloader valloader :
  forall (epoch_list : list Z) st st',
  training_loop config criterion trainloader valloader st epoch_list = Ok st' ->
  Forall (fun v => is_nan v = false) (logged_val_acc (events st')) ->
  is_nan (best_val_acc st) = false ->
  Forall (fun v => geb (best_val_acc st) v = true) (logged_val_acc (events st)) ->
  Forall (fun v => geb (best_val_acc st') v = true) (logged_val_acc (events st')) /\
  (best_val_acc st' = best_val_acc st \/
   In (best_val_acc st') (logged_val_acc (events st'))).
Proof.
  induction epoch_list as [|epoch rest IH]; intros st st' Hloop Hnan Hb Hmax.
  - cbn [training_loop] in Hloop. inversion Hloop; subst. auto.
  - cbn [training_loop] in Hloop.
    destruct (epoch_step config criterion trainloader valloader st epoch)
      as [st1|e] eqn:Hstep; cbn [mbind result_bind] in Hloop; [|discriminate].
    apply epoch_step_shape in Hstep
      as (train_loss & train_acc & val_loss & val_acc & lr & Hshape).
    cbv zeta in Hshape.
    destruct (training_loop_events_prefix _ _ _ _ _ _ _ Hloop) as [new Hnew].
    assert (Hlog1 : logged_val_acc (events st1)
                    = logged_val_acc (events st) ++ [val_acc]).
    { destruct (best_val_acc st <? val_acc)%float;
        destruct Hshape as (He & _); rewrite He, logged_val_acc_app; reflexivity. }
    assert (Hv : is_nan val_acc = false).
    { rewrite Hnew, logged_val_acc_app, Hlog1 in Hnan.
      apply Forall_app in Hnan as [Hnan _]. apply Forall_app in Hnan as [_ Hnan].
      inversion Hnan; assumption. }
    assert (Hstep1 : is_nan (best_val_acc st1) = false /\
                     Forall (fun v => geb (best_val_acc st1) v = true)
                       (logged_val_acc (events st1)) /\
                     (best_val_acc st1 = best_val_acc st \/ best_val_acc st1 = val_acc)).
    { rewrite Hlog1.
      destruct (best_val_acc st <? val_acc)%float eqn:Hlt;
        destruct Hshape as (_ & _ & Hbest); rewrite Hbest.
      - split; [exact Hv|]. split; [|right; reflexivity].
        apply Forall_app. split.
        + eapply Forall_impl; [exact Hmax|]. intros w Hw.
          exact (geb_ltb_trans w (best_val_acc st) val_acc Hw Hlt).
        + repeat constructor. apply geb_refl. exact Hv.
      - split; [exact Hb|]. split; [|left; reflexivity].
        apply Forall_app. split; [exact Hmax|]. repeat constructor.
        rewrite (ltb_false_geb _ _ Hlt), Hb, Hv. reflexivity. }
    destruct Hstep1 as (Hb1 & Hmax1 & Hor1).
    destruct (IH st1 st' Hloop Hnan Hb1 Hmax1) as [Hmax' Hor'].
    split; [exact Hmax'|].
    destruct Hor' as [Heq|Hin]; [|right; exact Hin].
    rewrite Heq. destruct Hor1 as [Heq1|Heq1]; [left; exact Heq1|].
    right. rewrite Heq1, Hnew, logged_val_acc_app, Hlog1.
    apply in_or_app. left. apply in_or_app. right. left. reflexivity.
Qed.

(** After a training loop of simple_cnn.py or soph_cnn.py in which no logged
    accuracy is NaN, [best_val_acc] is at least every validation accuracy of
    the run, and it is 0.0 or one of them: it is the maximum recorded. *)
Lemma best_val_acc_is_maximum config criterion trainloader valloader
  (model0 : Model) (optimizer0 : Optim) (files0 : gmap string StateDict)
  (epoch_list : list Z) st :
  training_loop config criterion trainloader valloader
    (initial_state model0 optimizer0 files0) epoch_list = Ok st ->
  Forall (fun v => is_nan v = false) (logged_val_acc (events st)) ->
  Forall (fun v => geb (best_val_acc st) v = true) (logged_val_acc (events st)) /\
  (best_val_acc st = 0%float \/ In (best_val_acc st) (logged_val_acc (events st))).
Proof.
  intros Hloop Hnan.
  apply (training_loop_maximum _ _ _ _ _ _ _ Hloop Hnan); [reflexivity | constructor].
Qed.
End MaximumFacts.


(** ** The accuracies of a run are numbers *)

Section NeverNaN.
Context `{Torch} {T : Type} `{LossScalar T}.

Implicit Types (st : RunState (T:=T)) (config : Config)
  (criterion : Outputs -> list Z -> result T) (trainloader valloader : Z -> list Batch).

(** The counts of the two loops are never negative. *)
Lemma validate_loop_counts criterion (device : string) :
  forall (batches : list Batch) (model : Model) (i : Z) (running_loss : T)
         (correct total : Z) (model' : Model) (rl : T) (c t : Z),
  validate_loop model criterion device batches i running_loss correct total
  = Ok (model', (rl, c, t)) ->
  0 <= correct -> 0 <= total -> 0 <= c /\ 0 <= t.
Proof.
  induction batches as [|[inputs labels] rest IH];
    intros model i running_loss correct total model' rl c t Hloop Hc Ht.
  - cbn [validate_loop] in Hloop. inversion Hloop; subst. auto.
  - cbn [validate_loop] in Hloop. unfold tensor_to in Hloop.
    destruct (device_available device); cbn [mbind result_bind] in Hloop; [|discriminate].
    destruct (call model device inputs) as [[outputs model1]|e];
      cbn [mbind result_bind] in Hloop; [|discriminate].
    destruct (criterion outputs labels) as [loss|e];
      cbn [mbind result_bind] in Hloop; [|discriminate].
    destruct (argmax outputs) as [predicted|e];
      cbn [mbind result_bind] in Hloop; [|discriminate].
    destruct (eq_sum predicted labels) as [n|e] eqn:Hn;
      cbn [mbind result_bind] in Hloop; [|discriminate].
    destruct (set_postfix _ _ _ _) as [[]|e];
      cbn [mbind result_bind] in Hloop; [|discriminate].
    pose proof (eq_sum_nonneg _ _ _ Hn). pose proof (size0_nonneg labels).
    apply IH in Hloop; [exact Hloop | lia | lia].
Qed.

Lemma train_loop_counts criterion (device : string) :
  forall (batches : list Batch) (model : Model) (optimizer : Optim) (i : Z)
         (running_loss : T) (correct total : Z) (model' : Model) (optimizer' : Optim)
         (rl : T) (c t : Z),
  train_loop model optimizer criterion device batches i running_loss correct total
  = Ok (model', optimizer', (rl, c, t)) ->
  0 <= correct -> 0 <= total -> 0 <= c /\ 0 <= t.
Proof.
  induction batches as [|[inputs labels] rest IH];
    intros model optimizer i running_loss correct total model' optimizer' rl c t
           Hloop Hc Ht.
  - cbn [train_loop] in Hloop. inversion Hloop; subst. auto.
  - cbn [train_loop] in Hloop. unfold tensor_to in Hloop.
    destruct (device_available device); cbn [mbind result_bind] in Hloop; [|discriminate].
    destruct (call model device inputs) as [[outputs model1]|e];
      cbn [mbind result_bind] in Hloop; [|discriminate].
    destruct (criterion outputs labels) as [loss|e];
      cbn [mbind result_bind] in Hloop; [|discriminate].
    destruct (backward_step _ _ _ _) as [[params2 optimizer2]|e];
      cbn [mbind result_bind] in Hloop; [|discriminate].
    destruct (argmax outputs) as [predicted|e];
      cbn [mbind result_bind] in Hloop; [|discriminate].
    destruct (eq_sum predicted labels) as [n|e] eqn:Hn;
      cbn [mbind result_bind] in Hloop; [|discriminate].
    destruct (set_postfix _ _ _ _) as [[]|e];
      cbn [mbind result_bind] in Hloop; [|discriminate].
    pose proof (eq_sum_nonneg _ _ _ Hn). pose proof (size0_nonneg labels).
    apply IH in Hloop; [exact Hloop | lia | lia].
Qed.

(** The accuracy that [validate] returns is not a NaN. *)
Lemma validate_acc_not_nan (model model' : Model) (valloader : list Batch) criterion
  (device : string) (val_loss : T) (val_acc : float) :
  validate model valloader criterion device = Ok (model', (val_loss, val_acc)) ->
  is_nan val_acc = false.
Proof.
  unfold validate.
  destruct (validate_loop _ _ _ _ _ _ _ _) as [[m [[rl c] t]]|e] eqn:Hloop;
    cbn [mbind result_bind]; [|discriminate].
  apply validate_loop_counts in Hloop as [Hc Ht]; [|lia|lia].
  destruct (loss_div_int _ _) as [l|e]; cbn [mbind result_bind]; [|discriminate].
  destruct (float_mul_int 100 c) as [x|e] eqn:Hmul; cbn [mbind result_bind];
    [|discriminate].
  destruct (float_div_int x t) as [a|e] eqn:Hdiv; cbn [mbind result_bind];
    [|discriminate].
  intros E. inversion E; subst.
  exact (percentage_not_nan _ _ _ _ Hc Ht Hmul Hdiv).
Qed.

(** No epoch of a training loop logs a NaN as validation accuracy. *)
Lemma logged_val_acc_not_nan config criterion trainloader valloader :
  forall (epoch_list : list Z) st st',
  training_loop config criterion trainloader valloader st epoch_list = Ok st' ->
  Forall (fun v => is_nan v = false) (logged_val_acc (events st)) ->
  Forall (fun v => is_nan v = false) (logged_val_acc (events st')).
Proof.
  induction epoch_list as [|epoch rest IH]; intros st st' Hloop Hnan.
  - cbn [training_loop] in Hloop. inversion Hloop; subst. exact Hnan.
  - cbn [training_loop] in Hloop.
    destruct (epoch_step config criterion trainloader valloader st epoch)
      as [st1|e] eqn:Hstep; cbn [mbind result_bind] in Hloop; [|discriminate].
    apply (IH st1 st' Hloop).
    apply epoch_step_inv in Hstep
      as (model1 & optimizer1 & train_loss & train_acc & val_loss & val_acc
          & _ & Hval & _ & Hshape).
    cbv zeta in Hshape. apply validate_acc_not_nan in Hval.
    destruct (best_val_acc st <? val_acc)%float;
      destruct Hshape as (He & _); rewrite He, logged_val_acc_app;
      (apply Forall_app; split; [exact Hnan|]); repeat constructor; exact Hval.
Qed.
End NeverNaN.

(** ** The checkpoint of an epoch *)

(** C3: take any epoch of the loop of simple_cnn.py or soph_cnn.py that
    runs to its end, after the epochs [before].  [best_val_acc] is then the
    maximum validation accuracy recorded so far: it is 0.0 or one of those
    logged, and at least each of them.  In the epoch,
    [train] has returned a model on which [validate] has returned the
    validation accuracy [val_acc] of the epoch, which is the one logged;
    "best_model.pth" is overwritten (and mirrored to the tracker) if and
    only if [val_acc > best_val_acc]; in that case [best_val_acc] becomes
    [val_acc] and the file holds the [state_dict] of the model as
    [validate] left it, otherwise the file and [best_val_acc] are
    unchanged. *)
Theorem checkpoint_iff_strictly_greater `{Torch} {T : Type} `{LossScalar T}
  (config : Config) (criterion : Outputs -> list Z -> result T)
  (trainloader valloader : Z -> list Batch)
  (model0 : Model) (optimizer0 : Optim) (files0 : gmap string StateDict)
  (before : list Z) (epoch : Z) (st st' : RunState) :
  training_loop config criterion trainloader valloader
    (initial_state model0 optimizer0 files0) before = Ok st ->
  epoch_step config criterion trainloader valloader st epoch = Ok st' ->
  Forall (fun v => geb (best_val_acc st) v = true) (logged_val_acc (events st)) /\
  (best_val_acc st = 0%float \/ In (best_val_acc st) (logged_val_acc (events st))) /\
  exists model1 optimizer1 train_loss train_acc val_loss val_acc new_events,
    train epoch (model st) (trainloader epoch) (optimizer st) criterion config
    = Ok (model1, optimizer1, (train_loss, train_acc)) /\
    validate model1 (valloader epoch) criterion (device config)
    = Ok (model st', (val_loss, val_acc)) /\
    events st' = events st
                 ++ WandbLog (epoch + 1) train_loss train_acc val_loss val_acc
                      (current_lr (scheduler_step optimizer1))
                 :: new_events /\
    (In (TorchSave "best_model.pth") new_events
     <-> (best_val_acc st <? val_acc)%float = true) /\
    ((best_val_acc st <? val_acc)%float = true ->
     best_val_acc st' = val_acc /\
     files st' = <["best_model.pth" := state_dict (parameters (model st'))]> (files st) /\
     new_events = [TorchSave "best_model.pth"; WandbSave "best_model.pth"]) /\
    ((best_val_acc st <? val_acc)%float = false ->
     best_val_acc st' = best_val_acc st /\ files st' = files st /\
     new_events = []).
Proof.
  intros Hbefore Hstep.
  assert (Hnan : Forall (fun v => is_nan v = false) (logged_val_acc (events st))).
  { apply (logged_val_acc_not_nan _ _ _ _ _ _ _ Hbefore). constructor. }
  destruct (training_loop_maximum _ _ _ _ _ _ _ Hbefore Hnan eq_refl) as [Hmax Hin];
    [constructor|].
  split; [exact Hmax|]. split; [exact Hin|].
  apply epoch_step_inv in Hstep
    as (model1 & optimizer1 & train_loss & train_acc & val_loss & val_acc
        & Htrain & Hval & Hopt & Hshape).
  exists model1, optimizer1, train_loss, train_acc, val_loss, val_acc.
  cbv zeta in Hshape. rewrite Hopt in Hshape.
  destruct (best_val_acc st <? val_acc)%float.
  - destruct Hshape as (He & Hf & Hb).
    exists [TorchSave "best_model.pth"; WandbSave "best_model.pth"].
    repeat split; auto; try discriminate; intros _; left; reflexivity.
  - destruct Hshape as (He & Hf & Hb).
    exists []. repeat split; auto; try discriminate; intros [].
Qed.

Lemma checkpoint_iff_strictly_greater_witness :
  Forall (fun v => geb (best_val_acc after_first_epoch) v = true)
    (logged_val_acc (events after_first_epoch)) /\
  (best_val_acc after_first_epoch = 0%float \/
   In (best_val_acc after_first_epoch) (logged_val_acc (events after_first_epoch))) /\
  exists model1 optimizer1 train_loss train_acc val_loss val_acc new_events,
    train (H:=counting_torch) 1 (model after_first_epoch) (one_batch 2)
      (optimizer after_first_epoch) unit_criterion (CONFIG simple_cnn "cpu")
    = Ok (model1, optimizer1, (train_loss, train_acc)) /\
    validate (H:=counting_torch) model1 (one_batch 2) unit_criterion
      (device (CONFIG simple_cnn "cpu"))
    = Ok (model after_second_epoch, (val_loss, val_acc)) /\
    events after_second_epoch
    = events after_first_epoch
      ++ WandbLog (1 + 1) train_loss train_acc val_loss val_acc
           (current_lr (Torch:=counting_torch) (scheduler_step optimizer1))
      :: new_events /\
    (In (TorchSave "best_model.pth") new_events
     <-> (best_val_acc after_first_epoch <? val_acc)%float = true) /\
    ((best_val_acc after_first_epoch <? val_acc)%float = true ->
     best_val_acc after_second_epoch = val_acc /\
     files after_second_epoch
     = <["best_model.pth" :=
           state_dict (Torch:=counting_torch) (parameters (model after_second_epoch))]>
         (files after_first_epoch) /\
     new_events = [TorchSave "best_model.pth"; WandbSave "best_model.pth"]) /\
    ((best_val_acc after_first_epoch <? val_acc)%float = false ->
     best_val_acc after_second_epoch = best_val_acc after_first_epoch /\
     files after_second_epoch = files after_first_epoch /\
     new_events = []).
Proof.
  apply (checkpoint_iff_strictly_greater (H:=counting_torch)
           (CONFIG simple_cnn "cpu") unit_criterion
           (fun _ => one_batch 2) (fun _ => one_batch 2)
           (mkModel (H:=counting_torch) 0 true) tt ∅ [0] 1
           after_first_epoch after_second_epoch).
  - vm_compute. reflexivity.
  - vm_compute. reflexivity.
Defined.

(** ** Patience and the running minimum of [EarlyStopping] *)

Lemma ltb_geb (a b : float) : (a <? b)%float = true -> geb b a = true.
Proof.
  intros H. unfold geb. rewrite FloatAxioms.leb_spec. unfold SFleb.
  rewrite FloatAxioms.ltb_spec in H. unfold SFltb in H.
  destruct (SFcompare (Prim2SF a) (Prim2SF b)) as [[| |]|]; congruence.
Qed.

Lemma geb_not_nan (a b : float) :
  geb a b = true -> is_nan a = false /\ is_nan b = false.
Proof.
  unfold geb. rewrite FloatAxioms.leb_spec. unfold SFleb. intros H.
  split; apply is_nan_false_spec; intros N; rewrite N in H;
    [destruct (Prim2SF b) | ]; discriminate.
Qed.

Lemma geb_trans (a b c : float) :
  geb a b = true -> geb b c = true -> geb a c = true.
Proof.
  intros Hab Hbc.
  destruct (geb_not_nan _ _ Hab) as [Na Nb]. destruct (geb_not_nan _ _ Hbc) as [_ Nc].
  apply is_nan_false_spec in Na, Nb, Nc.
  unfold geb in *. rewrite !FloatAxioms.leb_spec in *. unfold SFleb in *.
  pose proof (Prim2SF_valid a) as Va.
  pose proof (Prim2SF_valid b) as Vb.
  pose proof (Prim2SF_valid c) as Vc.
  rewrite (SFcompare_Zval _ _ Vb Va Nb Na) in Hab.
  rewrite (SFcompare_Zval _ _ Vc Vb Nc Nb) in Hbc.
  rewrite (SFcompare_Zval _ _ Vc Va Nc Na).
  destruct (Z.compare_spec (Zval (Prim2SF b)) (Zval (Prim2SF a))); try discriminate;
    destruct (Z.compare_spec (Zval (Prim2SF c)) (Zval (Prim2SF b))); try discriminate;
    destruct (Z.compare_spec (Zval (Prim2SF c)) (Zval (Prim2SF a))); try reflexivity; lia.
Qed.

(** One call: the flag is raised only by a counter that has reached
    [tolerance], and the counter grows by at most one. *)
Lemma check_counter (self : EarlyStopping) (v : float) :
  0 <= counter self ->
  0 <= counter (snd (early_stop_check self v)) <= counter self + 1 /\
  (fst (early_stop_check self v) = true -> tolerance self <= counter self + 1).
Proof.
  intros Hc. unfold early_stop_check.
  destruct (v + min_delta self <? min_validation_loss self)%float;
    [cbn; split; [lia | discriminate]|].
  destruct (geb (v + min_delta self) (min_validation_loss self));
    [|cbn; split; [lia | discriminate]].
  cbn [counter tolerance].
  destruct (Z.geb_spec (counter self + 1) (tolerance self));
    cbn; split; try lia; discriminate.
Qed.

Lemma calls_below_tolerance (l : list float) :
  forall self : EarlyStopping,
  0 <= counter self ->
  counter self + Z.of_nat (length l) < tolerance self ->
  fst (early_stop_calls self l) = repeat false (length l).
Proof.
  induction l as [|v l IH]; intros self Hc Hlen; [reflexivity|].
  cbn [early_stop_calls length repeat].
  pose proof (check_counter self v Hc) as [Hc1 Hflag].
  pose proof (early_stop_check_settings self v) as [Ht _].
  destruct (early_stop_check self v) as [b self1]. cbn [fst snd] in *.
  cbn [length] in Hlen.
  specialize (IH self1 ltac:(lia) ltac:(lia)).
  destruct (early_stop_calls self1 l) as [bs self2]. cbn [fst] in *.
  rewrite IH. f_equal.
  destruct b; [|reflexivity]. specialize (Hflag eq_refl). lia.
Qed.

(** An [EarlyStopping] object raises no stop signal during its first
    [tolerance - 1] calls, whatever the losses: a sequence of fewer than
    [tolerance] calls on a new object returns [False] every time. *)
Theorem no_stop_before_tolerance (t : Z) (md : float) (l : list float) :
  Z.of_nat (length l) < t ->
  fst (early_stop_calls (EarlyStopping_init t md) l) = repeat false (length l).
Proof.
  intros Hlen. apply calls_below_tolerance; cbn [EarlyStopping_init counter tolerance]; lia.
Qed.

Lemma no_stop_before_tolerance_witness :
  fst (early_stop_calls (EarlyStopping_init 3 0) [1; 1]%float) = repeat false 2.
Proof.
  apply (no_stop_before_tolerance 3 0 [1; 1]%float). cbn. lia.
Defined.

(** One call with [min_delta >= 0] on an object whose best loss is not NaN. *)
Lemma check_best (self : EarlyStopping) (v : float) :
  (0 <=? min_delta self)%float = true ->
  is_nan (min_validation_loss self) = false ->
  let self1 := snd (early_stop_check self v) in
  (min_validation_loss self1 = min_validation_loss self \/
   min_validation_loss self1 = v) /\
  is_nan (min_validation_loss self1) = false /\
  geb (min_validation_loss self) (min_validation_loss self1) = true /\
  (is_nan (v + min_delta self) = false ->
   geb (v + min_delta self) (min_validation_loss self1) = true).
Proof.
  intros Hmd Hb self1. subst self1. unfold early_stop_check.
  destruct (v + min_delta self <? min_validation_loss self)%float eqn:Hlt.
  - cbn [snd min_validation_loss].
    pose proof (add_nonneg_ltb _ _ _ Hmd Hlt) as Hv.
    pose proof (ltb_not_nan_l _ _ Hv) as Nv.
    repeat split; auto.
    + apply ltb_geb. exact Hv.
    + intros Nn.
      assert (Hvv : (v + min_delta self <? v)%float = false).
      { destruct (v + min_delta self <? v)%float eqn:E; [|reflexivity].
        rewrite <- (add_nonneg_ltb _ _ _ Hmd E). apply ltb_irrefl. }
      rewrite (ltb_false_geb _ _ Hvv), Nn, Nv. reflexivity.
  - pose proof (ltb_false_geb _ _ Hlt) as Hge. rewrite Hb, orb_false_r in Hge.
    destruct (geb (v + min_delta self) (min_validation_loss self)) eqn:Hg.
    + cbn [counter tolerance].
      destruct (counter self + 1 >=? tolerance self); cbn [snd min_validation_loss];
        repeat split; auto using geb_refl.
    + cbn [snd]. repeat split; auto using geb_refl.
      intros Nn. rewrite Nn in Hge. discriminate Hge.
Qed.

Lemma calls_best (md : float) (l : list float) :
  (0 <=? md)%float = true ->
  forall self : EarlyStopping,
  min_delta self = md ->
  is_nan (min_validation_loss self) = false ->
  let self' := snd (early_stop_calls self l) in
  Forall (fun v => is_nan (v + md) = false ->
                   geb (v + md) (min_validation_loss self') = true) l /\
  (min_validation_loss self' = min_validation_loss self \/
   In (min_validation_loss self') l) /\
  is_nan (min_validation_loss self') = false /\
  geb (min_validation_loss self) (min_validation_loss self') = true.
Proof.
  intros Hmd. induction l as [|v l IH]; intros self Hself Hb.
  - cbn. repeat split; auto. apply geb_refl. exact Hb.
  - cbn [early_stop_calls].
    pose proof (check_best self v ltac:(rewrite Hself; exact Hmd) Hb) as Hstep.
    pose proof (early_stop_check_settings self v) as [_ Hm].
    cbv zeta in Hstep. rewrite Hself in Hstep, Hm.
    destruct (early_stop_check self v) as [b self1]. cbn [snd] in *.
    destruct Hstep as (Hor & Hb1 & Hge & Hv).
    specialize (IH self1 Hm Hb1). cbv zeta in IH.
    destruct (early_stop_calls self1 l) as [bs self2]. cbn [snd] in *.
    destruct IH as (Hall & Hor' & Hb2 & Hge').
    repeat split.
    + constructor; [|exact Hall].
      intros Nn. exact (geb_trans _ _ _ (Hv Nn) Hge').
    + destruct Hor' as [E|Hin]; [|right; right; exact Hin].
      rewrite E. destruct Hor as [E1|E1]; [left; exact E1 | right; left; symmetry; exact E1].
    + exact Hb2.
    + exact (geb_trans _ _ _ Hge Hge').
Qed.

(** With [min_delta >= 0], the recorded [min_validation_loss] is a lower
    bound of the losses seen: after any sequence of calls on a new object it
    is at most [v + min_delta] for every loss [v] of the sequence (NaN
    apart); it is +infinity or one of the losses, and never NaN.  With
    [min_delta = 0.0], as in the script, it is the smallest loss seen. *)
Theorem min_validation_loss_is_lower_bound (t : Z) (md : float) (l : list float) :
  (0 <=? md)%float = true ->
  let self := snd (early_stop_calls (EarlyStopping_init t md) l) in
  Forall (fun v => is_nan (v + md) = false ->
                   geb (v + md) (min_validation_loss self) = true) l /\
  (min_validation_loss self = infinity \/ In (min_validation_loss self) l) /\
  is_nan (min_validation_loss self) = false.
Proof.
  intros Hmd self.
  destruct (calls_best md l Hmd (EarlyStopping_init t md) eq_refl eq_refl)
    as (Hall & Hor & Hb & _).
  repeat split; assumption.
Qed.

Lemma min_validation_loss_is_lower_bound_witness :
  let self := snd (early_stop_calls (EarlyStopping_init 3 0) scenario_losses) in
  Forall (fun v => is_nan (v + 0) = false ->
                   geb (v + 0) (min_validation_loss self) = true) scenario_losses /\
  (min_validation_loss self = infinity \/ In (min_validation_loss self) scenario_losses) /\
  is_nan (min_validation_loss self) = false.
Proof.
  apply (min_validation_loss_is_lower_bound 3 0 scenario_losses). reflexivity.
Defined.

(** ** The training loop of transfer_cnn.py *)

Section TransferFacts.
Context `{Torch}.

Implicit Types (st : RunState (T:=float)) (config : Config)
  (criterion : Outputs -> list Z -> result float) (trainloader valloader : Z -> list Batch)
  (es : EarlyStopping).



(** What the loop of transfer_cnn.py does to the files. *)
Lemma transfer_loop_files config criterion trainloader valloader :
  forall (epoch_list : list Z) st st' es es',
  transfer_training_loop config criterion trainloader valloader st es epoch_list
  = Ok (st', es') ->
  (epoch_list = [] \/
   files st' !! "best_model.pth" = Some (state_dict (parameters (model st')))) /\
  (forall path : string,
     path <> "best_model.pth" -> files st' !! path = files st !! path) /\
  best_val_acc st' = best_val_acc st.
Proof.
  induction epoch_list as [|epoch rest IH]; intros st st' es es' Hloop.
  - cbn [transfer_training_loop] in Hloop. inversion Hloop; subst. auto.
  - cbn [transfer_training_loop] in Hloop.
    destruct (transfer_epoch_step config criterion trainloader valloader st es epoch)
      as [[[st1 es1] stop]|e] eqn:Hstep; cbn [mbind result_bind] in Hloop;
      [|discriminate].
    assert (Hb1 : best_val_acc st1 = best_val_acc st).
    { unfold transfer_epoch_step, run_epoch in Hstep.
      destruct (train epoch (model st) (trainloader epoch) (optimizer st) criterion config)
        as [[[model1 optimizer1] [train_loss train_acc]]|e];
        cbn [mbind result_bind] in Hstep; [|discriminate].
      destruct (validate model1 (valloader epoch) criterion (device config))
        as [[model2 [val_loss val_acc]]|e];
        cbn [mbind result_bind] in Hstep; [|discriminate].
      destruct (early_stop_check es val_loss) as [b es2].
      inversion Hstep; subst. reflexivity. }
    apply transfer_epoch_always_saves in Hstep
      as (train_loss & train_acc & val_loss & val_acc & lr & _ & Hf & _).
    assert (H1 : files st1 !! "best_model.pth" = Some (state_dict (parameters (model st1))))
      by (rewrite Hf; apply lookup_insert_eq).
    assert (H2 : forall path : string,
              path <> "best_model.pth" -> files st1 !! path = files st !! path).
    { intros path Hp. rewrite Hf. apply lookup_insert_ne. congruence. }
    destruct stop.
    + inversion Hloop; subst. auto.
    + destruct (IH _ _ _ _ Hloop) as (Hor & Hfr & Hb).
      split; [right|split].
      * destruct Hor as [->|Hs]; [|exact Hs].
        cbn [transfer_training_loop] in Hloop. inversion Hloop; subst. exact H1.
      * intros path Hp. rewrite (Hfr path Hp). exact (H2 path Hp).
      * congruence.
Qed.

(** transfer_cnn.py saves the checkpoint in every epoch, whatever the
    validation accuracy: after a loop of at least one epoch "best_model.pth"
    holds the [state_dict] of the model as the last epoch left it, which is
    what [torch.load] reads in the evaluation stage; no other file is
    touched. *)
Theorem transfer_loop_checkpoint_is_last_model config criterion trainloader valloader
  (epoch_list : list Z) st st' es es' :
  epoch_list <> [] ->
  transfer_training_loop config criterion trainloader valloader st es epoch_list
  = Ok (st', es') ->
  torch_load (files st') "best_model.pth" = Ok (state_dict (parameters (model st'))) /\
  (forall path : string,
     path <> "best_model.pth" -> files st' !! path = files st !! path) /\
  best_val_acc st' = best_val_acc st.
Proof.
  intros Hne Hloop.
  destruct (transfer_loop_files _ _ _ _ _ _ _ _ _ Hloop) as ([->|Hs] & Hfr & Hb);
    [congruence|].
  unfold torch_load. rewrite Hs. auto.
Qed.
End TransferFacts.

(** ** What [train] has done when it returns *)

Section TrainFacts.
Context `{Torch} {T : Type} `{LossScalar T}.

Implicit Types (model : Model) (criterion : Outputs -> list Z -> result T)
  (batches : list Batch).

(** When the loop of [train] ends, the device was there for every batch, the
    first batch held a sample unless samples had been counted before, and
    the parameters and the optimizer are those of one update per batch. *)
Lemma train_loop_inv criterion (device : string) :
  forall batches model (optimizer : Optim) (i : Z) (running_loss : T)
         (correct total : Z) model' optimizer' rl c t,
  training model = true -> 0 <= total ->
  train_loop model optimizer criterion device batches i running_loss correct total
  = Ok (model', optimizer', (rl, c, t)) ->
  train_updates (parameters model) optimizer device batches
  = Ok (parameters model', optimizer') /\
  training model' = true /\
  t = total + total_count batches /\
  (batches <> [] -> device_available device = true) /\
  (total = 0 -> batches <> [] -> starts_empty batches = false).
Proof.
  induction batches as [|[inputs labels] rest IH];
    intros model optimizer i running_loss correct total model' optimizer' rl c t
           Hmode Ht0 Hloop.
  - cbn [train_loop] in Hloop. inversion Hloop; subst.
    unfold total_count. cbn. repeat split; try lia; try assumption; congruence.
  - cbn [train_loop] in Hloop. unfold tensor_to, call in Hloop.
    destruct (device_available device) eqn:Hdev;
      cbn [mbind result_bind] in Hloop; [|discriminate].
    cbn [train_updates]. rewrite Hmode in Hloop.
    destruct (forward (parameters model) true device inputs) as [[outputs params1]|e];
      cbn [mbind result_bind parameters training] in Hloop |- *; [|discriminate].
    destruct (criterion outputs labels) as [loss|e];
      cbn [mbind result_bind] in Hloop; [|discriminate].
    destruct (backward_step params1 optimizer inputs labels) as [[params2 optimizer2]|e];
      cbn [mbind result_bind] in Hloop |- *; [|discriminate].
    destruct (argmax outputs) as [predicted|e];
      cbn [mbind result_bind] in Hloop; [|discriminate].
    destruct (eq_sum predicted labels) as [n|e];
      cbn [mbind result_bind] in Hloop; [|discriminate].
    destruct (set_postfix _ _ _ _) as [[]|e] eqn:Hpost;
      cbn [mbind result_bind] in Hloop; [|discriminate].
    pose proof (size0_nonneg labels) as Hsz.
    apply IH in Hloop as (Hup & Hm & -> & _ & _); [|reflexivity | lia].
    cbn [parameters] in Hup. rewrite total_count_cons. cbn [snd].
    repeat split; try assumption; try lia.
    intros -> _. destruct labels as [|l labels]; [|reflexivity]. exfalso.
    change (size0 []) with 0 in Hpost. rewrite Z.add_0_l in Hpost.
    pose proof (set_postfix_zero_total (loss_add running_loss loss) i (correct + n)) as Hz.
    rewrite Hpost in Hz. discriminate Hz.
Qed.

(** Whenever [train] returns, the loader had a first batch with at least
    one sample (on a loader without a batch, or whose first batch has no
    sample, [train] never returns), the device was available, the returned
    model is in training mode, and its parameters and the optimizer are
    those of one forward pass and one update per batch, in the order of the
    loader. *)
Theorem train_outcome (epoch : Z) model (trainloader : list Batch)
  (optimizer : Optim) criterion (config : Config)
  model' (optimizer' : Optim) (train_loss : T) (train_acc : float) :
  train epoch model trainloader optimizer criterion config
  = Ok (model', optimizer', (train_loss, train_acc)) ->
  starts_empty trainloader = false /\
  device_available (device config) = true /\
  training model' = true /\
  train_updates (parameters model) optimizer (device config) trainloader
  = Ok (parameters model', optimizer').
Proof.
  unfold train. cbv zeta.
  destruct (train_loop _ _ _ _ _ _ _ _ _) as [[[m o] [[rl c] t]]|e] eqn:Hloop;
    cbn [mbind result_bind]; [|discriminate].
  apply train_loop_inv in Hloop as (Hup & Hm & -> & Hdev & Hne);
    [|reflexivity | lia].
  cbn [parameters] in Hup. rewrite Z.add_0_l.
  destruct (loss_div_int _ _) as [l|e]; cbn [mbind result_bind]; [|discriminate].
  destruct (float_mul_int 100 c) as [x|e]; cbn [mbind result_bind]; [|discriminate].
  destruct (float_div_int x (total_count trainloader)) as [a|e] eqn:Hdiv;
    cbn [mbind result_bind]; [|discriminate].
  intros E. inversion E; subst; clear E.
  assert (Hnil : trainloader <> []).
  { intros ->. unfold total_count in Hdiv. cbn in Hdiv. discriminate Hdiv. }
  auto.
Qed.
End TrainFacts.

(** ** When [validate] raises [ZeroDivisionError] *)

Section ValidateOutcome.
Context `{Torch} {T : Type} `{LossScalar T}.
Hypothesis loss_div_is_ok :
  forall (x : T) (n : Z), 0 < n < float_int_bound -> is_ok (loss_div_int x n) = true.
Hypothesis loss_div_zero :
  forall x : T, loss_div_int x 0 = Raise ZeroDivisionError.

Implicit Types (model : Model) (criterion : Outputs -> list Z -> result T).

(** Without a label, [eq] counts nothing. *)
Lemma eq_sum_no_label (predicted : list Z) (n : Z) :
  eq_sum predicted [] = Ok n -> n = 0.
Proof.
  unfold eq_sum. destruct predicted as [|p [|p' ps]]; cbn; intros E; inversion E; reflexivity.
Qed.

(** On a loader that starts empty, [validate] raises [ZeroDivisionError]
    when the first batch, if there is one, gets through the forward pass,
    the criterion and the count. *)
Lemma validate_starts_empty model (valloader : list Batch) criterion (device : string) :
  eval_forward_pure (parameters model) device ->
  starts_empty valloader = true ->
  (forall b : Batch, head valloader = Some b ->
     is_ok (batch_loss (mkModel (parameters model) false) criterion device b) = true /\
     is_ok (batch_correct (mkModel (parameters model) false) device b) = true) ->
  validate model valloader criterion device = Raise ZeroDivisionError.
Proof.
  intros Hpure Hs Hfirst. unfold validate.
  set (model_eval := mkModel (parameters model) false) in *.
  destruct valloader as [|[inputs [|label labels]] rest]; try discriminate Hs.
  - cbn [validate_loop mbind result_bind length]. change (Z.of_nat 0) with 0.
    rewrite loss_div_zero. reflexivity.
  - destruct (Hfirst _ eq_refl) as [Hl Hc].
    apply is_ok_exists in Hl as [loss Hl]. apply is_ok_exists in Hc as [n Hc].
    rewrite (validate_loop_step model_eval criterion device _ _ _ _ _ _ eq_refl Hpure).
    rewrite Hl, Hc. cbn [mbind result_bind snd].
    assert (n = 0) as ->.
    { unfold batch_correct in Hc.
      destruct (batch_predicted model_eval device (inputs, [])) as [p|e];
        cbn [mbind result_bind snd] in Hc; [|discriminate].
      exact (eq_sum_no_label _ _ Hc). }
    change (size0 []) with 0. rewrite !Z.add_0_l.
    rewrite (set_postfix_no_sample loss_div_is_ok) by (unfold float_int_bound; lia).
    reflexivity.
Qed.

(** [validate], for a model whose forward pass in evaluation mode leaves it
    as it is, on a loader whose batches all get through the forward pass,
    the criterion and the count (the numbers of batches, samples and right
    predictions being ints that [float] accepts, below [float_int_bound]):
    it raises [ZeroDivisionError] exactly when the loader has no batch or
    its first batch has no sample; a later batch without a sample is
    harmless.  Otherwise it returns the mean of the batch losses and
    [100 * correct / total], computed in evaluation mode. *)
Theorem validate_raises_iff_starts_empty model (valloader : list Batch) criterion
  (device : string) :
  eval_forward_pure (parameters model) device ->
  is_ok (sum_losses (mkModel (parameters model) false) criterion device valloader) = true ->
  is_ok (correct_count (mkModel (parameters model) false) device valloader) = true ->
  Z.of_nat (length valloader) < float_int_bound ->
  total_count valloader < float_int_bound ->
  (forall c, correct_count (mkModel (parameters model) false) device valloader = Ok c ->
             c < float_int_bound) ->
  (starts_empty valloader = true ->
   validate model valloader criterion device = Raise ZeroDivisionError) /\
  (starts_empty valloader = false ->
   exists (val_loss : T) (val_acc : float),
     validate model valloader criterion device
     = Ok (mkModel (parameters model) false, (val_loss, val_acc)) /\
     mean_loss (mkModel (parameters model) false) criterion device valloader
     = Ok val_loss /\
     accuracy_percentage (mkModel (parameters model) false) device valloader
     = Ok val_acc).
Proof.
  intros Hpure Hls Hcs Hlen Htot Hcor. split.
  - intros Hs. apply validate_starts_empty; try assumption.
    intros b Hb. destruct valloader as [|b' rest]; [discriminate Hb|].
    cbn [head] in Hb. inversion Hb; subst b'.
    unfold sum_losses in Hls. unfold correct_count in Hcs. cbn [collect] in Hls, Hcs.
    destruct (batch_loss _ _ _ b); [|discriminate Hls].
    destruct (batch_correct _ _ b); [|discriminate Hcs].
    split; reflexivity.
  - intros Hs.
    exact (validate_returns loss_div_is_ok model valloader criterion device
             Hpure Hs Hls Hcs Hlen Htot Hcor).
Qed.
End ValidateOutcome.

(** ** The evaluation on the clean test set *)

Section EvaluateFacts.
Context `{Torch}.

Implicit Types (model : Model) (device : string) (b : Batch) (batches rest : list Batch).

(** One iteration of the loop of [evaluate_cifar100_test], in terms of what
    the batch contributes. *)
Lemma evaluate_loop_step model device b rest (predictions : list Z) (correct total : Z) :
  training model = false -> eval_forward_pure (parameters model) device ->
  evaluate_loop model device (b :: rest) predictions correct total
  = (predicted ← batch_predicted model device b;
     n ← eq_sum predicted (snd b);
     evaluate_loop model device rest (predictions ++ predicted) (correct + n)
       (total + size0 (snd b))).
Proof.
  intros Hmode Hpure. destruct b as [inputs labels].
  cbn [evaluate_loop]. unfold batch_predicted, batch_outputs.
  cbn [fst snd]. unfold tensor_to.
  destruct (device_available device); cbn [mbind result_bind]; [|reflexivity].
  destruct (call model device inputs) as [[outputs model']|e] eqn:Hcall;
    cbn [mbind result_bind]; [|reflexivity].
  rewrite (call_eval_pure _ _ _ _ _ Hmode Hpure Hcall).
  destruct (argmax outputs) as [predicted|e]; cbn [mbind result_bind]; reflexivity.
Qed.

(** The loop ends exactly when every batch gives its predictions and its
    count, and it has then collected them in order. *)
Lemma evaluate_loop_ok model device :
  training model = false -> eval_forward_pure (parameters model) device ->
  forall batches (predictions : list Z) (correct total : Z)
         model' (predictions' : list Z) (correct' total' : Z),
  evaluate_loop model device batches predictions correct total
  = Ok (model', (predictions', correct', total'))
  <-> model' = model /\
      exists (predicted : list (list Z)) (counts : list Z),
        collect (batch_predicted model device) batches = Ok predicted /\
        collect (batch_correct model device) batches = Ok counts /\
        predictions' = predictions ++ concat predicted /\
        correct' = correct + sumZ counts /\
        total' = total + total_count batches.
Proof.
  intros Hmode Hpure.
  induction batches as [|b rest IH];
    intros predictions correct total model' predictions' correct' total'.
  - cbn [evaluate_loop collect]. unfold total_count. cbn [map sumZ fold_right]. split.
    + intros E. inversion E; subst. split; [reflexivity|].
      exists [], []. cbn. rewrite app_nil_r. repeat split; lia.
    + intros (-> & predicted & counts & Hp & Hc & -> & -> & ->).
      inversion Hp; inversion Hc; subst. cbn. rewrite app_nil_r, !Z.add_0_r. reflexivity.
  - rewrite (evaluate_loop_step _ _ _ _ _ _ _ Hmode Hpure).
    cbn [collect].
    change (batch_correct model device b)
      with (predicted ← batch_predicted model device b; eq_sum predicted (snd b)).
    destruct (batch_predicted model device b) as [p|e]; cbn [mbind result_bind].
    2:{ split; [discriminate|]. intros (_ & ps & cs & Hp & _). discriminate Hp. }
    destruct (eq_sum p (snd b)) as [n|e]; cbn [mbind result_bind].
    2:{ split; [discriminate|]. intros (_ & ps & cs & _ & Hc & _). discriminate Hc. }
    rewrite IH. rewrite total_count_cons. split.
    + intros (-> & predicted & counts & Hp & Hc & -> & -> & ->).
      split; [reflexivity|]. exists (p :: predicted), (n :: counts).
      rewrite Hp, Hc. cbn [mbind result_bind concat]. unfold sumZ. cbn [fold_right].
      rewrite <- app_assoc. repeat split; lia.
    + intros (-> & predicted & counts & Hp & Hc & -> & -> & ->).
      split; [reflexivity|].
      destruct (collect (batch_predicted model device) rest) as [ps|e];
        cbn [mbind result_bind] in Hp; [|discriminate].
      destruct (collect (batch_correct model device) rest) as [cs|e];
        cbn [mbind result_bind] in Hc; [|discriminate].
      inversion Hp; inversion Hc; subst.
      exists ps, cs. cbn [concat]. unfold sumZ. cbn [fold_right].
      rewrite <- app_assoc. repeat split; lia.
Qed.

(** The evaluation after the checkpoint was loaded. *)
Lemma evaluate_loaded_ok (fs : gmap string StateDict) model
  (testloader : list Batch) device (checkpoint : StateDict) (params : Params) :
  fs !! "best_model.pth" = Some checkpoint ->
  load_state_dict (parameters model) checkpoint = Ok params ->
  eval_forward_pure params device ->
  forall model' (predictions : list Z) (clean_accuracy : float),
  evaluate_cifar100_test fs model testloader device
  = Ok (model', (predictions, clean_accuracy))
  <-> model' = mkModel params false /\
      all_predictions (mkModel params false) device testloader = Ok predictions /\
      accuracy_percentage (mkModel params false) device testloader = Ok clean_accuracy.
Proof.
  intros Hfile Hload Hpure model' predictions clean_accuracy.
  unfold evaluate_cifar100_test, torch_load. rewrite Hfile. cbn [mbind result_bind].
  rewrite Hload. cbn [mbind result_bind].
  set (loaded := mkModel params false).
  assert (Hmode : training loaded = false) by reflexivity.
  assert (Hpure' : eval_forward_pure (parameters loaded) device) by exact Hpure.
  pose proof (evaluate_loop_ok _ _ Hmode Hpure' testloader [] 0 0) as Hloop.
  unfold all_predictions, accuracy_percentage, correct_count. split.
  - destruct (evaluate_loop loaded device testloader [] 0 0)
      as [[m [[ps c] t]]|e]; cbn [mbind result_bind]; [|discriminate].
    destruct (proj1 (Hloop m ps c t) eq_refl)
      as (-> & predicted & counts & Hp & Hc & -> & -> & ->).
    rewrite Hp, Hc. cbn [mbind result_bind app]. rewrite !Z.add_0_l.
    destruct (float_mul_int 100 (sumZ counts)) as [x|e];
      cbn [mbind result_bind]; [|discriminate].
    destruct (float_div_int x (total_count testloader)) as [a|e];
      cbn [mbind result_bind]; [|discriminate].
    intros E. inversion E; subst. repeat split.
  - intros (-> & Hp & Hc).
    destruct (collect (batch_predicted loaded device) testloader) as [predicted|e] eqn:Hps;
      cbn [mbind result_bind] in Hp; [|discriminate].
    destruct (collect (batch_correct loaded device) testloader) as [counts|e] eqn:Hcs;
      cbn [mbind result_bind] in Hc; [|discriminate].
    inversion Hp; subst.
    rewrite (proj2 (Hloop loaded ([] ++ concat predicted) (0 + sumZ counts)
                      (0 + total_count testloader))).
    2:{ split; [reflexivity|]. exists predicted, counts. repeat split. }
    cbn [mbind result_bind app]. rewrite !Z.add_0_l.
    destruct (float_mul_int 100 (sumZ counts)) as [x|e];
      cbn [mbind result_bind] in Hc |- *; [|discriminate].
    rewrite Hc. reflexivity.
Qed.

(** [evaluate_cifar100_test] first reads "best_model.pth": without the
    file it raises [FileNotFoundError], whatever the loader, and a
    checkpoint that [load_state_dict] refuses makes it raise what
    [load_state_dict] raises.  Otherwise it evaluates the loaded
    parameters in evaluation mode, not those the model had: it returns
    exactly when every batch gives its predictions and its count, and the
    result is then the predictions of the batches in order and
    [100 * correct / total]; it divides once, after the loop, and never
    returns on a loader without a sample. *)
Theorem evaluate_cifar100_test_outcome (fs : gmap string StateDict) model
  (testloader : list Batch) device :
  (fs !! "best_model.pth" = None ->
   evaluate_cifar100_test fs model testloader device = Raise FileNotFoundError) /\
  (forall checkpoint : StateDict,
     fs !! "best_model.pth" = Some checkpoint ->
     (forall e : exn,
        load_state_dict (parameters model) checkpoint = Raise e ->
        evaluate_cifar100_test fs model testloader device = Raise e) /\
     (forall params : Params,
        load_state_dict (parameters model) checkpoint = Ok params ->
        eval_forward_pure params device ->
        (forall model' (predictions : list Z) (clean_accuracy : float),
           evaluate_cifar100_test fs model testloader device
           = Ok (model', (predictions, clean_accuracy))
           <-> model' = mkModel params false /\
               all_predictions (mkModel params false) device testloader
               = Ok predictions /\
               accuracy_percentage (mkModel params false) device testloader
               = Ok clean_accuracy) /\
        (total_count testloader = 0 ->
         is_ok (evaluate_cifar100_test fs model testloader device) = false) /\
        (testloader = [] ->
         evaluate_cifar100_test fs model testloader device = Raise ZeroDivisionError))).
Proof.
  split.
  - intros Hnone. unfold evaluate_cifar100_test, torch_load. rewrite Hnone. reflexivity.
  - intros checkpoint Hfile. split.
    + intros e He. unfold evaluate_cifar100_test, torch_load.
      rewrite Hfile. cbn [mbind result_bind]. rewrite He. reflexivity.
    + intros params Hload Hpure.
      pose proof (evaluate_loaded_ok fs model testloader device checkpoint params
                    Hfile Hload Hpure) as Hok.
      split; [exact Hok|]. split.
      * intros Hz.
        destruct (evaluate_cifar100_test fs model testloader device)
          as [[m [ps a]]|e] eqn:E; [|reflexivity].
        apply (evaluate_loaded_ok fs model testloader device checkpoint params
                 Hfile Hload Hpure) in E as (_ & _ & Ha).
        unfold accuracy_percentage in Ha.
        rewrite Hz in Ha.
        destruct (correct_count _ _ _); cbn [mbind result_bind] in Ha; [|discriminate].
        destruct (float_mul_int 100 _); cbn [mbind result_bind] in Ha; discriminate.
      * intros ->. unfold evaluate_cifar100_test, torch_load.
        rewrite Hfile. cbn [mbind result_bind]. rewrite Hload. reflexivity.
Qed.
End EvaluateFacts.

Section EvaluateValidate.
Context `{Torch} {T : Type} `{LossScalar T}.

(** The two loops make the same calls of the model in the same order, and
    count alike. *)
Lemma validate_evaluate_loops (criterion : Outputs -> list Z -> result T)
  (device : string) :
  forall (batches : list Batch) (model : Model) (i : Z) (running_loss : T)
         (correct total : Z) (model' : Model) (rl : T) (c t : Z) (predictions : list Z),
  validate_loop model criterion device batches i running_loss correct total
  = Ok (model', (rl, c, t)) ->
  exists predictions' : list Z,
    evaluate_loop model device batches predictions correct total
    = Ok (model', (predictions', c, t)).
Proof.
  induction batches as [|[inputs labels] rest IH];
    intros model i running_loss correct total model' rl c t predictions Hloop.
  - cbn [validate_loop] in Hloop. inversion Hloop; subst.
    exists predictions. reflexivity.
  - cbn [validate_loop] in Hloop. cbn [evaluate_loop]. unfold tensor_to in *.
    destruct (device_available device); cbn [mbind result_bind] in Hloop |- *;
      [|discriminate].
    destruct (call model device inputs) as [[outputs model1]|e];
      cbn [mbind result_bind] in Hloop |- *; [|discriminate].
    destruct (criterion outputs labels) as [loss|e];
      cbn [mbind result_bind] in Hloop; [|discriminate].
    destruct (argmax outputs) as [predicted|e];
      cbn [mbind result_bind] in Hloop |- *; [|discriminate].
    destruct (eq_sum predicted labels) as [n|e];
      cbn [mbind result_bind] in Hloop |- *; [|discriminate].
    destruct (set_postfix _ _ _ _) as [[]|e];
      cbn [mbind result_bind] in Hloop; [|discriminate].
    exact (IH _ _ _ _ _ _ _ _ _ _ Hloop).
Qed.

(** The evaluation and [validate] count alike: when [validate] returns on
    a model and "best_model.pth" holds a checkpoint that loads as the
    parameters of that model, the evaluation on the same loader and device
    returns the accuracy that [validate] returned, and leaves the model as
    [validate] left it; its predictions are those of the batches in
    order. *)
Theorem evaluate_agrees_with_validate (fs : gmap string StateDict)
  (model model0 model' : Model) (loader : list Batch)
  (criterion : Outputs -> list Z -> result T) (device : string)
  (checkpoint : StateDict) (val_loss : T) (val_acc : float) :
  validate model loader criterion device = Ok (model', (val_loss, val_acc)) ->
  fs !! "best_model.pth" = Some checkpoint ->
  load_state_dict (parameters model0) checkpoint = Ok (parameters model) ->
  exists predictions : list Z,
    evaluate_cifar100_test fs model0 loader device
    = Ok (model', (predictions, val_acc)) /\
    (eval_forward_pure (parameters model) device ->
     all_predictions (mkModel (parameters model) false) device loader = Ok predictions).
Proof.
  intros Hval Hfile Hload.
  assert (Hev : exists predictions : list Z,
             evaluate_cifar100_test fs model0 loader device
             = Ok (model', (predictions, val_acc))).
  { unfold validate in Hval. unfold evaluate_cifar100_test, torch_load.
    rewrite Hfile. cbn [mbind result_bind]. rewrite Hload. cbn [mbind result_bind].
    destruct (validate_loop _ _ _ _ _ _ _ _) as [[m [[rl c] t]]|e] eqn:Hloop;
      cbn [mbind result_bind] in Hval; [|discriminate].
    destruct (validate_evaluate_loops _ _ _ _ _ _ _ _ _ _ _ _ [] Hloop)
      as [predictions ->].
    cbn [mbind result_bind].
    destruct (loss_div_int _ _) as [l|e]; cbn [mbind result_bind] in Hval; [|discriminate].
    destruct (float_mul_int 100 c) as [x|e]; cbn [mbind result_bind] in Hval |- *;
      [|discriminate].
    destruct (float_div_int x t) as [a|e]; cbn [mbind result_bind] in Hval |- *;
      [|discriminate].
    inversion Hval; subst. exists predictions. reflexivity. }
  destruct Hev as [predictions Hev]. exists predictions.
  split; [exact Hev|]. intros Hpure.
  apply (evaluate_loaded_ok fs model0 loader device checkpoint (parameters model)
           Hfile Hload Hpure) in Hev as (_ & Hp & _).
  exact Hp.
Qed.
End EvaluateValidate.

Lemma div_zero_by_positive (f : float) (m : positive) (e : Z) :
  Prim2SF f = S754_finite false m e -> (0 / f)%float = 0%float.
Proof.
  intros Hf. apply Prim2SF_inj. rewrite div_spec, Hf. reflexivity.
Qed.

(** ** The trace and the checkpoint of simple_cnn.py and soph_cnn.py *)

Section TraceFacts.
Context `{Torch} {T : Type} `{LossScalar T}.

Implicit Types (st : RunState (T:=T)) (config : Config)
  (criterion : Outputs -> list Z -> result T) (trainloader valloader : Z -> list Batch).

(** What one completed epoch adds to the trace, and what it does to the
    files and to [best_val_acc]. *)
Lemma epoch_step_trace config criterion trainloader valloader st epoch st' :
  epoch_step config criterion trainloader valloader st epoch = Ok st' ->
  exists (log : event) (saved : bool),
    is_log_of epoch log /\
    events st' = events st ++ epoch_trace log saved /\
    (saved = true ->
     files st' = <["best_model.pth" := state_dict (parameters (model st'))]> (files st) /\
     (best_val_acc st <? best_val_acc st')%float = true /\
     exists train_loss train_acc val_loss lr,
       log = WandbLog (epoch + 1) train_loss train_acc val_loss (best_val_acc st') lr) /\
    (saved = false -> files st' = files st /\ best_val_acc st' = best_val_acc st).
Proof.
  intros (train_loss & train_acc & val_loss & val_acc & lr & Hshape)%epoch_step_shape.
  cbv zeta in Hshape.
  exists (WandbLog (epoch + 1) train_loss train_acc val_loss val_acc lr).
  destruct (best_val_acc st <? val_acc)%float eqn:Hlt; destruct Hshape as (He & Hf & Hb).
  - exists true. split; [reflexivity|]. split; [exact He|]. split.
    + intros _. rewrite Hb. split; [exact Hf|]. split; [exact Hlt|]. eauto.
    + discriminate.
  - exists false. split; [reflexivity|]. split; [exact He|]. split; [discriminate|].
    intros _. split; assumption.
Qed.

(** A training loop that runs to its end adds to the trace, for each epoch
    in order, one [wandb.log] carrying the epoch number plus one, followed
    either by nothing or by the save of "best_model.pth" and its mirror to
    the tracker. *)
Theorem training_loop_trace config criterion trainloader valloader :
  forall (epoch_list : list Z) st st',
  training_loop config criterion trainloader valloader st epoch_list = Ok st' ->
  exists blocks : list (list event),
    events st' = events st ++ concat blocks /\
    Forall2 (fun epoch block =>
               exists (log : event) (saved : bool),
                 is_log_of epoch log /\ block = epoch_trace log saved)
      epoch_list blocks.
Proof.
  induction epoch_list as [|epoch rest IH]; intros st st' Hloop.
  - cbn [training_loop] in Hloop. inversion Hloop; subst.
    exists []. cbn. rewrite app_nil_r. split; [reflexivity | constructor].
  - cbn [training_loop] in Hloop.
    destruct (epoch_step config criterion trainloader valloader st epoch)
      as [st1|e] eqn:Hstep; cbn [mbind result_bind] in Hloop; [|discriminate].
    apply epoch_step_trace in Hstep as (log & saved & Hlog & He & _).
    destruct (IH _ _ Hloop) as (blocks & Hb & Hall).
    exists (epoch_trace log saved :: blocks). split.
    + rewrite Hb, He, <- app_assoc. reflexivity.
    + constructor; [eauto | exact Hall].
Qed.

Lemma saves_dec (l : list (event (T:=T))) :
  Forall (fun ev => is_save ev = false) l \/ Exists (fun ev => is_save ev = true) l.
Proof.
  induction l as [|ev l [IH|IH]].
  - left. constructor.
  - destruct (is_save ev) eqn:E.
    + right. left. exact E.
    + left. constructor; assumption.
  - right. right. exact IH.
Qed.

Lemma saves_excl (l : list (event (T:=T))) :
  Forall (fun ev => is_save ev = false) l -> Exists (fun ev => is_save ev = true) l ->
  False.
Proof.
  intros HF HE. apply Exists_exists in HE as (ev & Hin & Hs).
  rewrite Forall_forall in HF. specialize (HF ev Hin). congruence.
Qed.

Lemma epoch_trace_saves (log : event (T:=T)) (saved : bool) :
  is_save log = false ->
  (Exists (fun ev => is_save ev = true) (epoch_trace log saved) <-> saved = true).
Proof.
  intros Hl. unfold epoch_trace. destruct saved; split; intros Hs; try reflexivity.
  - right. left. reflexivity.
  - inversion Hs as [? ? E|? ? E]; subst; [congruence | inversion E].
  - discriminate.
Qed.

Lemma is_log_not_save (epoch : Z) (log : event (T:=T)) :
  is_log_of epoch log -> is_save log = false.
Proof. destruct log; cbn; intros; [reflexivity | contradiction..]. Qed.

(** The last save of a training loop: where it happened, and what has not
    changed since. *)
Lemma training_loop_last_save config criterion trainloader valloader :
  forall (epoch_list : list Z) st st' (new : list event),
  training_loop config criterion trainloader valloader st epoch_list = Ok st' ->
  events st' = events st ++ new ->
  (Forall (fun ev => is_save ev = false) new ->
   files st' = files st /\ best_val_acc st' = best_val_acc st) /\
  (Exists (fun ev => is_save ev = true) new ->
   exists (before : list Z) (epoch : Z) (after : list Z) st1 st2,
     epoch_list = before ++ epoch :: after /\
     training_loop config criterion trainloader valloader st before = Ok st1 /\
     epoch_step config criterion trainloader valloader st1 epoch = Ok st2 /\
     training_loop config criterion trainloader valloader st2 after = Ok st' /\
     (best_val_acc st1 <? best_val_acc st2)%float = true /\
     best_val_acc st' = best_val_acc st2 /\
     files st' = files st2 /\
     files st' !! "best_model.pth" = Some (state_dict (parameters (model st2))) /\
     exists train_loss train_acc val_loss lr,
       In (WandbLog (epoch + 1) train_loss train_acc val_loss (best_val_acc st') lr) new) /\
  (forall path : string,
     path <> "best_model.pth" -> files st' !! path = files st !! path).
Proof.
  induction epoch_list as [|epoch rest IH]; intros st st' new Hloop Hnew.
  - cbn [training_loop] in Hloop. inversion Hloop; subst.
    assert (new = []) as ->.
    { apply (app_inv_head (events st')). rewrite app_nil_r. symmetry. exact Hnew. }
    repeat split; auto. intros HE. inversion HE.
  - cbn [training_loop] in Hloop.
    destruct (epoch_step config criterion trainloader valloader st epoch)
      as [sa|e] eqn:Hstep; cbn [mbind result_bind] in Hloop; [|discriminate].
    pose proof Hstep as Hstep0.
    apply epoch_step_trace in Hstep as (log & saved & Hlog & He & Hyes & Hno).
    destruct (training_loop_events_prefix _ _ _ _ _ _ _ Hloop) as [new' Hnew'].
    assert (Hsplit : new = epoch_trace log saved ++ new').
    { apply (app_inv_head (events st)). rewrite <- Hnew, Hnew', He, <- app_assoc.
      reflexivity. }
    destruct (IH sa st' new' Hloop Hnew') as (IH1 & IH2 & IH3).
    pose proof (epoch_trace_saves log saved (is_log_not_save _ _ Hlog)) as Hsv.
    split; [|split].
    + intros HF. rewrite Hsplit in HF. apply Forall_app in HF as [HF1 HF2].
      destruct (IH1 HF2) as [Hf Hb].
      destruct saved.
      * exfalso. apply (saves_excl _ HF1). apply Hsv. reflexivity.
      * destruct (Hno eq_refl) as [Hf0 Hb0]. split; congruence.
    + intros HE.
      destruct (saves_dec new') as [HF'|HE'].
      * destruct (IH1 HF') as [Hf Hb].
        assert (saved = true) as ->.
        { rewrite Hsplit in HE. apply Exists_app in HE as [HE|HE].
          - apply Hsv. exact HE.
          - exfalso. exact (saves_excl _ HF' HE). }
        destruct (Hyes eq_refl) as (Hf0 & Hlt & tl & ta & vl & lr & Hl).
        exists [], epoch, rest, st, sa. cbn [app training_loop].
        repeat split; auto.
        -- rewrite Hf, Hf0. apply lookup_insert_eq.
        -- exists tl, ta, vl, lr. rewrite Hsplit, Hb, <- Hl.
           apply in_or_app. left. left. reflexivity.
      * destruct (IH2 HE') as (before & ep & after & st1 & st2 & Hl & H1 & H2 & H3
                               & Hlt & Hb & Hf & Hlk & tl & ta & vl & lr & Hin).
        exists (epoch :: before), ep, after, st1, st2.
        repeat split; auto.
        -- rewrite Hl. reflexivity.
        -- cbn [training_loop]. rewrite Hstep0. cbn [mbind result_bind]. exact H1.
        -- exists tl, ta, vl, lr. rewrite Hsplit. apply in_or_app. right. exact Hin.
    + intros path Hp. rewrite (IH3 path Hp).
      destruct saved.
      * destruct (Hyes eq_refl) as (Hf0 & _). rewrite Hf0.
        apply lookup_insert_ne. congruence.
      * destruct (Hno eq_refl) as [Hf0 _]. rewrite Hf0. reflexivity.
Qed.

(** After a training loop of simple_cnn.py or soph_cnn.py, "best_model.pth"
    holds, when the run wrote it, the [state_dict] of the model as it was at
    the end of the last epoch that improved on [best_val_acc]; that epoch's
    logged validation accuracy is the final [best_val_acc], and the later
    epochs changed neither.  When the run wrote nothing, the files and
    [best_val_acc] are as they were.  No other file is touched. *)
Theorem checkpoint_holds_best_epoch_model config criterion trainloader valloader :
  forall (epoch_list : list Z) st st' (new : list event),
  training_loop config criterion trainloader valloader st epoch_list = Ok st' ->
  events st' = events st ++ new ->
  (Forall (fun ev => is_save ev = false) new ->
   files st' = files st /\ best_val_acc st' = best_val_acc st) /\
  (Exists (fun ev => is_save ev = true) new ->
   exists (before : list Z) (epoch : Z) (after : list Z) st1 st2,
     epoch_list = before ++ epoch :: after /\
     training_loop config criterion trainloader valloader st before = Ok st1 /\
     epoch_step config criterion trainloader valloader st1 epoch = Ok st2 /\
     training_loop config criterion trainloader valloader st2 after = Ok st' /\
     (best_val_acc st1 <? best_val_acc st2)%float = true /\
     best_val_acc st' = best_val_acc st2 /\
     files st' = files st2 /\
     files st' !! "best_model.pth" = Some (state_dict (parameters (model st2))) /\
     exists train_loss train_acc val_loss lr,
       In (WandbLog (epoch + 1) train_loss train_acc val_loss (best_val_acc st') lr) new) /\
  (forall path : string,
     path <> "best_model.pth" -> files st' !! path = files st !! path).
Proof. exact (training_loop_last_save config criterion trainloader valloader). Qed.
End TraceFacts.

(** ** [random_split] with any number of parts *)

Lemma py_slice_offset {A : Type} (l : list A) (total x : Z) :
  0 <= total -> 0 <= x -> total + x <= Z.of_nat (length l) ->
  py_slice l (total + x - x) (total + x)
  = take (Z.to_nat x) (drop (Z.to_nat total) l).
Proof.
  intros Ht Hx Hl. rewrite py_slice_in_range by lia.
  replace (total + x - (total + x - x)) with x by lia.
  replace (total + x - x) with total by lia. reflexivity.
Qed.

Lemma random_split_slices (ds : Dataset) (perm : list Z) :
  forall (lengths : list Z) (total : Z),
  Forall (fun x => 0 <= x) lengths -> 0 <= total ->
  total + sumZ lengths <= Z.of_nat (length perm) ->
  let subsets :=
    zip_with (fun offset length => mkSubset ds (py_slice perm (offset - length) offset))
      (accumulate total lengths) lengths in
  concat (map indices subsets)
  = take (Z.to_nat (sumZ lengths)) (drop (Z.to_nat total) perm) /\
  map (fun s => Z.of_nat (length (indices s))) subsets = lengths /\
  Forall (fun s => dataset s = ds) subsets.
Proof.
  induction lengths as [|x rest IH]; intros total Hnn Ht Hlen.
  - cbn. repeat split; constructor.
  - inversion Hnn as [|? ? Hx Hrest]; subst.
    pose proof (sumZ_nonneg rest Hrest) as Hs.
    unfold sumZ in Hlen, Hs |- *. cbn [fold_right] in Hlen |- *. fold (sumZ rest) in *.
    cbn [accumulate zip_with map concat indices].
    destruct (IH (total + x) Hrest ltac:(lia) ltac:(lia)) as (Hc & Hm & Hd).
    cbv zeta. rewrite Hc, Hm, py_slice_offset by lia.
    repeat split.
    + replace (Z.to_nat (total + x)) with (Z.to_nat total + Z.to_nat x)%nat by lia.
      rewrite <- drop_drop.
      replace (Z.to_nat (x + sumZ rest)) with (Z.to_nat x + Z.to_nat (sumZ rest))%nat by lia.
      rewrite take_take_drop. reflexivity.
    + f_equal. rewrite length_take, length_drop. lia.
    + constructor; [reflexivity | exact Hd].
Qed.

(** [random_split] cuts the permutation it draws into consecutive pieces:
    for lengths that are not negative and sum to the size of the dataset,
    it returns one subset of that dataset per length, the subsets have the
    requested sizes, and their index lists, one after the other, are the
    permutation. *)
Theorem random_split_partition (randperm : Z -> list Z) (ds : Dataset)
  (lengths : list Z) :
  Forall (fun x => 0 <= x) lengths ->
  sumZ lengths = ds_len ds ->
  Z.of_nat (length (randperm (ds_len ds))) = ds_len ds ->
  exists subsets : list Subset,
    random_split randperm ds lengths = Ok subsets /\
    concat (map indices subsets) = randperm (ds_len ds) /\
    map (fun s => Z.of_nat (length (indices s))) subsets = lengths /\
    Forall (fun s => dataset s = ds) subsets.
Proof.
  intros Hnn Hsum Hperm. unfold random_split.
  rewrite Hsum, Z.eqb_refl. eexists. split; [reflexivity|].
  destruct (random_split_slices ds (randperm (ds_len ds)) lengths 0 Hnn ltac:(lia)
              ltac:(lia)) as (Hc & Hm & Hd).
  cbv zeta in Hc, Hm, Hd. repeat split; try assumption.
  rewrite Hc. change (Z.to_nat 0) with 0%nat. rewrite drop_0.
  apply take_ge. lia.
Qed.

Lemma random_split_partition_witness :
  exists subsets : list Subset,
    random_split (seqZ 0) (CIFAR100 (fun _ => 10) "./data" true true [ToTensor]) [5; 0; 3; 2]
    = Ok subsets /\
    concat (map indices subsets) = seqZ 0 10 /\
    map (fun s => Z.of_nat (length (indices s))) subsets = [5; 0; 3; 2] /\
    Forall (fun s => dataset s = CIFAR100 (fun _ => 10) "./data" true true [ToTensor])
      subsets.
Proof.
  apply (random_split_partition (seqZ 0)
           (CIFAR100 (fun _ => 10) "./data" true true [ToTensor]) [5; 0; 3; 2]).
  - repeat constructor; lia.
  - reflexivity.
  - reflexivity.
Defined.

(** ** Both parts of the 80/20 split are needed *)

(** With at least two training images (and fewer than 2^50) both parts of
    the split hold a sample and the training part is at least as large as
    the validation part.  With a single image the training part is empty,
    and [train] then raises on its loader. *)
Theorem split_parts_nonempty (s : script) (disk : bool -> Z) (randperm : Z -> list Z) :
  1 <= disk true < 2 ^ 50 ->
  Z.of_nat (length (randperm (disk true))) = disk true ->
  exists trainset valset testset,
    main_datasets s disk randperm = Ok (trainset, valset, testset) /\
    (1 <= length (indices valset))%nat /\
    (2 <= disk true ->
     (length (indices valset) <= length (indices trainset))%nat) /\
    (disk true = 1 -> indices trainset = []).
Proof.
  intros Hn Hperm. set (n := disk true) in *.
  set (q := 4 * n / 5).
  assert (Hq : 0 <= q <= n).
  { unfold q. split; [apply Z.div_pos; lia|]. apply Z.div_le_upper_bound; lia. }
  assert (Hq1 : q < n).
  { unfold q. apply Z.div_lt_upper_bound; lia. }
  assert (Hq2 : 2 <= n -> n - q <= q).
  { intros H2. unfold q.
    assert (n <= 2 * (4 * n / 5)); [|lia].
    pose proof (Z.div_mod (4 * n) 5 ltac:(lia)).
    pose proof (Z.mod_pos_bound (4 * n) 5 ltac:(lia)). lia. }
  unfold main_datasets. cbn [CIFAR100 ds_len]. fold n.
  rewrite (train_size_of_exact n ltac:(lia)). cbn [mbind result_bind]. fold q.
  destruct (random_split_partition randperm
              (CIFAR100 disk "./data" true true (transform_train s)) [q; n - q])
    as (subsets & Hsplit & Hc & Hm & _).
  { repeat constructor; lia. }
  { unfold sumZ. cbn [fold_right CIFAR100 ds_len]. fold n. lia. }
  { exact Hperm. }
  rewrite Hsplit. cbn [mbind result_bind].
  destruct subsets as [|trainset [|valset [|]]]; try discriminate Hm.
  cbn [map] in Hm. inversion Hm as [[Ht Hv]].
  eexists _, _, _. split; [reflexivity|].
  split; [lia|]. split.
  - intros H2. specialize (Hq2 H2). lia.
  - intros H1. unfold q in Ht. rewrite H1 in Ht. change (4 * 1 / 5) with 0 in Ht.
    destruct (indices trainset); [reflexivity | discriminate].
Qed.

Lemma split_parts_nonempty_witness :
  exists trainset valset testset,
    main_datasets transfer_cnn (fun _ => 50000) (seqZ 0) = Ok (trainset, valset, testset) /\
    (1 <= length (indices valset))%nat /\
    (2 <= 50000 -> (length (indices valset) <= length (indices trainset))%nat) /\
    (50000 = 1 -> indices trainset = []).
Proof.
  apply (split_parts_nonempty transfer_cnn (fun _ => 50000) (seqZ 0)).
  - lia.
  - reflexivity.
Defined.

(** ** The batches of a [DataLoader] *)

Lemma batch_sampler_loop_spec (batch_size : Z) :
  1 <= batch_size ->
  forall (sampler batch : list Z),
  Z.of_nat (length batch) < batch_size ->
  let batches := batch_sampler_loop batch_size sampler batch in
  concat batches = batch ++ sampler /\
  Forall (fun b => 1 <= Z.of_nat (length b) <= batch_size) batches /\
  Forall (fun b => Z.of_nat (length b) = batch_size) (removelast batches) /\
  Z.of_nat (length batches)
  = (Z.of_nat (length batch) + Z.of_nat (length sampler) + batch_size - 1) / batch_size.
Proof.
  intros Hbs. induction sampler as [|idx rest IH]; intros batch Hb.
  - cbn [batch_sampler_loop length]. rewrite app_nil_r, Z.add_0_r.
    destruct (Z.ltb_spec 0 (Z.of_nat (length batch))) as [Hpos|Hz].
    + cbn [concat removelast length]. rewrite app_nil_r.
      repeat split; try (repeat constructor; lia).
      apply Z.div_unique with (r := Z.of_nat (length batch) - 1); lia.
    + cbn [concat removelast length].
      assert (batch = []) as -> by (destruct batch; [reflexivity | cbn in Hz; lia]).
      repeat split; try constructor.
      cbn [length]. symmetry. apply Z.div_small. lia.
  - cbn [batch_sampler_loop]. rewrite length_app. cbn [length].
    destruct (Z.eqb_spec (Z.of_nat (length batch + 1)) batch_size) as [Hfull|Hnot].
    + destruct (IH [] ltac:(cbn; lia)) as (Hc & Hf & Hr & Hl). cbv zeta in *.
      cbn [concat length]. rewrite Hc. cbn [app length] in *.
      repeat split.
      * rewrite <- app_assoc. reflexivity.
      * constructor; [rewrite length_app; cbn [length]; lia | exact Hf].
      * destruct (batch_sampler_loop batch_size rest []) eqn:E.
        -- constructor.
        -- cbn [removelast]. constructor; [rewrite length_app; cbn [length]; lia|].
           exact Hr.
      * rewrite Nat2Z.inj_succ, Hl.
        replace (Z.of_nat (length batch) + Z.of_nat (S (length rest)) + batch_size - 1)
          with (1 * batch_size + (0 + Z.of_nat (length rest) + batch_size - 1)) by lia.
        rewrite Z.div_add_l by lia. lia.
    + destruct (IH (batch ++ [idx]) ltac:(rewrite length_app; cbn [length]; lia))
        as (Hc & Hf & Hr & Hl). cbv zeta in *.
      repeat split; try assumption.
      * rewrite Hc, <- app_assoc. reflexivity.
      * rewrite Hl, length_app. cbn [length]. f_equal. lia.
Qed.

(** A [DataLoader] refuses a batch size that is not positive.  Otherwise
    its batches are consecutive pieces of the order of the sampler: none is
    empty, none is larger than [batch_size], all but the last one are full,
    and there are [ceil(n / batch_size)] of them, so none at all exactly
    when the dataset is empty. *)
Theorem DataLoader_batches_partition (batch_size : Z) (sampler : list Z) :
  (batch_size <= 0 -> DataLoader_batches batch_size sampler = Raise ValueError) /\
  (1 <= batch_size ->
   exists batches : list (list Z),
     DataLoader_batches batch_size sampler = Ok batches /\
     concat batches = sampler /\
     Forall (fun b => 1 <= Z.of_nat (length b) <= batch_size) batches /\
     Forall (fun b => Z.of_nat (length b) = batch_size) (removelast batches) /\
     Z.of_nat (length batches)
     = (Z.of_nat (length sampler) + batch_size - 1) / batch_size /\
     (batches = [] <-> sampler = [])).
Proof.
  unfold DataLoader_batches. split; intros Hbs.
  - replace (batch_size <=? 0) with true by (symmetry; apply Z.leb_le; lia). reflexivity.
  - replace (batch_size <=? 0) with false by (symmetry; apply Z.leb_gt; lia).
    destruct (batch_sampler_loop_spec batch_size Hbs sampler [] ltac:(cbn; lia))
      as (Hc & Hf & Hr & Hl). cbv zeta in *. cbn [app length] in *.
    eexists. split; [reflexivity|]. split; [exact Hc|]. split; [exact Hf|].
    split; [exact Hr|]. split.
    + rewrite Hl. reflexivity.
    + split; intros E.
      * rewrite E in Hc. cbn in Hc. congruence.
      * subst sampler. reflexivity.
Qed.

(** ** The shapes of [SimpleCNN.forward] *)

Lemma Conv2d_forward_3x3 (cin cout n c h w : Z) :
  Conv2d_forward (mkConv2d cin cout 3 1 1) (n, c, h, w)
  = if negb (c =? cin) then Raise RuntimeError
    else if (h <? 1) || (w <? 1) then Raise RuntimeError
    else Ok (n, cout, h, w).
Proof.
  unfold Conv2d_forward, conv_size. cbn [in_channels out_channels kernel_size stride padding].
  destruct (negb (c =? cin)); [reflexivity|].
  replace (h + 2 * 1 <? 3) with (h <? 1)
    by (destruct (Z.ltb_spec h 1), (Z.ltb_spec (h + 2 * 1) 3); try reflexivity; lia).
  replace (w + 2 * 1 <? 3) with (w <? 1)
    by (destruct (Z.ltb_spec w 1), (Z.ltb_spec (w + 2 * 1) 3); try reflexivity; lia).
  destruct ((h <? 1) || (w <? 1)); [reflexivity|].
  rewrite !Z.div_1_r. repeat f_equal; lia.
Qed.

Lemma pool_size_2x2 (size : Z) : pool_size (mkMaxPool2d 2 2) size = size / 2.
Proof.
  unfold pool_size. cbn [pool_kernel_size pool_stride].
  replace (size - 2) with (size + (-1) * 2) by lia.
  rewrite Z.div_add by lia. lia.
Qed.

Lemma MaxPool2d_forward_2x2 (n c h w : Z) :
  MaxPool2d_forward (mkMaxPool2d 2 2) (n, c, h, w)
  = if (h <? 2) || (w <? 2) then Raise RuntimeError
    else Ok (n, c, h / 2, w / 2).
Proof.
  unfold MaxPool2d_forward. rewrite !pool_size_2x2.
  replace (h / 2 <=? 0) with (h <? 2).
  2:{ destruct (Z.ltb_spec h 2), (Z.leb_spec (h / 2) 0); try reflexivity.
      - assert (h / 2 < 1) by (apply Z.div_lt_upper_bound; lia). lia.
      - assert (1 <= h / 2) by (apply Z.div_le_lower_bound; lia). lia. }
  replace (w / 2 <=? 0) with (w <? 2).
  2:{ destruct (Z.ltb_spec w 2), (Z.leb_spec (w / 2) 0); try reflexivity.
      - assert (w / 2 < 1) by (apply Z.div_lt_upper_bound; lia). lia.
      - assert (1 <= w / 2) by (apply Z.div_le_lower_bound; lia). lia. }
  reflexivity.
Qed.

(** The layers of [SimpleCNN] fit images of three channels whose height and
    width, each divided by four, multiply to 64, as the 32 x 32 images of
    CIFAR-100 do: on a batch of [n >= 1] such images, and on no other,
    [forward] returns one row of 100 logits per image, except that in
    training mode a batch of a single image is refused by the batch
    normalisation. *)
Theorem SimpleCNN_forward_shape (training : bool) (n c h w : Z) :
  1 <= n -> 0 <= h -> 0 <= w ->
  (SimpleCNN_forward SimpleCNN_init training (n, c, h, w) = Ok (n, 100)
   <-> c = 3 /\ (h / 4) * (w / 4) = 64 /\ (training = true -> n <> 1)) /\
  (c = 3 -> (h / 4) * (w / 4) = 64 -> training = true -> n = 1 ->
   SimpleCNN_forward SimpleCNN_init training (n, c, h, w)
   = Raise ValueError).
Proof.
  intros _ Hh Hw.
  assert (Hh4 : h / 2 / 2 = h / 4) by (rewrite Z.div_div by lia; reflexivity).
  assert (Hw4 : w / 2 / 2 = w / 4) by (rewrite Z.div_div by lia; reflexivity).
  assert (Hh2 : h < 4 -> h / 4 = 0) by (intros; apply Z.div_small; lia).
  assert (Hw2 : w < 4 -> w / 4 = 0) by (intros; apply Z.div_small; lia).
  assert (Hhd : h < 2 \/ 2 <= h) by lia.
  assert (Hhq : 2 <= h -> 1 <= h / 2) by (intros; apply Z.div_le_lower_bound; lia).
  assert (Hwq : 2 <= w -> 1 <= w / 2) by (intros; apply Z.div_le_lower_bound; lia).
  assert (Hhq' : h / 2 < 2 -> h < 4).
  { intros. destruct (Z.lt_ge_cases h 4); [assumption|].
    assert (2 <= h / 2) by (apply Z.div_le_lower_bound; lia). lia. }
  assert (Hwq' : w / 2 < 2 -> w < 4).
  { intros. destruct (Z.lt_ge_cases w 4); [assumption|].
    assert (2 <= w / 2) by (apply Z.div_le_lower_bound; lia). lia. }
  unfold SimpleCNN_forward, SimpleCNN_init, relu, Dropout_forward.
  cbn [conv1_1 conv1_2 pool1 conv2_1 conv2_2 pool2 fc1 bn dropout1 fc2].
  rewrite Conv2d_forward_3x3.
  destruct (Z.eqb_spec c 3) as [Hc|Hc]; cbn [negb];
    [|split; [split; [discriminate | intros (? & _); congruence] | congruence]].
  destruct (Z.ltb_spec h 1) as [H1|H1]; cbn [orb].
  { cbn [mbind result_bind]. rewrite (Hh2 ltac:(lia)).
    split; [split; [discriminate | intros (_ & ? & _); lia] | intros; lia]. }
  destruct (Z.ltb_spec w 1) as [W1|W1].
  { cbn [mbind result_bind]. rewrite (Hw2 ltac:(lia)).
    split; [split; [discriminate | intros (_ & ? & _); lia] | intros; lia]. }
  cbn [mbind result_bind]. rewrite Conv2d_forward_3x3, Z.eqb_refl. cbn [negb].
  replace (h <? 1) with false by (symmetry; apply Z.ltb_ge; lia).
  replace (w <? 1) with false by (symmetry; apply Z.ltb_ge; lia).
  cbn [orb mbind result_bind]. rewrite MaxPool2d_forward_2x2.
  destruct (Z.ltb_spec h 2) as [H2|H2]; cbn [orb].
  { cbn [mbind result_bind]. rewrite (Hh2 ltac:(lia)).
    split; [split; [discriminate | intros (_ & ? & _); lia] | intros; lia]. }
  destruct (Z.ltb_spec w 2) as [W2|W2].
  { cbn [mbind result_bind]. rewrite (Hw2 ltac:(lia)).
    split; [split; [discriminate | intros (_ & ? & _); lia] | intros; lia]. }
  cbn [mbind result_bind]. rewrite Conv2d_forward_3x3, Z.eqb_refl. cbn [negb].
  specialize (Hhq H2). specialize (Hwq W2).
  replace (h / 2 <? 1) with false by (symmetry; apply Z.ltb_ge; lia).
  replace (w / 2 <? 1) with false by (symmetry; apply Z.ltb_ge; lia).
  cbn [orb mbind result_bind]. rewrite Conv2d_forward_3x3, Z.eqb_refl. cbn [negb].
  replace (h / 2 <? 1) with false by (symmetry; apply Z.ltb_ge; lia).
  replace (w / 2 <? 1) with false by (symmetry; apply Z.ltb_ge; lia).
  cbn [orb mbind result_bind]. rewrite MaxPool2d_forward_2x2, Hh4, Hw4.
  destruct (Z.ltb_spec (h / 2) 2) as [H4|H4]; cbn [orb].
  { cbn [mbind result_bind]. rewrite (Hh2 (Hhq' H4)).
    split; [split; [discriminate | intros (_ & ? & _); lia] | intros; lia]. }
  destruct (Z.ltb_spec (w / 2) 2) as [W4|W4].
  { cbn [mbind result_bind]. rewrite (Hw2 (Hwq' W4)).
    split; [split; [discriminate | intros (_ & ? & _); lia] | intros; lia]. }
  cbn [mbind result_bind Flatten_forward Linear_forward in_features out_features].
  destruct (Z.eqb_spec (256 * (h / 4) * (w / 4)) (256 * 8 * 8)) as [Hf|Hf].
  2:{ cbn [mbind result_bind].
      split; [split; [discriminate | intros (_ & ? & _); lia] | intros; lia]. }
  cbn [mbind result_bind BatchNorm1d_forward].
  destruct training; cbn [andb].
  - destruct (Z.eqb_spec n 1) as [Hn|Hn].
    + cbn [mbind result_bind]. split; [|reflexivity].
      split; [discriminate | intros (_ & _ & Hne); exfalso; exact (Hne eq_refl Hn)].
    + rewrite Z.eqb_refl. cbn [mbind result_bind Linear_forward in_features out_features].
      rewrite Z.eqb_refl.
      split; [|intros; congruence].
      split; [intros _; repeat split; [assumption | lia | intros _; exact Hn] | reflexivity].
  - rewrite Z.eqb_refl. cbn [mbind result_bind Linear_forward in_features out_features].
      rewrite Z.eqb_refl.
    split; [|discriminate].
    split; [intros _; repeat split; [assumption | lia | discriminate] | reflexivity].
Qed.

Lemma SimpleCNN_forward_shape_witness :
  SimpleCNN_forward SimpleCNN_init true (512, 3, 32, 32) = Ok (512, 100).
Proof.
  apply (SimpleCNN_forward_shape true 512 3 32 32); [lia | lia | lia |].
  split; [reflexivity|]. split; [reflexivity | intros _; discriminate].
Defined.

(** ** The random draws of a pipeline *)

(** [Compose] hands the generator from one transform to the next: a sample
    costs one draw for each random transform of the pipeline, none for the
    others, and the sequence of draws itself is not changed. *)
Theorem Compose_consumes_draws `{Vision} (ts : list transform) (g : Generator)
  (x : Sample) :
  position (snd (Compose ts g x)) = (position g + draws_needed ts)%nat /\
  draws (snd (Compose ts g x)) = draws g.
Proof.
  revert g x. induction ts as [|t ts IH]; intros g x.
  - cbn. split; [lia | reflexivity].
  - cbn [Compose]. unfold draws_needed. cbn [List.filter].
    destruct t; cbn [apply_transform is_random rand];
      match goal with
      | |- context [Compose ts ?g' ?y] =>
          destruct (IH g' y) as [Hp Hd]; rewrite Hp, Hd
      end;
      unfold draws_needed; cbn [position draws length]; split; try reflexivity; lia.
Qed.

(** ** [main], from the training loop to the evaluation *)

(** The evaluation stage of [main], after a loop that ended in [st]. *)
Lemma evaluation_after_loop `{Torch} {T : Type} (st : RunState (T:=T))
  (testloader : list Batch) (device : string) (params : Params) :
  files st !! "best_model.pth" = Some (state_dict params) ->
  load_state_dict (parameters (model st)) (state_dict params) = Ok params ->
  eval_forward_pure params device ->
  forall (predictions : list Z) (clean_accuracy : float),
  ('(_, out) ← evaluate_cifar100_test (files st) (model st) testloader device;
   Ok (st, out)) = Ok (st, (predictions, clean_accuracy))
  <-> all_predictions (mkModel params false) device testloader = Ok predictions /\
      accuracy_percentage (mkModel params false) device testloader = Ok clean_accuracy.
Proof.
  intros Hfile Hload Hpure predictions clean_accuracy.
  split.
  - destruct (evaluate_cifar100_test (files st) (model st) testloader device)
      as [[m [ps a]]|e] eqn:E; cbn [mbind result_bind]; [|discriminate].
    intros E'. inversion E'; subst.
    apply (evaluate_loaded_ok (files st) (model st) testloader device
             (state_dict params) params Hfile Hload Hpure) in E as (_ & Hp & Ha).
    split; assumption.
  - intros [Hp Ha].
    rewrite (proj2 (evaluate_loaded_ok (files st) (model st) testloader device
                      (state_dict params) params Hfile Hload Hpure
                      (mkModel params false) predictions clean_accuracy)
               (conj eq_refl (conj Hp Ha))).
    reflexivity.
Qed.

(** [main] of simple_cnn.py and soph_cnn.py, once the training loop has run
    to its end.  When no epoch had a validation accuracy above 0, nothing
    was saved, and without an older "best_model.pth" the evaluation raises
    [FileNotFoundError].  Otherwise the file holds the model of the last
    epoch that improved on [best_val_acc], and (a checkpoint of the model
    loading back as it was saved) the evaluation reports the predictions
    and the accuracy of that model, not of the model that the last epoch
    left. *)
Theorem main_train_and_evaluate_outcome `{Torch} {T : Type} `{LossScalar T}
  (s : script) (dev : string) (criterion : Outputs -> list Z -> result T)
  (trainloader valloader : Z -> list Batch) (testloader : list Batch)
  (model0 : Model) (optimizer0 : Optim) (files0 : gmap string StateDict)
  (st : RunState) :
  training_loop (CONFIG s dev) criterion trainloader valloader
    (initial_state model0 optimizer0 files0) (range (epochs (CONFIG s dev))) = Ok st ->
  (forall p q : Params, load_state_dict p (state_dict q) = Ok q) ->
  (forall p : Params, eval_forward_pure p dev) ->
  (Forall (fun v => (0 <? v)%float = false) (logged_val_acc (events st)) ->
   files st = files0 /\
   (files0 !! "best_model.pth" = None ->
    main_train_and_evaluate s dev criterion trainloader valloader testloader
      model0 optimizer0 files0 = Raise FileNotFoundError)) /\
  (Exists (fun v => (0 <? v)%float = true) (logged_val_acc (events st)) ->
   exists (before : list Z) (epoch : Z) (after : list Z) (st1 st2 : RunState),
     range (epochs (CONFIG s dev)) = before ++ epoch :: after /\
     training_loop (CONFIG s dev) criterion trainloader valloader
       (initial_state model0 optimizer0 files0) before = Ok st1 /\
     epoch_step (CONFIG s dev) criterion trainloader valloader st1 epoch = Ok st2 /\
     training_loop (CONFIG s dev) criterion trainloader valloader st2 after = Ok st /\
     (best_val_acc st1 <? best_val_acc st2)%float = true /\
     best_val_acc st = best_val_acc st2 /\
     files st !! "best_model.pth" = Some (state_dict (parameters (model st2))) /\
     forall (predictions : list Z) (clean_accuracy : float),
       main_train_and_evaluate s dev criterion trainloader valloader testloader
         model0 optimizer0 files0 = Ok (st, (predictions, clean_accuracy))
       <-> all_predictions (mkModel (parameters (model st2)) false) dev testloader
           = Ok predictions /\
           accuracy_percentage (mkModel (parameters (model st2)) false) dev testloader
           = Ok clean_accuracy).
Proof.
  intros Hloop Hlaw Hpure.
  assert (Hdev : device (CONFIG s dev) = dev) by (destruct s; reflexivity).
  destruct (training_loop_invariant (CONFIG s dev) criterion trainloader valloader
              files0 _ _ st Hloop) as [_ Hinv].
  { left. cbn. repeat split; constructor. }
  assert (Hexcl : forall l : list float,
             Forall (fun v => (0 <? v)%float = false) l ->
             Exists (fun v => (0 <? v)%float = true) l -> False).
  { intros l HF HE. apply Exists_exists in HE as (v & Hin & Hv).
    rewrite Forall_forall in HF. specialize (HF v Hin). congruence. }
  split.
  - intros Hzero.
    destruct Hinv as [(_ & _ & _ & Hf)|[_ Hp]]; [|exfalso; exact (Hexcl _ Hzero Hp)].
    split; [exact Hf|]. intros Hnone.
    unfold main_train_and_evaluate. rewrite Hloop. cbn [mbind result_bind].
    unfold evaluate_cifar100_test, torch_load. rewrite Hf, Hnone. reflexivity.
  - intros Hpos.
    destruct Hinv as [(_ & _ & Hnp & _)|[Hs _]]; [exfalso; exact (Hexcl _ Hnp Hpos)|].
    destruct (training_loop_last_save (CONFIG s dev) criterion trainloader valloader
                _ _ st (events st) Hloop eq_refl) as (_ & Hsaved & _).
    destruct (Hsaved Hs) as (before & epoch & after & st1 & st2 & Hl & H1 & H2 & H3
                             & Hlt & Hb & _ & Hfile & _).
    exists before, epoch, after, st1, st2.
    split; [exact Hl|]. split; [exact H1|]. split; [exact H2|]. split; [exact H3|].
    split; [exact Hlt|]. split; [exact Hb|]. split; [exact Hfile|].
    intros predictions clean_accuracy.
    unfold main_train_and_evaluate. rewrite Hloop. cbn [mbind result_bind].
    rewrite Hdev.
    apply (evaluation_after_loop st testloader dev (parameters (model st2)) Hfile
             (Hlaw _ _) (Hpure _)).
Qed.

(** [main] of transfer_cnn.py, once the training loop has run to its end
    (by exhausting its 50 epochs or by the stop signal): "best_model.pth"
    holds the model the last epoch left, and (that checkpoint loading back
    as it was saved) the evaluation reports the predictions and the
    accuracy of that model, whatever the validation accuracies of the
    epochs were. *)
Theorem transfer_main_evaluates_last_model `{Torch} (dev : string)
  (criterion : Outputs -> list Z -> result float)
  (trainloader valloader : Z -> list Batch) (testloader : list Batch)
  (model0 : Model) (optimizer0 : Optim) (files0 : gmap string StateDict)
  (st : RunState (T:=float)) (early_stopping : EarlyStopping) :
  transfer_training_loop (CONFIG transfer_cnn dev) criterion trainloader valloader
    (initial_state model0 optimizer0 files0) main_early_stopping
    (range (epochs (CONFIG transfer_cnn dev))) = Ok (st, early_stopping) ->
  load_state_dict (parameters (model st)) (state_dict (parameters (model st)))
  = Ok (parameters (model st)) ->
  eval_forward_pure (parameters (model st)) dev ->
  files st !! "best_model.pth" = Some (state_dict (parameters (model st))) /\
  forall (predictions : list Z) (clean_accuracy : float),
    transfer_main_train_and_evaluate dev criterion trainloader valloader testloader
      model0 optimizer0 files0 = Ok (st, early_stopping, (predictions, clean_accuracy))
    <-> all_predictions (mkModel (parameters (model st)) false) dev testloader
        = Ok predictions /\
        accuracy_percentage (mkModel (parameters (model st)) false) dev testloader
        = Ok clean_accuracy.
Proof.
  intros Hloop Hload Hpure.
  destruct (transfer_loop_files _ _ _ _ _ _ _ _ _ Hloop) as ([Hnil|Hfile] & _ & _);
    [discriminate Hnil|].
  split; [exact Hfile|]. intros predictions clean_accuracy.
  unfold transfer_main_train_and_evaluate. rewrite Hloop. cbn [mbind result_bind].
  change (device (CONFIG transfer_cnn dev)) with dev.
  destruct (evaluation_after_loop st testloader dev (parameters (model st)) Hfile
              Hload Hpure predictions clean_accuracy) as [Hto Hfrom].
  split.
  - destruct (evaluate_cifar100_test (files st) (model st) testloader dev)
      as [[m [ps a]]|e]; cbn [mbind result_bind] in Hto |- *; [|discriminate].
    intros E'. inversion E'; subst. apply Hto. reflexivity.
  - intros Hpa. specialize (Hfrom Hpa).
    destruct (evaluate_cifar100_test (files st) (model st) testloader dev)
      as [[m [ps a]]|e]; cbn [mbind result_bind] in Hfrom |- *; [|discriminate].
    inversion Hfrom; subst. reflexivity.
Qed.

(** ** The learning-rate schedule *)

Lemma StepLR_steps (lr0 : float) (size : Z) (g : float) (n : nat) :
  1 <= size ->
  Nat.iter n StepLR_step (StepLR_init lr0 size g)
  = mkStepLR size g (Z.of_nat n)
      (Nat.iter (Z.to_nat (Z.of_nat n / size)) (fun x => (x * g)%float) lr0).
Proof.
  intros Hs. induction n as [|n IH].
  - reflexivity.
  - rewrite Nat.iter_succ, IH. unfold StepLR_step.
    cbn [last_epoch step_size gamma lr].
    replace (Z.of_nat n + 1) with (Z.of_nat (S n)) by lia.
    replace (Z.of_nat (S n) =? 0) with false by (symmetry; apply Z.eqb_neq; lia).
    cbn [orb].
    pose proof (Z.div_mod (Z.of_nat n) size ltac:(lia)) as Hdn.
    pose proof (Z.mod_pos_bound (Z.of_nat n) size ltac:(lia)) as Hmn.
    pose proof (Z.div_pos (Z.of_nat n) size ltac:(lia) ltac:(lia)) as Hqn.
    destruct (Z.eqb_spec (Z.of_nat (S n) mod size) 0) as [Hm|Hm]; cbn [negb].
    + assert (Hq : Z.of_nat (S n) / size = Z.of_nat n / size + 1).
      { symmetry. apply Z.div_unique with (r := 0); [lia|].
        pose proof (Z.div_mod (Z.of_nat (S n)) size ltac:(lia)) as Hd.
        rewrite Hm in Hd.
        assert (Hlt : Z.of_nat n / size < Z.of_nat (S n) / size) by nia.
        assert (Hle : Z.of_nat (S n) / size <= Z.of_nat n / size + 1) by nia.
        nia. }
      rewrite Hq, Z2Nat.inj_add by lia. change (Z.to_nat 1) with 1%nat.
      rewrite Nat.add_1_r. reflexivity.
    + assert (Hq : Z.of_nat (S n) / size = Z.of_nat n / size).
      { symmetry. apply Z.div_unique with (r := Z.of_nat n mod size + 1); [|lia].
        pose proof (Z.div_mod (Z.of_nat (S n)) size ltac:(lia)) as Hd.
        pose proof (Z.mod_pos_bound (Z.of_nat (S n)) size ltac:(lia)) as Hms.
        destruct (Z.eq_dec (Z.of_nat n mod size + 1) size) as [E|E]; [|lia].
        exfalso. apply Hm.
        replace (Z.of_nat (S n)) with ((Z.of_nat n / size + 1) * size) by lia.
        apply Z.mod_mul. lia. }
      rewrite Hq. reflexivity.
Qed.

(** [StepLR] multiplies the learning rate by [gamma] once every
    [step_size] calls of [scheduler.step()].  With [step_size=30], the five
    epochs of simple_cnn.py and soph_cnn.py never change the learning rate;
    the fifty epochs of transfer_cnn.py multiply it once, at the end of the
    thirtieth epoch. *)
Theorem StepLR_schedule (s : script) (dev : string) (n : nat) :
  last_epoch (main_scheduler s dev n) = Z.of_nat n /\
  lr (main_scheduler s dev n)
  = Nat.iter (Z.to_nat (Z.of_nat n / 30)) (fun x => (x * lit_0_1)%float)
      (learning_rate (CONFIG s dev)) /\
  ((n < 30)%nat -> lr (main_scheduler s dev n) = learning_rate (CONFIG s dev)) /\
  ((30 <= n < 60)%nat ->
   lr (main_scheduler s dev n) = (learning_rate (CONFIG s dev) * lit_0_1)%float).
Proof.
  unfold main_scheduler. rewrite StepLR_steps by lia. cbn [last_epoch lr].
  split; [reflexivity|]. split; [reflexivity|]. split; intros Hn.
  - rewrite Z.div_small by lia. reflexivity.
  - replace (Z.of_nat n / 30) with 1; [reflexivity|].
    apply Z.div_unique with (r := Z.of_nat n - 30); lia.
Qed.

(** ** The range of the accuracy *)

Lemma shr_1_inv_w (P W : Z) (mrs : shr_record) :
  0 < W -> shr_inv_w P W mrs -> shr_inv_w P (2 * W) (shr_1 mrs).
Proof.
  intros HW (rem & low & HP & Hrem & H2 & Hlow & Hs & Hm).
  destruct mrs as [m r s]. cbn [shr_m shr_r shr_s] in *.
  unfold shr_inv_w.
  assert (Hs' : (r || s = true) <-> 2 * rem <> 0).
  { rewrite orb_true_iff. destruct r; split; intros; try lia; auto.
    - destruct H as [H|H]; [discriminate|]. apply Hs in H. lia.
    - right. apply Hs. lia. }
  destruct m as [|[p|p|]|p]; try lia; cbn [shr_1 shr_m shr_r shr_s].
  - exists rem, (2 * rem). repeat split; try lia; try apply Hs'.
  - exists (W + rem), (2 * rem). repeat split; try lia; try apply Hs'.
  - exists rem, (2 * rem). repeat split; try lia; try apply Hs'.
  - exists (W + rem), (2 * rem). repeat split; try lia; try apply Hs'.
Qed.

(** The quotient and the location that [SFdiv_core_binary] hands to the
    rounding describe the dividend in units of the divisor. *)
Lemma shr_inv_w_div (q r U : Z) :
  0 < U -> 0 <= q -> 0 <= r < U ->
  shr_inv_w (q * U + r) U (shr_record_of_loc q (new_location U r)).
Proof.
  intros HU Hq Hr. unfold new_location, new_location_even, new_location_odd.
  assert (Hfin : forall (b s : bool) (low : Z),
            2 * r = (if b then U else 0) + low -> 0 <= low < U ->
            (s = true <-> low <> 0) ->
            shr_inv_w (q * U + r) U (Build_shr_record q b s)).
  { intros b s low H2 Hlow Hs. exists r, low. cbn [shr_m shr_r shr_s].
    repeat split; try lia; apply Hs. }
  assert (Hodd : Z.even U = false -> 2 * r <> U).
  { intros Hev E. rewrite <- E, Z.even_mul in Hev. discriminate. }
  destruct (Z.even U) eqn:Hev; cbv beta;
    (destruct (Z.eqb_spec r 0) as [Hr0|Hr0];
     [apply (Hfin false false 0)|]).
  all: try (cbv iota; lia).
  - destruct (Z.compare_spec (2 * r) U) as [E|L|G]; cbn [shr_record_of_loc];
      [apply (Hfin true false 0) | apply (Hfin false true (2 * r))
       | apply (Hfin true true (2 * r - U))];
      try (cbv iota; lia); split; intros; first [lia | reflexivity | discriminate].
  - specialize (Hodd eq_refl).
    destruct (Z.compare_spec (2 * r + 1) U) as [E|L|G]; cbn [shr_record_of_loc];
      [apply (Hfin false true (2 * r)) | apply (Hfin false true (2 * r))
       | apply (Hfin true true (2 * r - U))];
      try (cbv iota; lia); split; intros; first [lia | reflexivity | discriminate].
Qed.

Lemma round_nearest_even_error_w (P W : Z) (mrs : shr_record) :
  0 < W -> shr_inv_w P W mrs ->
  let m1 := round_nearest_even (shr_m mrs) (loc_of_shr_record mrs) in
  shr_m mrs <= m1 <= shr_m mrs + 1 /\
  2 * Z.abs (P - m1 * W) <= W.
Proof.
  intros HW (rem & low & HP & Hrem & H2 & Hlow & Hs & Hm).
  destruct mrs as [m r s]. cbn [shr_m shr_r shr_s] in *.
  destruct r, s; cbn [loc_of_shr_record round_nearest_even].
  - split; [lia|]. assert (low <> 0) by (apply Hs; reflexivity). nia.
  - assert (low = 0).
    { destruct (Z.eq_dec low 0); [assumption|]. apply Hs in n. discriminate. }
    destruct (Z.even m); split; try lia; nia.
  - split; [lia|]. nia.
  - assert (low = 0).
    { destruct (Z.eq_dec low 0); [assumption|]. apply Hs in n. discriminate. }
    split; [lia|]. nia.
Qed.

Lemma shr_inv_w_bounds (P W : Z) (mrs : shr_record) (lo hi : Z) :
  0 < W -> shr_inv_w P W mrs -> lo * W <= P < hi * W ->
  lo <= shr_m mrs < hi.
Proof.
  intros HW (rem & low & HP & Hrem & _) [Hlo Hhi]. split; nia.
Qed.

(** The second half of [binary_round_aux]: a mantissa of 53 digits is
    rounded to nearest, with a carry into the next binade at most. *)
Lemma round_tail (s : bool) (mrs : shr_record) (E N W : Z) :
  0 < W -> -1074 <= E -> shr_inv_w N W mrs -> 2 ^ 52 <= shr_m mrs < 2 ^ 53 ->
  exists mm : positive,
    2 ^ 52 <= Zpos mm <= 2 ^ 53 /\
    2 * Z.abs (N - Zpos mm * W) <= W /\
    (let '(mrs'', e'') :=
       shr_fexp prec emax (round_nearest_even (shr_m mrs) (loc_of_shr_record mrs))
         E loc_Exact in
     match shr_m mrs'' with
     | 0 => S754_zero s
     | Zpos m => if e'' <=? emax - prec then S754_finite s m e'' else S754_infinity s
     | Zneg _ => S754_nan
     end)
    = if Zpos mm <? 2 ^ 53
      then (if E <=? 971 then S754_finite s mm E else S754_infinity s)
      else (if E + 1 <=? 971 then S754_finite s 4503599627370496 (E + 1)
            else S754_infinity s).
Proof.
  intros HW HE Hinv Hm0.
  pose proof (round_nearest_even_error_w N W mrs HW Hinv) as [Hm1 Herr].
  set (m1 := round_nearest_even (shr_m mrs) (loc_of_shr_record mrs)) in *.
  destruct m1 as [|p1|p1] eqn:Em1; try lia.
  exists p1. split; [lia|]. split; [exact Herr|].
  unfold shr_fexp.
  destruct (Z.ltb_spec (Zpos p1) (2 ^ 53)) as [Hlt|Hge].
  - cbn [Zdigits2].
    rewrite (digits_unique p1 53) by (change (53 - 1) with 52; lia).
    assert (Hf2 : fexp prec emax (53 + E) - E = 0).
    { unfold fexp, SpecFloat.emin, prec, emax. lia. }
    rewrite Hf2. cbn [shr shr_record_of_loc shr_m]. reflexivity.
  - assert (Hp1 : p1 = 9007199254740992%positive).
    { change (2 ^ 53) with 9007199254740992 in *. lia. }
    subst p1.
    change (Zdigits2 9007199254740992) with 54.
    assert (Hf2 : fexp prec emax (54 + E) - E = 1).
    { unfold fexp, SpecFloat.emin, prec, emax. lia. }
    rewrite Hf2. cbn [shr shr_record_of_loc SpecFloat.iter_pos shr_1 shr_m].
    reflexivity.
Qed.

(** The quotient of two positive binary64 numbers with full mantissas:
    the dividend, shifted by 53 bits, is divided by the divisor and the
    quotient rounded to 53 bits, within half a unit. *)
Lemma SFdiv_normal (mx my : positive) (ex ey : Z) :
  Zpos (digits2_pos mx) = 53 -> Zpos (digits2_pos my) = 53 ->
  -1074 <= ex - ey - 53 ->
  exists (mm : positive) (k : Z),
    0 <= k <= 1 /\ 2 ^ 52 <= Zpos mm <= 2 ^ 53 /\
    2 * Z.abs (Zpos mx * 2 ^ 53 - Zpos mm * (Zpos my * 2 ^ k)) <= Zpos my * 2 ^ k /\
    SFdiv prec emax (S754_finite false mx ex) (S754_finite false my ey)
    = if Zpos mm <? 2 ^ 53
      then (if ex - ey - 53 + k <=? 971
            then S754_finite false mm (ex - ey - 53 + k)
            else S754_infinity false)
      else (if ex - ey - 53 + k + 1 <=? 971
            then S754_finite false 4503599627370496 (ex - ey - 53 + k + 1)
            else S754_infinity false).
Proof.
  intros Hdx Hdy He.
  pose proof (digits_bounds mx) as [Xlo Xhi]. rewrite Hdx in Xlo, Xhi.
  pose proof (digits_bounds my) as [Ylo Yhi]. rewrite Hdy in Ylo, Yhi.
  change (53 - 1) with 52 in *.
  unfold SFdiv, SFdiv_core_binary. cbn [Zdigits2 xorb]. rewrite Hdx, Hdy.
  assert (He' : Z.min (fexp prec emax (53 + ex - (53 + ey))) (ex - ey) = ex - ey - 53).
  { unfold fexp, SpecFloat.emin, prec, emax. lia. }
  rewrite He'.
  replace (ex - ey - (ex - ey - 53)) with 53 by lia. cbv iota.
  rewrite Z.shiftl_mul_pow2 by lia.
  set (N := Zpos mx * 2 ^ 53). set (e' := ex - ey - 53) in *.
  pose proof (Z_div_mod N (Zpos my) ltac:(lia)) as Hdm.
  destruct (Z.div_eucl N (Zpos my)) as [q r]. destruct Hdm as [HN Hr].
  assert (HNlo : 2 ^ 52 * 2 ^ 53 <= N) by (unfold N; nia).
  assert (HNhi : N < 2 ^ 53 * 2 ^ 53) by (unfold N; nia).
  assert (Hq : 2 ^ 52 <= q < 2 ^ 54).
  { change (2 ^ 54) with (2 * 2 ^ 53). change (2 ^ 53) with (2 * 2 ^ 52) in *.
    assert (0 < 2 ^ 52) by lia. split; nia. }
  destruct q as [|pq|pq]; try lia.
  pose proof (shr_inv_w_div (Zpos pq) r (Zpos my) ltac:(lia) ltac:(lia) Hr) as Hinv0.
  replace (Zpos pq * Zpos my + r) with N in Hinv0 by lia.
  unfold binary_round_aux. unfold shr_fexp at 1. cbn [Zdigits2].
  destruct (Z.ltb_spec (Zpos pq) (2 ^ 53)) as [Hlt|Hge].
  - rewrite (digits_unique pq 53) by (change (53 - 1) with 52; lia).
    assert (Hf : fexp prec emax (53 + e') - e' = 0).
    { unfold fexp, SpecFloat.emin, prec, emax. lia. }
    rewrite Hf. cbn [shr].
    destruct (round_tail false _ e' N (Zpos my) ltac:(lia) He Hinv0)
      as (mm & Hmm & Herr & Htail).
    { destruct (new_location (Zpos my) r) as [|[| |]]; cbn [shr_record_of_loc shr_m]; lia. }
    exists mm, 0. rewrite Z.mul_1_r, Z.add_0_r.
    split; [lia|]. split; [exact Hmm|]. split; [exact Herr|]. exact Htail.
  - rewrite (digits_unique pq 54) by (change (54 - 1) with 53; lia).
    assert (Hf : fexp prec emax (54 + e') - e' = 1).
    { unfold fexp, SpecFloat.emin, prec, emax. lia. }
    rewrite Hf. cbn [shr SpecFloat.iter_pos].
    pose proof (shr_1_inv_w N (Zpos my) _ ltac:(lia) Hinv0) as Hinv1.
    destruct (round_tail false _ (e' + 1) N (2 * Zpos my) ltac:(lia) ltac:(lia) Hinv1)
      as (mm & Hmm & Herr & Htail).
    { apply (shr_inv_w_bounds N (2 * Zpos my) _ (2 ^ 52) (2 ^ 53) ltac:(lia) Hinv1).
      change (2 ^ 54) with (2 * 2 ^ 53) in Hq. change (2 ^ 53) with (2 * 2 ^ 52) in *.
      split; nia. }
    exists mm, 1. change (2 ^ 1) with 2. rewrite (Z.mul_comm (Zpos my) 2).
    split; [lia|]. split; [exact Hmm|]. split; [exact Herr|]. exact Htail.
Qed.

(** [100.0 * float(c)] is exact for [c < 2^46]: it is the float of
    [100 * c]. *)
Lemma mul_100_exact (c : positive) (cf : float) :
  Zpos c < 2 ^ 46 -> float_of_int (Zpos c) = Ok cf ->
  exists mz : positive,
    Prim2SF (100 * cf) = S754_finite false mz (Zpos (digits2_pos (100 * c)) - 53) /\
    Zpos mz = 100 * Zpos c * 2 ^ (53 - Zpos (digits2_pos (100 * c))) /\
    Zpos (digits2_pos mz) = 53.
Proof.
  intros Hc Hcf.
  assert (Hc53 : Zpos c < 2 ^ 53).
  { change (2 ^ 53) with (2 ^ 46 * 128). change (2 ^ 46) with 70368744177664 in *. lia. }
  destruct (float_of_int_exact c Hc53) as (f & mc & Hf & HSf & Hmc & Hdmc).
  rewrite Hf in Hcf. inversion Hcf; subst f. clear Hcf.
  pose proof (digits_bounds c) as [Clo Chi].
  pose proof (digits_bounds (100 * c)) as [Plo Phi].
  set (d := Zpos (digits2_pos c)) in *.
  set (D := Zpos (digits2_pos (100 * c))) in *.
  rewrite Pos2Z.inj_mul in Plo, Phi. change (Zpos 100) with 100 in *.
  assert (Hd1 : 1 <= d) by (unfold d; lia).
  assert (HD53 : D <= 53).
  { destruct (Z.le_gt_cases D 53) as [H|H]; [exact H|].
    assert (2 ^ 53 <= 2 ^ (D - 1)) by (apply Z.pow_le_mono_r; lia).
    change (2 ^ 53) with (2 ^ 46 * 128) in *. change (2 ^ 46) with 70368744177664 in *.
    lia. }
  assert (HdD : d <= D).
  { destruct (Z.le_gt_cases d D) as [H|H]; [exact H|].
    assert (2 ^ D <= 2 ^ (d - 1)) by (apply Z.pow_le_mono_r; unfold D; lia).
    lia. }
  assert (HD1 : 1 <= D) by (unfold D; lia).
  rewrite mul_spec.
  change (Prim2SF 100) with (S754_finite false 7036874417766400 (-46)).
  rewrite HSf. unfold SF64mul, SFmul. cbn [xorb]. fold d.
  set (P := (7036874417766400 * mc)%positive).
  set (k := D + 46 - d).
  assert (Hk : 0 <= k) by (unfold k; lia).
  assert (HP : Zpos P = 100 * Zpos c * 2 ^ (53 - D) * 2 ^ k).
  { unfold P. rewrite Pos2Z.inj_mul, Hmc. fold d.
    change (Zpos 7036874417766400) with (100 * 2 ^ 46).
    rewrite <- (Z.mul_assoc (100 * Zpos c)), <- Z.pow_add_r by lia.
    replace (53 - D + k) with (46 + (53 - d)) by (unfold k; lia).
    rewrite Z.pow_add_r by lia. lia. }
  assert (Hpow : 2 ^ (D - 1) * (2 ^ (53 - D) * 2 ^ k) = 2 ^ (D + 99 - d - 1)).
  { rewrite <- !Z.pow_add_r by lia. f_equal. unfold k. lia. }
  assert (Hpow' : 2 ^ D * (2 ^ (53 - D) * 2 ^ k) = 2 ^ (D + 99 - d)).
  { rewrite <- !Z.pow_add_r by lia. f_equal. unfold k. lia. }
  assert (HA : 0 < 2 ^ (53 - D)) by (apply Z.pow_pos_nonneg; lia).
  assert (HB : 0 < 2 ^ k) by (apply Z.pow_pos_nonneg; lia).
  assert (HdP : Zpos (digits2_pos P) = D + 99 - d).
  { apply digits_unique. rewrite HP, <- Hpow, <- Hpow'.
    rewrite <- (Z.mul_assoc (100 * Zpos c)).
    assert (HX : 0 < 2 ^ (53 - D) * 2 ^ k) by (apply Z.mul_pos_pos; lia).
    split.
    - apply Z.mul_le_mono_nonneg_r; lia.
    - apply Z.mul_lt_mono_pos_r; lia. }
  destruct (binary_round_aux_shift false P (-46 + (d - 53))) as (mm & Hmm & Herr & Hres).
  { rewrite HdP. lia. }
  { rewrite HdP. lia. }
  cbv zeta in Herr, Hres. rewrite HdP in Herr, Hres.
  replace (D + 99 - d + (-46 + (d - 53)) - 53) with (D - 53) in Herr, Hres by lia.
  replace (D - 53 - (-46 + (d - 53))) with k in Herr by (unfold k; lia).
  assert (Hmz : Zpos mm = 100 * Zpos c * 2 ^ (53 - D)).
  { rewrite HP in Herr.
    set (A := 100 * Zpos c * 2 ^ (53 - D)) in *.
    assert (2 * Z.abs (A - Zpos mm) * 2 ^ k <= 1 * 2 ^ k).
    { replace (2 * Z.abs (A - Zpos mm) * 2 ^ k)
        with (2 * Z.abs (A * 2 ^ k - Zpos mm * 2 ^ k)); [lia|].
      rewrite <- Z.mul_sub_distr_r, Z.abs_mul, (Z.abs_eq (2 ^ k)) by lia. lia. }
    assert (2 * Z.abs (A - Zpos mm) <= 1) by (apply Z.mul_le_mono_pos_r with (p := 2 ^ k); lia).
    lia. }
  assert (Hlt : Zpos mm < 2 ^ 53).
  { rewrite Hmz. replace (2 ^ 53) with (2 ^ D * 2 ^ (53 - D)).
    - apply Z.mul_lt_mono_pos_r; lia.
    - rewrite <- Z.pow_add_r by lia. f_equal. lia. }
  exists mm. rewrite Hres.
  replace (Zpos mm <? 2 ^ 53) with true by (symmetry; apply Z.ltb_lt; exact Hlt).
  replace (D - 53 <=? 971) with true by (symmetry; apply Z.leb_le; lia).
  split; [reflexivity|]. split; [exact Hmz|].
  apply digits_unique. change (53 - 1) with 52. lia.
Qed.

(** [100.0 * c / t] for [1 <= c <= t < 2^46]: a positive float, at most
    100.0, and 100.0 itself when [c = t]. *)
Lemma percentage_core (c t : positive) (x acc : float) :
  Zpos c <= Zpos t -> Zpos t < 2 ^ 46 ->
  float_mul_int 100 (Zpos c) = Ok x -> float_div_int x (Zpos t) = Ok acc ->
  exists (m : positive) (e : Z),
    Prim2SF acc = S754_finite false m e /\
    Zval (S754_finite false m e) <= Zval (Prim2SF 100) /\
    (c = t -> acc = 100%float).
Proof.
  intros Hct Ht Hmul Hdiv.
  assert (H4653 : 2 ^ 53 = 2 ^ 46 * 128) by reflexivity.
  assert (Hc : Zpos c < 2 ^ 46) by lia.
  assert (Hc53 : Zpos c < 2 ^ 53) by (rewrite H4653; change (2 ^ 46) with 70368744177664 in *; lia).
  assert (Ht53 : Zpos t < 2 ^ 53) by (rewrite H4653; change (2 ^ 46) with 70368744177664 in *; lia).
  clear H4653.
  unfold float_mul_int in Hmul.
  destruct (float_of_int_exact c Hc53) as (cf & mc & Hcf & _).
  rewrite Hcf in Hmul. cbn [mbind result_bind] in Hmul. inversion Hmul; subst x. clear Hmul.
  destruct (mul_100_exact c cf Hc Hcf) as (mz & HSx & Hmz & Hdmz).
  unfold float_div_int in Hdiv. cbn [Z.eqb] in Hdiv.
  destruct (float_of_int_exact t Ht53) as (tf & mt & Htf & HSt & Hmt & Hdmt).
  rewrite Htf in Hdiv. cbn [mbind result_bind] in Hdiv. inversion Hdiv; subst acc. clear Hdiv.
  pose proof (digits_bounds (100 * c)) as [Plo Phi].
  pose proof (digits_bounds t) as [Tlo Thi].
  rewrite Pos2Z.inj_mul in Plo, Phi. change (Zpos 100) with 100 in *.
  set (D := Zpos (digits2_pos (100 * c))) in *.
  set (dt := Zpos (digits2_pos t)) in *.
  assert (HD1 : 1 <= D) by (unfold D; lia).
  assert (Hdt1 : 1 <= dt) by (unfold dt; lia).
  assert (Hdt : dt <= 46).
  { destruct (Z.le_gt_cases dt 46) as [H|H]; [exact H|].
    assert (2 ^ 46 <= 2 ^ (dt - 1)) by (apply Z.pow_le_mono_r; lia). lia. }
  assert (HDdt : D <= dt + 7).
  { destruct (Z.le_gt_cases D (dt + 7)) as [H|H]; [exact H|].
    assert (2 ^ (dt + 7) <= 2 ^ (D - 1)) by (apply Z.pow_le_mono_r; lia).
    rewrite Z.pow_add_r in H0 by lia. change (2 ^ 7) with 128 in H0. lia. }
  pose proof (div_spec (100 * cf) tf) as Hacc.
  rewrite HSx, HSt in Hacc. unfold SF64div in Hacc. fold D dt in Hacc.
  destruct (SFdiv_normal mz mt (D - 53) (dt - 53) Hdmz Hdmt ltac:(lia))
    as (mm & k & Hk & Hmm & Herr & Hres).
  rewrite Hres in Hacc. clear Hres.
  set (g := dt - D + 53 - k).
  assert (Hg : 45 <= g <= 106) by (unfold g; lia).
  replace (D - 53 - (dt - 53) - 53 + k) with (- g) in Hacc by (unfold g; lia).
  set (U := 2 ^ (53 - D) * 2 ^ 53).
  set (V := 2 ^ (53 - dt) * 2 ^ k).
  set (G := 2 ^ g).
  assert (HU : 0 < U) by (apply Z.mul_pos_pos; apply Z.pow_pos_nonneg; lia).
  assert (HV : 0 < V) by (apply Z.mul_pos_pos; apply Z.pow_pos_nonneg; lia).
  assert (HG : 0 < G) by (apply Z.pow_pos_nonneg; lia).
  assert (HGV : G * V = U).
  { unfold G, V, U. rewrite <- !Z.pow_add_r by lia. f_equal. unfold g. lia. }
  assert (HN : Zpos mz * 2 ^ 53 = 100 * Zpos c * U).
  { rewrite Hmz. fold D. unfold U. lia. }
  assert (HW : Zpos mt * 2 ^ k = Zpos t * V).
  { rewrite Hmt. fold dt. unfold V. lia. }
  rewrite HN, HW in Herr.
  assert (HtV : 0 < Zpos t * V) by (apply Z.mul_pos_pos; lia).
  assert (HcU : 100 * Zpos c * U <= 100 * Zpos t * U)
    by (apply Z.mul_le_mono_nonneg_r; lia).
  assert (HtU : 100 * Zpos t * U = 100 * G * (Zpos t * V)) by (rewrite <- HGV; ring).
  assert (Hle : Zpos mm <= 100 * G).
  { destruct (Z.le_gt_cases (Zpos mm) (100 * G)) as [H|H]; [exact H|].
    assert ((100 * G + 1) * (Zpos t * V) <= Zpos mm * (Zpos t * V))
      by (apply Z.mul_le_mono_nonneg_r; lia).
    lia. }
  assert (Hval : Zpos mm * 2 ^ (1074 - g) <= Zval (Prim2SF 100)).
  { change (Prim2SF 100) with (S754_finite false 7036874417766400 (-46)).
    unfold Zval. cbn [cond_Zopp].
    change (-46 + 1074) with 1028.
    change (Zpos 7036874417766400) with (100 * 2 ^ 46).
    assert (Hsplit : 100 * 2 ^ 46 * 2 ^ 1028 = 100 * G * 2 ^ (1074 - g)).
    { unfold G. rewrite <- !Z.mul_assoc, <- !Z.pow_add_r by lia.
      f_equal. f_equal. lia. }
    rewrite Hsplit.
    apply Z.mul_le_mono_nonneg_r; [apply Z.pow_nonneg; lia | exact Hle]. }
  assert (Heq : c = t -> Zpos mm = 100 * G /\ g = 46).
  { intros ->. rewrite HtU in Herr.
    assert (Hmm_eq : Zpos mm = 100 * G).
    { destruct (Z.lt_ge_cases (Zpos mm) (100 * G)) as [H|H]; [|lia].
      assert ((Zpos mm + 1) * (Zpos t * V) <= 100 * G * (Zpos t * V))
        by (apply Z.mul_le_mono_nonneg_r; lia).
      lia. }
    split; [exact Hmm_eq|].
    rewrite Hmm_eq in Hmm. unfold G in Hmm.
    destruct (Z.lt_trichotomy g 46) as [L|[E|L]]; [|exact E|].
    - assert (2 ^ g <= 2 ^ 45) by (apply Z.pow_le_mono_r; lia).
      change (2 ^ 52) with (128 * 2 ^ 45) in Hmm. change (2 ^ 45) with 35184372088832 in *.
      lia.
    - assert (2 ^ 47 <= 2 ^ g) by (apply Z.pow_le_mono_r; lia).
      change (2 ^ 53) with (64 * 2 ^ 47) in Hmm. change (2 ^ 47) with 140737488355328 in *.
      lia. }
  replace (- g <=? 971) with true in Hacc by (symmetry; apply Z.leb_le; lia).
  replace (- g + 1 <=? 971) with true in Hacc by (symmetry; apply Z.leb_le; lia).
  destruct (Z.ltb_spec (Zpos mm) (2 ^ 53)) as [Hlt|Hge].
  - exists mm, (- g). split; [exact Hacc|]. split.
    + unfold Zval at 1. cbn [cond_Zopp].
      replace (- g + 1074) with (1074 - g) by lia. exact Hval.
    + intros Hc_eq. destruct (Heq Hc_eq) as [Hmm_eq Hg46].
      apply Prim2SF_inj. rewrite Hacc, Hg46.
      change (Prim2SF 100) with (S754_finite false 7036874417766400 (-46)).
      f_equal. apply Pos2Z.inj. rewrite Hmm_eq. unfold G. rewrite Hg46. reflexivity.
  - exists 4503599627370496%positive, (- g + 1). split; [exact Hacc|]. split.
    + unfold Zval at 1. cbn [cond_Zopp].
      assert (Hmm53 : Zpos mm = 2 ^ 53) by lia.
      rewrite Hmm53 in Hval.
      replace (- g + 1 + 1074) with (1 + (1074 - g)) by lia.
      rewrite Z.pow_add_r by lia.
      change (Zpos 4503599627370496) with (2 ^ 52).
      change (2 ^ 53) with (2 ^ 52 * 2 ^ 1) in Hval. lia.
    + intros Hc_eq. destruct (Heq Hc_eq) as [Hmm_eq Hg46]. exfalso.
      rewrite Hmm_eq in Hge. unfold G in Hge. rewrite Hg46 in Hge.
      change (2 ^ 53) with (128 * 2 ^ 46) in Hge. change (2 ^ 46) with 70368744177664 in Hge.
      lia.
Qed.

Lemma percentage_zero (t : positive) (x acc : float) :
  Zpos t < 2 ^ 53 ->
  float_mul_int 100 0 = Ok x -> float_div_int x (Zpos t) = Ok acc ->
  acc = 0%float.
Proof.
  intros Ht Hmul Hdiv.
  change (float_mul_int 100 0) with (Ok (A:=float) (100 * SF2Prim (S754_zero false))%float)
    in Hmul.
  replace (100 * SF2Prim (S754_zero false))%float with 0%float in Hmul
    by (vm_compute; reflexivity).
  inversion Hmul; subst x.
  unfold float_div_int in Hdiv. cbn [Z.eqb] in Hdiv.
  destruct (float_of_int_exact t Ht) as (f & mz & Hf & HSf & _).
  rewrite Hf in Hdiv. cbn [mbind result_bind] in Hdiv.
  inversion Hdiv; subst. exact (div_zero_by_positive f _ _ HSf).
Qed.

(** [100.0 * correct / total] in binary64, for [0 <= correct <= total] and
    [0 < total < 2^46]: between 0.0 and 100.0, 0.0 exactly when [correct] is
    0, and 100.0 when [correct = total]. *)
Lemma percentage_range (c t : Z) (x acc : float) :
  0 <= c <= t -> 0 < t < 2 ^ 46 ->
  float_mul_int 100 c = Ok x -> float_div_int x t = Ok acc ->
  geb acc 0 = true /\ geb 100 acc = true /\
  (acc = 0%float <-> c = 0) /\
  (c = t -> acc = 100%float).
Proof.
  intros Hc Ht Hmul Hdiv.
  destruct t as [|t|t]; try lia.
  destruct c as [|c|c]; try lia.
  - assert (Ht53 : Zpos t < 2 ^ 53).
    { change (2 ^ 53) with (2 ^ 46 * 128). change (2 ^ 46) with 70368744177664 in *. lia. }
    rewrite (percentage_zero t x acc Ht53 Hmul Hdiv).
    repeat split; try reflexivity; try discriminate.
  - destruct (percentage_core c t x acc ltac:(lia) ltac:(lia) Hmul Hdiv)
      as (m & e & HS & Hval & Heq).
    split; [|split; [|split]].
    + unfold geb. rewrite FloatAxioms.leb_spec, HS. reflexivity.
    + unfold geb. rewrite FloatAxioms.leb_spec. unfold SFleb.
      pose proof (Prim2SF_valid acc) as Va. rewrite HS in Va |- *.
      rewrite (SFcompare_Zval _ _ Va (Prim2SF_valid 100)); [|discriminate|discriminate].
      destruct (Z.compare_spec (Zval (S754_finite false m e)) (Zval (Prim2SF 100)));
        try reflexivity; lia.
    + split; [|discriminate].
      intros Hz. rewrite Hz in HS. discriminate HS.
    + intros E. apply Heq. congruence.
Qed.

Section AccuracyRange.
Context `{Torch}.

(** With one prediction per label, the right predictions of a loader are
    at most its samples. *)
Lemma correct_count_bounds (model : Model) (device : string) (loader : list Batch)
  (correct : Z) :
  predictions_match_labels model device loader ->
  correct_count model device loader = Ok correct ->
  0 <= correct <= total_count loader.
Proof.
  unfold correct_count. revert correct.
  induction loader as [|b rest IH]; intros correct Hwf Hc.
  - cbn in Hc. inversion Hc; subst. unfold total_count. cbn. lia.
  - inversion Hwf as [|? ? Hb Hrest]; subst.
    cbn [collect] in Hc.
    destruct (batch_correct model device b) as [n|e] eqn:Hn;
      cbn [mbind result_bind] in Hc; [|discriminate].
    destruct (collect (batch_correct model device) rest) as [cs|e];
      cbn [mbind result_bind] in Hc; [|discriminate].
    inversion Hc; subst. specialize (IH (sumZ cs) Hrest eq_refl).
    unfold batch_correct in Hn.
    destruct (batch_predicted model device b) as [predicted|e] eqn:Hp;
      cbn [mbind result_bind] in Hn; [|discriminate].
    pose proof (eq_sum_same_length _ _ _ (Hb _ eq_refl) Hn) as Hq.
    rewrite total_count_cons. unfold sumZ in *. cbn [fold_right]. lia.
Qed.

(** An accuracy that was computed on fewer than 2^46 samples, with one
    prediction per label. *)
Lemma accuracy_percentage_range (model : Model) (device : string)
  (loader : list Batch) (acc : float) :
  predictions_match_labels model device loader ->
  total_count loader < 2 ^ 46 ->
  accuracy_percentage model device loader = Ok acc ->
  geb acc 0 = true /\ geb 100 acc = true /\
  (acc = 0%float <-> correct_count model device loader = Ok 0) /\
  (correct_count model device loader = Ok (total_count loader) -> acc = 100%float).
Proof.
  intros Hwf Ht. unfold accuracy_percentage.
  destruct (correct_count model device loader) as [c|e] eqn:Hc;
    cbn [mbind result_bind]; [|discriminate].
  destruct (float_mul_int 100 c) as [x|e] eqn:Hmul; cbn [mbind result_bind];
    [|discriminate].
  intros Hdiv.
  pose proof (correct_count_bounds _ _ _ _ Hwf Hc) as Hcb.
  assert (Hpos : 0 < total_count loader).
  { destruct (Z.eq_dec (total_count loader) 0) as [E|E]; [|lia].
    rewrite E in Hdiv. discriminate Hdiv. }
  destruct (percentage_range _ _ _ _ Hcb (conj Hpos Ht) Hmul Hdiv)
    as (H0 & H100 & Hz & Hall).
  repeat split; try assumption.
  - intros E. f_equal. apply Hz. exact E.
  - intros E. apply Hz. congruence.
  - intros E. apply Hall. congruence.
Qed.
End AccuracyRange.

(** The accuracy that [validate] returns, for a model whose forward pass in
    evaluation mode leaves it as it is, on fewer than 2^46 samples with one
    prediction per label, lies between 0.0 and 100.0; it is 0.0 exactly
    when no prediction is right, and 100.0 when all are. *)
Theorem validate_accuracy_range `{Torch} {T : Type} `{LossScalar T}
  (model model' : Model) (loader : list Batch)
  (criterion : Outputs -> list Z -> result T) (device : string)
  (val_loss : T) (val_acc : float) :
  validate model loader criterion device = Ok (model', (val_loss, val_acc)) ->
  eval_forward_pure (parameters model) device ->
  predictions_match_labels (mkModel (parameters model) false) device loader ->
  total_count loader < 2 ^ 46 ->
  geb val_acc 0 = true /\ geb 100 val_acc = true /\
  (val_acc = 0%float
   <-> correct_count (mkModel (parameters model) false) device loader = Ok 0) /\
  (correct_count (mkModel (parameters model) false) device loader
   = Ok (total_count loader) -> val_acc = 100%float).
Proof.
  intros Hval Hpure Hwf Ht.
  assert (Hacc : accuracy_percentage (mkModel (parameters model) false) device loader
                 = Ok val_acc).
  { unfold validate in Hval.
    destruct (validate_loop _ _ _ _ _ _ _ _) as [[m [[rl c] t]]|e] eqn:Hloop;
      cbn [mbind result_bind] in Hval; [|discriminate].
    apply validate_loop_inv in Hloop
      as (-> & losses & counts & Hls & Hcs & -> & -> & ->); [|reflexivity|exact Hpure].
    rewrite !Z.add_0_l in Hval.
    destruct (loss_div_int _ _) as [l|e]; cbn [mbind result_bind] in Hval; [|discriminate].
    destruct (float_mul_int 100 _) as [x|e] eqn:Hmul; cbn [mbind result_bind] in Hval;
      [|discriminate].
    destruct (float_div_int x _) as [a|e] eqn:Hdiv; cbn [mbind result_bind] in Hval;
      [|discriminate].
    inversion Hval; subst.
    unfold accuracy_percentage, correct_count. rewrite Hcs. cbn [mbind result_bind].
    rewrite Hmul. cbn [mbind result_bind]. exact Hdiv. }
  exact (accuracy_percentage_range _ _ _ _ Hwf Ht Hacc).
Qed.

(** The same holds for the accuracy of the evaluation on the test set, for
    the parameters that were loaded. *)
Theorem evaluate_accuracy_range `{Torch} (fs : gmap string StateDict)
  (model loaded : Model) (testloader : list Batch) (device : string)
  (predictions : list Z) (clean_accuracy : float) :
  evaluate_cifar100_test fs model testloader device
  = Ok (loaded, (predictions, clean_accuracy)) ->
  (forall params : Params, eval_forward_pure params device) ->
  predictions_match_labels loaded device testloader ->
  total_count testloader < 2 ^ 46 ->
  geb clean_accuracy 0 = true /\ geb 100 clean_accuracy = true /\
  (clean_accuracy = 0%float <-> correct_count loaded device testloader = Ok 0) /\
  (correct_count loaded device testloader = Ok (total_count testloader) ->
   clean_accuracy = 100%float).
Proof.
  intros Hev Hpure Hwf Ht.
  assert (Hacc : accuracy_percentage loaded device testloader = Ok clean_accuracy).
  { pose proof Hev as Hev0. unfold evaluate_cifar100_test, torch_load in Hev0.
    destruct (fs !! "best_model.pth") as [checkpoint|] eqn:Hfile;
      cbn [mbind result_bind] in Hev0; [|discriminate].
    destruct (load_state_dict (parameters model) checkpoint) as [params|e] eqn:Hload;
      cbn [mbind result_bind] in Hev0; [|discriminate].
    apply (evaluate_loaded_ok fs model testloader device checkpoint params
             Hfile Hload (Hpure params)) in Hev as (-> & _ & Hacc).
    exact Hacc. }
  exact (accuracy_percentage_range _ _ _ _ Hwf Ht Hacc).
Qed.

(** ** The theorems above, on the counting model *)

(** The forward pass of the counting model leaves the weight as it is, and
    a checkpoint of the model loads back. *)
Lemma counting_forward_pure (w : Z) (device : string) :
  eval_forward_pure (H:=counting_torch) w device.
Proof. intros inputs outputs params' E. inversion E. reflexivity. Defined.

Lemma counting_load_state_dict (p q : Z) :
  load_state_dict (Torch:=counting_torch) p (state_dict (Torch:=counting_torch) q) = Ok q.
Proof. reflexivity. Defined.


Lemma transfer_loop_checkpoint_is_last_model_witness :
  torch_load (files (fst transfer_final)) "best_model.pth"
  = Ok (state_dict (Torch:=counting_torch) (parameters (model (fst transfer_final)))).
Proof.
  apply (transfer_loop_checkpoint_is_last_model (H:=counting_torch)
           (CONFIG transfer_cnn "cpu") unit_criterion
           (fun _ => one_batch 1) (fun _ => one_batch 1) (seqZ 0 5)
           (initial_state (H:=counting_torch) (mkModel (H:=counting_torch) 0 true) tt ∅)
           (fst transfer_final) (EarlyStopping_init 2 0) (snd transfer_final)).
  - discriminate.
  - vm_compute. reflexivity.
Defined.

Lemma train_outcome_witness :
  starts_empty (Inputs:=list Z) [([0], [5]); ([1], [7])] = false /\
  device_available (Torch:=counting_torch) (device (CONFIG soph_cnn "cpu")) = true /\
  training (H:=counting_torch) (mkModel (H:=counting_torch) 7 true) = true /\
  train_updates (H:=counting_torch) 5 tt (device (CONFIG soph_cnn "cpu"))
    [([0], [5]); ([1], [7])] = Ok (7, tt).
Proof.
  apply (train_outcome (H:=counting_torch) (T:=float) 0
           (mkModel (H:=counting_torch) 5 false) [([0], [5]); ([1], [7])] tt
           unit_criterion (CONFIG soph_cnn "cpu")
           (mkModel (H:=counting_torch) 7 true) tt 1%float 100%float).
  vm_compute. reflexivity.
Defined.

Lemma evaluate_agrees_with_validate_witness :
  exists predictions : list Z,
    evaluate_cifar100_test (H:=counting_torch) {["best_model.pth" := [5]]}
      (mkModel (H:=counting_torch) 0 true) [([0; 1; 2], [5; 6; 8])] "cpu"
    = Ok (mkModel (H:=counting_torch) 5 false, (predictions, (200 / 3)%float)) /\
    (eval_forward_pure (H:=counting_torch) 5 "cpu" ->
     all_predictions (H:=counting_torch) (mkModel (H:=counting_torch) 5 false) "cpu"
       [([0; 1; 2], [5; 6; 8])] = Ok predictions).
Proof.
  apply (evaluate_agrees_with_validate (H:=counting_torch) (T:=float)
           {["best_model.pth" := [5]]} (mkModel (H:=counting_torch) 5 true)
           (mkModel (H:=counting_torch) 0 true) (mkModel (H:=counting_torch) 5 false)
           [([0; 1; 2], [5; 6; 8])] unit_criterion "cpu" [5] 1%float (200 / 3)%float).
  - vm_compute. reflexivity.
  - reflexivity.
  - reflexivity.
Defined.

Lemma validate_accuracy_range_witness :
  geb (200 / 3) 0 = true /\ geb 100 (200 / 3) = true /\
  ((200 / 3)%float = 0%float
   <-> correct_count (H:=counting_torch) (mkModel (H:=counting_torch) 5 false) "cpu"
         [([0; 1; 2], [5; 6; 8])] = Ok 0) /\
  (correct_count (H:=counting_torch) (mkModel (H:=counting_torch) 5 false) "cpu"
     [([0; 1; 2], [5; 6; 8])]
   = Ok (total_count (H:=counting_torch) [([0; 1; 2], [5; 6; 8])]) ->
   (200 / 3)%float = 100%float).
Proof.
  apply (validate_accuracy_range (H:=counting_torch) (T:=float)
           (mkModel (H:=counting_torch) 5 true) (mkModel (H:=counting_torch) 5 false)
           [([0; 1; 2], [5; 6; 8])] unit_criterion "cpu" 1%float (200 / 3)%float).
  - vm_compute. reflexivity.
  - apply counting_forward_pure.
  - repeat constructor. intros predicted E. vm_compute in E. inversion E. reflexivity.
  - vm_compute. reflexivity.
Defined.

Lemma evaluate_accuracy_range_witness :
  geb 100 0 = true /\ geb 100 100 = true /\
  (100%float = 0%float
   <-> correct_count (H:=counting_torch) (mkModel (H:=counting_torch) 5 false) "cpu"
         [([0; 1], [5; 6])] = Ok 0) /\
  (correct_count (H:=counting_torch) (mkModel (H:=counting_torch) 5 false) "cpu"
     [([0; 1], [5; 6])]
   = Ok (total_count (H:=counting_torch) [([0; 1], [5; 6])]) ->
   100%float = 100%float).
Proof.
  apply (evaluate_accuracy_range (H:=counting_torch) {["best_model.pth" := [5]]}
           (mkModel (H:=counting_torch) 0 true) (mkModel (H:=counting_torch) 5 false)
           [([0; 1], [5; 6])] "cpu" [5; 6] 100%float).
  - vm_compute. reflexivity.
  - intros params. apply counting_forward_pure.
  - repeat constructor. intros predicted E. vm_compute in E. inversion E. reflexivity.
  - vm_compute. reflexivity.
Defined.

Lemma training_loop_trace_witness :
  exists blocks : list (list (event (T:=float))),
    events second_epoch_best_final = [] ++ concat blocks /\
    Forall2 (fun epoch block =>
               exists (log : event) (saved : bool),
                 is_log_of epoch log /\ block = epoch_trace log saved)
      (seqZ 0 5) blocks.
Proof.
  apply (training_loop_trace (H:=counting_torch) (CONFIG simple_cnn "cpu") unit_criterion
           (fun _ => one_batch 2) (fun _ => one_batch 2) (seqZ 0 5)
           (initial_state (H:=counting_torch) (mkModel (H:=counting_torch) 0 true) tt ∅)
           second_epoch_best_final).
  vm_compute. reflexivity.
Defined.

Lemma checkpoint_holds_best_epoch_model_witness :
  exists (before : list Z) (epoch : Z) (after : list Z)
         (st2 : RunState (H:=counting_torch) (T:=float)),
    seqZ 0 5 = before ++ epoch :: after /\
    files second_epoch_best_final !! "best_model.pth"
    = Some (state_dict (Torch:=counting_torch) (parameters (model st2))) /\
    best_val_acc second_epoch_best_final = best_val_acc st2.
Proof.
  assert (Hrun : counting_run 2 ∅ (seqZ 0 5) = Ok second_epoch_best_final)
    by (vm_compute; reflexivity).
  destruct (checkpoint_holds_best_epoch_model (H:=counting_torch) _ _ _ _ _ _ _
              (events second_epoch_best_final) Hrun eq_refl) as (_ & Hsaved & _).
  destruct Hsaved as (before & epoch & after & st1 & st2 & Hl & _ & _ & _ & _ & Hb & _
                      & Hfile & _).
  { right. right. left. reflexivity. }
  exists before, epoch, after, st2. split; [exact Hl|]. split; [exact Hfile | exact Hb].
Defined.

Lemma best_val_acc_is_maximum_witness :
  Forall (fun v => geb (best_val_acc second_epoch_best_final) v = true)
    (logged_val_acc (events second_epoch_best_final)) /\
  (best_val_acc second_epoch_best_final = 0%float \/
   In (best_val_acc second_epoch_best_final)
     (logged_val_acc (events second_epoch_best_final))).
Proof.
  apply (best_val_acc_is_maximum (H:=counting_torch) (CONFIG simple_cnn "cpu")
           unit_criterion (fun _ => one_batch 2) (fun _ => one_batch 2)
           (mkModel (H:=counting_torch) 0 true) tt ∅ (seqZ 0 5) second_epoch_best_final).
  - vm_compute. reflexivity.
  - vm_compute. repeat constructor.
Defined.

(** simple_cnn.py on the counting model: the model of the second epoch is
    the one evaluated (it predicts the label 2), not the one the fifth epoch
    left (which predicts 5). *)
Lemma main_train_and_evaluate_outcome_witness :
  main_train_and_evaluate (H:=counting_torch) (T:=float) simple_cnn "cpu" unit_criterion
    (fun _ => one_batch 2) (fun _ => one_batch 2) (one_batch 2)
    (mkModel (H:=counting_torch) 0 true) tt ∅
  = Ok (second_epoch_best_final, ([2], 100%float)).
Proof.
  assert (Hrun : training_loop (H:=counting_torch) (CONFIG simple_cnn "cpu")
                   unit_criterion (fun _ => one_batch 2) (fun _ => one_batch 2)
                   (initial_state (H:=counting_torch)
                      (mkModel (H:=counting_torch) 0 true) tt ∅)
                   (range (epochs (CONFIG simple_cnn "cpu")))
                 = Ok second_epoch_best_final) by (vm_compute; reflexivity).
  destruct (main_train_and_evaluate_outcome (H:=counting_torch) (T:=float)
              simple_cnn "cpu" unit_criterion (fun _ => one_batch 2)
              (fun _ => one_batch 2) (one_batch 2)
              (mkModel (H:=counting_torch) 0 true) tt ∅ second_epoch_best_final
              Hrun counting_load_state_dict
              (fun p => counting_forward_pure p "cpu")) as [_ Hsaved].
  destruct Hsaved as (before & epoch & after & st1 & st2 & _ & _ & _ & _ & _ & _
                      & Hfile & Hiff).
  { right. left. reflexivity. }
  change (Some [2] = Some [parameters (model st2)]) in Hfile. injection Hfile as Hp.
  apply Hiff. rewrite <- Hp. split; vm_compute; reflexivity.
Defined.

(** transfer_cnn.py on the counting model: the loop stops after six epochs,
    and the model evaluated is the one the sixth epoch left. *)
Lemma transfer_main_evaluates_last_model_witness :
  transfer_main_train_and_evaluate (H:=counting_torch) "cpu" unit_criterion
    (fun _ => one_batch 1) (fun _ => one_batch 1) (one_batch 1)
    (mkModel (H:=counting_torch) 0 true) tt ∅
  = Ok (fst transfer_main_final, snd transfer_main_final, ([6], 0%float)).
Proof.
  destruct (transfer_main_evaluates_last_model (H:=counting_torch) "cpu" unit_criterion
              (fun _ => one_batch 1) (fun _ => one_batch 1) (one_batch 1)
              (mkModel (H:=counting_torch) 0 true) tt ∅
              (fst transfer_main_final) (snd transfer_main_final)) as [_ Hiff].
  - vm_compute. reflexivity.
  - reflexivity.
  - apply counting_forward_pure.
  - apply Hiff. split; vm_compute; reflexivity.
Defined.

Lemma evaluation_transforms_deterministic_witness :
  fst (Compose (H:=row_vision)
         (ds_transform (CIFAR100 (fun _ => 10) "./data" false true
                          (transform_test simple_cnn)))
         (draws_of [0.25; 0.5]%float) [1; 2; 3])
  = fst (Compose (H:=row_vision)
           (ds_transform (CIFAR100 (fun _ => 10) "./data" false true
                            (transform_test simple_cnn)))
           (draws_of [0.75; 0.5]%float) [1; 2; 3]).
Proof.
  refine (proj1 (evaluation_transforms_deterministic (H:=row_vision) simple_cnn (fun _ => 10)
           (seqZ 0)
           (mkSubset (CIFAR100 (fun _ => 10) "./data" true true (transform_train simple_cnn))
              [0; 1; 2; 3; 4; 5; 6; 7])
           (mkSubset (CIFAR100 (fun _ => 10) "./data" true true (transform_train simple_cnn))
              [8; 9])
           (CIFAR100 (fun _ => 10) "./data" false true (transform_test simple_cnn))
           (draws_of [0.25; 0.5]%float) (draws_of [0.75; 0.5]%float) [1; 2; 3] _)).
  vm_compute. reflexivity.
Defined.

(** A first batch without a sample raises; a later one is harmless. *)
Lemma validate_raises_iff_starts_empty_witness :
  validate (H:=counting_torch) (mkModel (H:=counting_torch) 5 true)
    [([], []); ([1], [6])] unit_criterion "cpu" = Raise ZeroDivisionError /\
  exists (val_loss val_acc : float),
    validate (H:=counting_torch) (mkModel (H:=counting_torch) 5 true)
      [([0], [5]); ([], [])] unit_criterion "cpu"
    = Ok (mkModel (H:=counting_torch) 5 false, (val_loss, val_acc)) /\
    mean_loss (H:=counting_torch) (mkModel (H:=counting_torch) 5 false) unit_criterion
      "cpu" [([0], [5]); ([], [])] = Ok val_loss /\
    accuracy_percentage (H:=counting_torch) (mkModel (H:=counting_torch) 5 false)
      "cpu" [([0], [5]); ([], [])] = Ok val_acc.
Proof.
  split.
  - apply (validate_raises_iff_starts_empty (H:=counting_torch) item_loss_div_is_ok
             item_loss_div_zero (mkModel (H:=counting_torch) 5 true)
             [([], []); ([1], [6])] unit_criterion "cpu").
    + apply counting_forward_pure.
    + reflexivity.
    + reflexivity.
    + vm_compute. reflexivity.
    + vm_compute. reflexivity.
    + intros c E. vm_compute in E. inversion E. reflexivity.
    + reflexivity.
  - apply (validate_raises_iff_starts_empty (H:=counting_torch) item_loss_div_is_ok
             item_loss_div_zero (mkModel (H:=counting_torch) 5 true)
             [([0], [5]); ([], [])] unit_criterion "cpu").
    + apply counting_forward_pure.
    + reflexivity.
    + reflexivity.
    + vm_compute. reflexivity.
    + vm_compute. reflexivity.
    + intros c E. vm_compute in E. inversion E. reflexivity.
    + reflexivity.
Defined.
